(** * smollm-sandbox: the code-execution pipeline of [internal/sandbox]

    A shallow embedding of the Go package [sandbox] (files [compiler.go],
    [executor.go] and [environment.go]) and the properties of its
    specification that can be settled on it.

    The package drives operating-system processes and the file system.
    Both are modelled explicitly:
    - the file system is a finite map from (cleaned) paths to regular
      files that can be read: a path holds such a file or nothing.
      Directories, special files and faults of the medium are not
      modelled, and neither are the errors that need them: [os.Stat] fails
      only for a path that holds nothing, and opening, reading, copying
      and changing the mode of a file that is there succeed. Creating and
      removing a file fail where the [World] says so, and reading a
      directory that holds no file fails where the [World] says that the
      directory does not exist;
    - what a launched process does (whether it starts, when it exits, with
      which status, what it wrote) is read from a [World], an oracle that
      the theorems quantify over;
    - every launch and every signal is appended to a trace of events;
    - a Go call that may block for ever has the outcome [Hang]. *)

From Stdlib Require Import ZArith Ascii String List Lia DecimalString.
From Stdlib Require DecimalZ DecimalPos.
From stdpp Require Import base option gmap strings list fin_maps.

Local Open Scope Z_scope.

(** ** Go standard-library string and path functions

    Strings are byte strings. [strings.ToLower] lower-cases the ASCII
    letters and the two other runes whose lower case is an ASCII letter:
    U+0130 (bytes C4 B0) becomes i and U+212A (bytes E2 84 AA) becomes k.
    Every other byte above 7F is left as it is, where Go writes the lower
    case of a non-ASCII letter, or U+FFFD for a byte that is not UTF-8:
    bytes above 7F in both cases. So the ASCII bytes of the result, and
    the places where they stand next to each other, are the ones of Go:
    every comparison of a lower-cased string with an ASCII string and
    every search of an ASCII pattern in it is the one Go makes. *)

Module GoStrings.

Definition is_upper (c : ascii) : bool :=
  let n := nat_of_ascii c in (Nat.leb 65 n && Nat.leb n 90)%bool.

Definition lower_ascii (c : ascii) : ascii :=
  if is_upper c then ascii_of_nat (nat_of_ascii c + 32) else c.

(** The UTF-8 bytes of U+0130 and of U+212A. A byte C4 or E2 always
    starts a rune, so the bytes below are these runes wherever they
    occur. *)
Definition is_dotted_I (a b : ascii) : bool :=
  (Ascii.eqb a (ascii_of_nat 196) && Ascii.eqb b (ascii_of_nat 176))%bool.

Definition is_kelvin (a b c : ascii) : bool :=
  (Ascii.eqb a (ascii_of_nat 226) && Ascii.eqb b (ascii_of_nat 132)
   && Ascii.eqb c (ascii_of_nat 170))%bool.

Fixpoint ToLower (s : string) : string :=
  match s with
  | EmptyString => EmptyString
  | String a s1 =>
      match s1 with
      | String b s2 =>
          if is_dotted_I a b then String "i" (ToLower s2)
          else
            match s2 with
            | String c s3 =>
                if is_kelvin a b c then String "k" (ToLower s3)
                else String (lower_ascii a) (ToLower s1)
            | EmptyString => String (lower_ascii a) (ToLower s1)
            end
      | EmptyString => String (lower_ascii a) (ToLower s1)
      end
  end.

Definition Len (s : string) : Z := Z.of_nat (String.length s).

Fixpoint HasPrefix (s p : string) : bool :=
  match p, s with
  | EmptyString, _ => true
  | String a p', String b s' => if Ascii.eqb a b then HasPrefix s' p' else false
  | String _ _, EmptyString => false
  end.

Definition rev_string (s : string) : string :=
  string_of_list_ascii (rev (list_ascii_of_string s)).

Definition HasSuffix (s suf : string) : bool :=
  HasPrefix (rev_string s) (rev_string suf).

(** [strings.TrimSuffix]: [s] without the trailing [suf], or [s] itself. *)
Definition TrimSuffix (s suf : string) : string :=
  if HasSuffix s suf
  then String.substring 0 (String.length s - String.length suf) s
  else s.

Fixpoint Join (l : list string) (sep : string) : string :=
  match l with
  | [] => EmptyString
  | [x] => x
  | x :: l' => x +:+ sep +:+ Join l' sep
  end.

(** [strings.Contains] is [String.index]-based search. *)
Fixpoint Contains_fuel (n : nat) (s sub : string) : bool :=
  if HasPrefix s sub then true else
  match n, s with
  | S n', String _ s' => Contains_fuel n' s' sub
  | _, _ => false
  end.

Definition Contains (s sub : string) : bool :=
  Contains_fuel (String.length s) s sub.

End GoStrings.

Module GoPath.
Import GoStrings.

Definition is_sep (c : ascii) : bool := Ascii.eqb c "/"%char.
Definition is_dot (c : ascii) : bool := Ascii.eqb c "."%char.

(** [filepath.Ext]: scan from the end of the path; stop at a separator
    (no extension) or at the first dot met (the extension starts there). *)
Fixpoint ext_scan (r acc : list ascii) : list ascii :=
  match r with
  | [] => []
  | c :: r' =>
      if is_sep c then []
      else if is_dot c then c :: acc
      else ext_scan r' (c :: acc)
  end.

Definition Ext (p : string) : string :=
  string_of_list_ascii (ext_scan (rev (list_ascii_of_string p)) []).

(** Splitting a path at its separators; empty components are kept. *)
Fixpoint split_sep (l cur : list ascii) : list (list ascii) :=
  match l with
  | [] => [rev cur]
  | c :: l' => if is_sep c then rev cur :: split_sep l' [] else split_sep l' (c :: cur)
  end.

Fixpoint drop_seps (r : list ascii) : list ascii :=
  match r with
  | c :: r' => if is_sep c then drop_seps r' else r
  | [] => []
  end.

Fixpoint take_elem (r acc : list ascii) : list ascii :=
  match r with
  | c :: r' => if is_sep c then acc else take_elem r' (c :: acc)
  | [] => acc
  end.

(** [filepath.Base]: the last element of the path, trailing separators
    removed first; "." for the empty path and "/" for a path of separators. *)
Definition Base (p : string) : string :=
  match p with
  | EmptyString => "."%string
  | _ =>
      match take_elem (drop_seps (rev (list_ascii_of_string p))) [] with
      | [] => "/"%string
      | e => string_of_list_ascii e
      end
  end.

Definition dotdot : list ascii := ["."%char; "."%char].

(** One step of [filepath.Clean] on the stack of elements kept so far (head
    = last element): the empty element and "." vanish, ".." removes the element before
    it, is kept in a relative path that has nothing to remove, and is
    dropped at the root. *)
Definition clean_step (rooted : bool) (stack : list (list ascii)) (e : list ascii)
  : list (list ascii) :=
  match e with
  | [] => stack
  | [c] => if is_dot c then stack else e :: stack
  | _ =>
      if bool_decide (e = dotdot) then
        match stack with
        | top :: rest => if bool_decide (top = dotdot) then e :: stack else rest
        | [] => if rooted then [] else [e]
        end
      else e :: stack
  end.

Definition join_elems (l : list (list ascii)) : string :=
  Join (map string_of_list_ascii l) "/".

Definition Clean (p : string) : string :=
  let l := list_ascii_of_string p in
  let rooted := match l with c :: _ => is_sep c | [] => false end in
  let stack := fold_left (clean_step rooted) (split_sep l []) [] in
  let body := join_elems (rev stack) in
  if rooted then "/" +:+ body
  else match body with EmptyString => "."%string | _ => body end.

(** [filepath.Join] of two elements: empty elements are ignored and the
    result is cleaned. *)
Definition Join2 (a b : string) : string :=
  match a, b with
  | EmptyString, EmptyString => EmptyString
  | EmptyString, _ => Clean b
  | _, _ => Clean (a +:+ "/" +:+ b)
  end.

End GoPath.

Import GoStrings GoPath.

(** ** The file system, processes and the world *)

Record File := { content : string; perm : Z }.

Definition perm_0755 : Z := 493.
Definition perm_0666 : Z := 438.

(** A command as [exec.Command] and the fields set on it afterwards. *)
Record Cmd := {
  cmd_path : string;
  cmd_args : list string;
  cmd_dir : string;
  cmd_setpgid : bool }.

(** How a process ends when nobody kills it: it exits [after] nanoseconds
    after its launch with the code [ExitCode()] reports (0 for a
    successful exit, never 0 inside an [*exec.ExitError]), or it runs on. *)
Inductive Termination :=
| Exits (after : Z) (code : Z)
| Runs.

(** What a launched process does. [p_stdout] and [p_stderr] are the bytes
    found in the capture buffers when the caller reads them (at the exit
    of the process, or after the kill); [p_files] is what the process did
    to the file system by then. *)
Record Proc := {
  p_start_err : option string;
  p_pid : positive;
  p_end : Termination;
  p_stdout : string;
  p_stderr : string;
  p_files : gmap string File -> gmap string File }.

(** The world: what each launched command does on a given file system,
    the clock read by [time.Now().UnixNano()], the paths on which creating
    or removing a file fails (with the text of the error), the
    directories that do not exist (with the text of the error of reading
    them; it matters only for a directory that holds no file, since the
    file system below records files only), and the text [%v] prints for a
    [time.Duration]. *)
Record World := {
  spawn : Cmd -> gmap string File -> Proc;
  unix_nano : Z;
  create_err : string -> option string;
  remove_err : string -> option string;
  missing_dir : string -> option string;
  show_duration : Z -> string }.

Inductive Signal := SIGKILL.

Inductive Event :=
| EvLaunch (c : Cmd) (pid : positive)
| EvLaunchFailed (c : Cmd)
| EvKill (target : Z) (sig : Signal)
| EvWarn (file pattern : string).

Record State := { fs : gmap string File; trace : list Event }.

(** A call returns a value in a new state, or never returns. *)
Inductive Outcome (A : Type) :=
| Ret (a : A) (s : State)
| Hang (s : State).
Arguments Ret {A} a s.
Arguments Hang {A} s.

Definition M (A : Type) : Type := State -> Outcome A.

Definition ret {A} (a : A) : M A := fun s => Ret a s.

Definition bind {A B} (m : M A) (k : A -> M B) : M B :=
  fun s => match m s with
           | Ret a s' => k a s'
           | Hang s' => Hang s'
           end.

Notation "'let*' x ':=' m 'in' k" := (bind m (fun x => k))
  (at level 10, x name, m at level 100, k at level 200).
Notation "'do*' m 'in' k" := (bind m (fun _ => k))
  (at level 10, m at level 100, k at level 200).

Definition get_fs : M (gmap string File) := fun s => Ret (fs s) s.
Definition put_fs (f : gmap string File) : M unit :=
  fun s => Ret tt {| fs := f; trace := trace s |}.
Definition emit (e : Event) : M unit :=
  fun s => Ret tt {| fs := fs s; trace := trace s ++ [e] |}.
Definition block {A} : M A := fun s => Hang s.

(** Go's [(T, error)] results. *)
Inductive Result (E A : Type) :=
| Ok (a : A)
| Err (e : E).
Arguments Ok {E A} a.
Arguments Err {E A} e.

(** The errors the package builds with [fmt.Errorf], and [ErrOS] for an
    error of the operating system that is returned as it is; [error_text]
    gives their text. *)
Inductive error :=
| ErrFileNotExist (path : string)
| ErrCopy (cause : string)
| ErrCompile (cause : error)
| ErrUnsupportedFileType (ext : string)
| ErrStartProcess (cause : string)
| ErrUnsupportedLanguage (language : string)
| ErrWriteTemp (cause : string)
| ErrCompileKnown (msg : string) (code : Z) (stderr : string)
| ErrCompileExit (code : Z) (stderr : string)
| ErrCompilerStart (cause : string)
| ErrCompileTimeout (seconds : Z)
| ErrRun (cause : error)
| ErrRunTimeout (seconds : Z)
| ErrOutputExceeded (bytes : Z)
| ErrExit (code : Z)
| ErrFileTooLarge (size limit : Z)
| ErrReadDir (cause : string)
| ErrCleanup (failures : list string)
| ErrOS (text : string).

(** [%d] of [fmt.Sprintf]. *)
Definition fmt_d (z : Z) : string := NilZero.string_of_int (Z.to_int z).

Fixpoint error_text (e : error) : string :=
  match e with
  | ErrFileNotExist p => "файл не существует: " +:+ p
  | ErrCopy c => "ошибка копирования файла: " +:+ c
  | ErrCompile c => "ошибка компиляции: " +:+ error_text c
  | ErrUnsupportedFileType x => "неподдерживаемый тип файла: " +:+ x
  | ErrStartProcess c => "ошибка запуска процесса: " +:+ c
  | ErrUnsupportedLanguage l => "неподдерживаемый язык: " +:+ l
  | ErrWriteTemp c => "ошибка записи во временный файл: " +:+ c
  | ErrCompileKnown m c s => m +:+ " (код " +:+ fmt_d c +:+ "): " +:+ s
  | ErrCompileExit c s => "ошибка компиляции (код " +:+ fmt_d c +:+ "): " +:+ s
  | ErrCompilerStart c => "ошибка запуска компилятора: " +:+ c
  | ErrCompileTimeout n => "превышено время компиляции (" +:+ fmt_d n +:+ " секунд)"
  | ErrRun c => "ошибка выполнения: " +:+ error_text c
  | ErrRunTimeout n => "превышено время выполнения (" +:+ fmt_d n +:+ " секунд)"
  | ErrOutputExceeded n => "превышен максимальный размер вывода (" +:+ fmt_d n +:+ " байт)"
  | ErrExit c => "exit status " +:+ fmt_d c
  | ErrFileTooLarge n m =>
      "превышен максимальный размер файла: " +:+ fmt_d n +:+ " байт (максимум "
      +:+ fmt_d m +:+ ")"
  | ErrReadDir c => "ошибка чтения директории: " +:+ c
  | ErrCleanup l => "ошибки при очистке: " +:+ Join l "; "
  | ErrOS text => text
  end.

(** ** Primitives of [os] and [os/exec] *)

(** [os.Stat] followed by [os.IsNotExist]: [true] when the file is there. *)
Definition Stat (p : string) : M bool :=
  fun s => Ret (bool_decide (is_Some (fs s !! p))) s.

(** [os.Stat] for the size of the file. *)
Definition os_Stat_size (p : string) : M (Result string Z) :=
  fun s =>
    match fs s !! p with
    | Some f => Ret (Ok (Len (content f))) s
    | None => Ret (Err ("stat " +:+ p +:+ ": no such file or directory")) s
    end.

(** [os.ReadFile]. *)
Definition os_ReadFile (p : string) : M (Result string string) :=
  fun s =>
    match fs s !! p with
    | Some f => Ret (Ok (content f)) s
    | None => Ret (Err ("open " +:+ p +:+ ": no such file or directory")) s
    end.

(** [os.Create]: the file is created empty, or truncated when it exists
    (its mode is kept then). *)
Definition os_Create (w : World) (p : string) : M (Result string unit) :=
  fun s =>
    match create_err w p with
    | Some msg => Ret (Err msg) s
    | None =>
        let mode := match fs s !! p with Some f => perm f | None => perm_0666 end in
        Ret (Ok tt)
            {| fs := <[p := {| content := EmptyString; perm := mode |}]> (fs s);
               trace := trace s |}
    end.

(** [os.WriteFile]: create or truncate, then write; [mode] is used only
    when the file is created. *)
Definition os_WriteFile (w : World) (p data : string) (mode : Z)
  : M (Result string unit) :=
  fun s =>
    match create_err w p with
    | Some msg => Ret (Err msg) s
    | None =>
        let m := match fs s !! p with Some f => perm f | None => mode end in
        Ret (Ok tt)
            {| fs := <[p := {| content := data; perm := m |}]> (fs s);
               trace := trace s |}
    end.

(** [os.Chmod]; the callers ignore its error on a missing file. *)
Definition os_Chmod (p : string) (mode : Z) : M unit :=
  fun s =>
    match fs s !! p with
    | Some f =>
        Ret tt {| fs := <[p := {| content := content f; perm := mode |}]> (fs s);
                  trace := trace s |}
    | None => Ret tt s
    end.

(** [os.Remove]: the file is removed, unless the world refuses the
    removal or there is no such file; the value is the error, if any. *)
Definition os_Remove (w : World) (p : string) : M (option string) :=
  fun s =>
    match remove_err w p with
    | Some msg => Ret (Some msg) s
    | None =>
        match fs s !! p with
        | Some _ => Ret None {| fs := delete p (fs s); trace := trace s |}
        | None => Ret (Some ("remove " +:+ p +:+ ": no such file or directory")) s
        end
    end.

(** What [cmd.Run] (or [cmd.Wait]) reports. *)
Inductive RunStatus :=
| StartFailed (cause : string)
| Exited (code : Z).

Record RunResult := {
  r_status : RunStatus;
  r_elapsed : Z;
  r_stdout : string;
  r_stderr : string }.

(** [cmd.Run] without any deadline: it returns when the process has
    exited, and never when the process runs on. *)
Definition cmd_Run (w : World) (c : Cmd) : M RunResult :=
  fun s =>
    let p := spawn w c (fs s) in
    match p_start_err p with
    | Some msg =>
        Ret {| r_status := StartFailed msg; r_elapsed := 0;
               r_stdout := EmptyString; r_stderr := EmptyString |}
            {| fs := fs s; trace := trace s ++ [EvLaunchFailed c] |}
    | None =>
        let s' := {| fs := p_files p (fs s);
                     trace := trace s ++ [EvLaunch c (p_pid p)] |} in
        match p_end p with
        | Runs => Hang s'
        | Exits after code =>
            Ret {| r_status := Exited code; r_elapsed := after;
                   r_stdout := p_stdout p; r_stderr := p_stderr p |} s'
        end
    end.

(** The [select] between "the process is done" and "the deadline has
    passed": the process wins when it exits before the deadline; an exit
    at the very moment of the deadline, which Go decides at random, counts
    for the deadline. *)
Inductive Race :=
| Finished (code : Z) (elapsed : Z)
| DeadlineHit.

Definition race (p : Proc) (deadline : Z) : Race :=
  match p_end p with
  | Exits after code => if after <? deadline then Finished code after else DeadlineHit
  | Runs => DeadlineHit
  end.

(** Go's [int64] product [time.Duration(t) * time.Second]. *)
Definition wrap64 (z : Z) : Z := (z + 2 ^ 63) mod 2 ^ 64 - 2 ^ 63.
Definition Second : Z := 1000000000.
Definition seconds (t : Z) : Z := wrap64 (t * Second).

(** ** [compiler.go] *)

Record CompilerConfig := {
  Command : string;
  Args : list string;
  OutputFlag : string;
  ErrorCodes : gmap Z string;
  NeedsCompiled : bool }.

Record Compiler := {
  c_workDir : string;
  configs : gmap string CompilerConfig }.

Record CompileResult := {
  cr_Success : bool;
  cr_OutputFile : string;
  cr_Error : string;
  cr_CompileTime : Z }.

Definition default_configs : gmap string CompilerConfig :=
  <[".sh" := {| Command := "bash"; Args := ["-n"]; OutputFlag := EmptyString;
                ErrorCodes := {[1 := "Синтаксическая ошибка Bash"]};
                NeedsCompiled := false |}]>
  (<[".cpp" := {| Command := "g++"; Args := ["-Wall"; "-O2"; "-std=c++17"];
                  OutputFlag := "-o";
                  ErrorCodes := {[1 := "Ошибка компиляции C++"]};
                  NeedsCompiled := true |}]>
  (<[".c" := {| Command := "gcc"; Args := ["-Wall"; "-O2"]; OutputFlag := "-o";
                ErrorCodes := {[1 := "Ошибка компиляции C"]};
                NeedsCompiled := true |}]>
  (<[".go" := {| Command := "go"; Args := ["build"]; OutputFlag := "-o";
                 ErrorCodes := {[1 := "Ошибка компиляции Go"]};
                 NeedsCompiled := true |}]>
  (<[".js" := {| Command := "node"; Args := ["--check"]; OutputFlag := EmptyString;
                 ErrorCodes := {[1 := "Синтаксическая ошибка JavaScript"]};
                 NeedsCompiled := false |}]>
  (<[".py" := {| Command := "python3"; Args := ["-m"; "py_compile"];
                 OutputFlag := EmptyString;
                 ErrorCodes := {[1 := "Синтаксическая ошибка Python"]};
                 NeedsCompiled := false |}]> ∅))))).

Definition NewCompiler (workDir : string) : Compiler :=
  {| c_workDir := workDir; configs := default_configs |}.

Definition str_eqb (a b : string) : bool := bool_decide (a = b).

(** The output file [Compile] names: the source path without its
    (lower-cased) extension, plus ".out" for C and C++. *)
Definition compile_output (sourcePath ext : string) : string :=
  let outputFile := TrimSuffix sourcePath ext in
  if (str_eqb ext ".c" || str_eqb ext ".cpp")%bool
  then outputFile +:+ ".out" else outputFile.

Definition compile_cmd (c : Compiler) (config : CompilerConfig)
    (sourcePath outputFile : string) : Cmd :=
  let args :=
    if NeedsCompiled config then
      (if str_eqb (OutputFlag config) EmptyString then Args config
       else Args config ++ [OutputFlag config; outputFile]) ++ [sourcePath]
    else Args config ++ [sourcePath] in
  {| cmd_path := Command config; cmd_args := args;
     cmd_dir := c_workDir c; cmd_setpgid := false |}.

Definition compile_failed (msg : string) (t : Z) : CompileResult :=
  {| cr_Success := false; cr_OutputFile := EmptyString;
     cr_Error := msg; cr_CompileTime := t |}.

Definition Compile (w : World) (c : Compiler) (sourcePath : string)
  : M (Result error CompileResult) :=
  let ext := ToLower (Ext sourcePath) in
  match configs c !! ext with
  | None => ret (Err (ErrUnsupportedFileType ext))
  | Some config =>
      let outputFile := compile_output sourcePath ext in
      let* r := cmd_Run w (compile_cmd c config sourcePath outputFile) in
      let compileTime := r_elapsed r in
      match r_status r with
      | StartFailed cause =>
          ret (Ok (compile_failed ("ошибка запуска компилятора: " +:+ cause) compileTime))
      | Exited code =>
          if negb (code =? 0) then
            let errorMsg :=
              match ErrorCodes config !! code with
              | Some customMsg => customMsg +:+ ": " +:+ r_stderr r
              | None => r_stderr r
              end in
            ret (Ok (compile_failed errorMsg compileTime))
          else if NeedsCompiled config then
            let* present := Stat outputFile in
            if negb present then
              ret (Ok (compile_failed "компиляция не создала выходной файл" compileTime))
            else
              do* os_Chmod outputFile perm_0755 in
              ret (Ok {| cr_Success := true; cr_OutputFile := outputFile;
                         cr_Error := EmptyString; cr_CompileTime := compileTime |})
          else
            ret (Ok {| cr_Success := true; cr_OutputFile := outputFile;
                       cr_Error := EmptyString; cr_CompileTime := compileTime |})
      end
  end.

(** [CheckSyntax]: the syntax-only command of the profile, run without a
    deadline and without a working directory of its own. *)
Definition CheckSyntax (w : World) (c : Compiler) (sourcePath : string)
  : M (Result error (bool * string)) :=
  let ext := ToLower (Ext sourcePath) in
  match configs c !! ext with
  | None => ret (Err (ErrUnsupportedFileType ext))
  | Some config =>
      let cmd :=
        if NeedsCompiled config then
          if str_eqb ext ".go" then
            {| cmd_path := "go"; cmd_args := ["vet"; sourcePath];
               cmd_dir := EmptyString; cmd_setpgid := false |}
          else if (str_eqb ext ".c" || str_eqb ext ".cpp")%bool then
            {| cmd_path := Command config; cmd_args := ["-fsyntax-only"; sourcePath];
               cmd_dir := EmptyString; cmd_setpgid := false |}
          else
            {| cmd_path := Command config;
               cmd_args := Args config ++ ["-fsyntax-only"; sourcePath];
               cmd_dir := EmptyString; cmd_setpgid := false |}
        else
          {| cmd_path := Command config; cmd_args := Args config ++ [sourcePath];
             cmd_dir := EmptyString; cmd_setpgid := false |} in
      let* r := cmd_Run w cmd in
      match r_status r with
      | Exited 0 => ret (Ok (true, EmptyString))
      | _ => ret (Ok (false, r_stderr r))
      end
  end.

(** ** [executor.go] *)

Definition TIMEOUT_SECONDS : Z := 30.
Definition MAX_OUTPUT_SIZE : Z := 1024 * 1024.
Definition WORK_DIR : string := "/tmp/smollm-sandbox".

Record Executor := {
  workDir : string;
  maxOutputSize : Z;
  timeouts : gmap string Z;
  compiler : Compiler }.

Record ExecuteResult := {
  Success : bool;
  Output : string;
  Error : string;
  ExitCode : Z;
  ExecuteTime : Z;
  CompileTime : Z;
  Compiled : bool;
  Language : string }.

Definition executor_timeouts : gmap string Z :=
  <[".sh" := TIMEOUT_SECONDS]>
  (<[".cpp" := TIMEOUT_SECONDS * 2]>
  (<[".c" := TIMEOUT_SECONDS * 2]>
  (<[".go" := TIMEOUT_SECONDS * 2]>
  (<[".js" := TIMEOUT_SECONDS]>
  (<[".py" := TIMEOUT_SECONDS]> ∅))))).

Definition NewExecutor (dir : string) : Executor :=
  {| workDir := dir; maxOutputSize := MAX_OUTPUT_SIZE;
     timeouts := executor_timeouts; compiler := NewCompiler dir |}.

(** [copyFile]: open the source, create (truncate) the destination, copy
    what the source holds at that moment, make the destination executable. *)
Definition copyFile (w : World) (src dst : string) : M (Result string unit) :=
  let* present := Stat src in
  if negb present then ret (Err ("open " +:+ src +:+ ": no such file or directory"))
  else
    let* created := os_Create w dst in
    match created with
    | Err cause => ret (Err cause)
    | Ok _ =>
        let* files := get_fs in
        let data := match files !! src with
                    | Some f => content f
                    | None => EmptyString
                    end in
        let mode := match files !! dst with
                    | Some f => perm f
                    | None => perm_0666
                    end in
        do* put_fs (<[dst := {| content := data; perm := mode |}]> files) in
        do* os_Chmod dst perm_0755 in
        ret (Ok tt)
    end.

(** The extensions [ExecuteFile] sends through the compiler. *)
Definition needs_compile (ext : string) : bool :=
  (str_eqb ext ".c" || str_eqb ext ".cpp" || str_eqb ext ".go")%bool.

(** The [switch ext] that builds the run command. *)
Definition run_command (ext executablePath : string) : option (string * list string) :=
  if str_eqb ext ".py" then Some ("python3"%string, [executablePath])
  else if str_eqb ext ".js" then Some ("node"%string, [executablePath])
  else if str_eqb ext ".sh" then Some ("bash"%string, [executablePath])
  else if (str_eqb ext ".c" || str_eqb ext ".cpp" || str_eqb ext ".go")%bool
       then Some (executablePath, [])
  else None.

Definition timeout_of (e : Executor) (ext : string) : Z :=
  match timeouts e !! ext with
  | Some t => t
  | None => TIMEOUT_SECONDS
  end.

(** The value of [executeErr] once the output size has been checked. *)
Definition execute_error (e : Executor) (r : Race) (timeout : Z) (stdout : string)
  : option error :=
  if Len stdout >? maxOutputSize e then Some (ErrOutputExceeded (maxOutputSize e))
  else match r with
       | DeadlineHit => Some (ErrRunTimeout timeout)
       | Finished code _ => if code =? 0 then None else Some (ErrExit code)
       end.

Definition exit_code_of (executeErr : option error) : Z :=
  match executeErr with
  | Some (ErrExit code) => code
  | _ => 0
  end.

(** The part of [ExecuteFile] after the optional compile step: build the
    command, start it in its own process group, wait for its end or for
    the deadline, and form the result. The duration measured on the
    deadline path is taken to be the deadline. Calls of the logger are
    left out. *)
Definition run_phase (w : World) (e : Executor) (ext executablePath : string)
    (compileResult : option CompileResult) : M (Result error ExecuteResult) :=
  let timeout := timeout_of e ext in
  match run_command ext executablePath with
  | None => ret (Err (ErrUnsupportedFileType ext))
  | Some (prog, args) =>
      let cmd := {| cmd_path := prog; cmd_args := args;
                    cmd_dir := workDir e; cmd_setpgid := true |} in
      let* files := get_fs in
      let p := spawn w cmd files in
      match p_start_err p with
      | Some cause =>
          do* emit (EvLaunchFailed cmd) in
          ret (Err (ErrStartProcess cause))
      | None =>
          do* emit (EvLaunch cmd (p_pid p)) in
          do* put_fs (p_files p files) in
          let deadline := seconds timeout in
          let r := race p deadline in
          do* match r with
              | DeadlineHit => emit (EvKill (Z.neg (p_pid p)) SIGKILL)
              | Finished _ _ => ret tt
              end in
          let executeTime := match r with
                             | DeadlineHit => deadline
                             | Finished _ elapsed => elapsed
                             end in
          let executeErr := execute_error e r timeout (p_stdout p) in
          ret (Ok {| Success := bool_decide (executeErr = None);
                     Output := p_stdout p;
                     Error := p_stderr p;
                     ExitCode := exit_code_of executeErr;
                     ExecuteTime := executeTime;
                     CompileTime := match compileResult with
                                    | Some cr => cr_CompileTime cr
                                    | None => 0
                                    end;
                     Compiled := bool_decide (is_Some compileResult);
                     Language := ext |})
      end
  end.

Definition ExecuteFile (w : World) (e : Executor) (filePath : string)
  : M (Result error ExecuteResult) :=
  let* present := Stat filePath in
  if negb present then ret (Err (ErrFileNotExist filePath))
  else
    let ext := ToLower (Ext filePath) in
    let baseName := Base filePath in
    let tempFile := Join2 (workDir e) baseName in
    let* copied := copyFile w filePath tempFile in
    match copied with
    | Err cause => ret (Err (ErrCopy cause))
    | Ok _ =>
        if needs_compile ext then
          let* compiled := Compile w (compiler e) tempFile in
          match compiled with
          | Err cause => ret (Err (ErrCompile cause))
          | Ok compileResult =>
              if negb (cr_Success compileResult) then
                ret (Ok {| Success := false;
                           Output := EmptyString;
                           Error := cr_Error compileResult;
                           ExitCode := 0;
                           ExecuteTime := 0;
                           CompileTime := cr_CompileTime compileResult;
                           Compiled := true;
                           Language := ext |})
              else
                run_phase w e ext (cr_OutputFile compileResult) (Some compileResult)
          end
        else run_phase w e ext tempFile None
    end.

(** The [switch] of [ExecuteCode] on the lower-cased language name. *)
Definition ext_of_language (language : string) : option string :=
  let l := ToLower language in
  if str_eqb l "python" then Some ".py"%string
  else if (str_eqb l "javascript" || str_eqb l "js")%bool then Some ".js"%string
  else if (str_eqb l "go" || str_eqb l "golang")%bool then Some ".go"%string
  else if str_eqb l "c" then Some ".c"%string
  else if (str_eqb l "cpp" || str_eqb l "c++")%bool then Some ".cpp"%string
  else if (str_eqb l "bash" || str_eqb l "sh")%bool then Some ".sh"%string
  else None.

(** The name of the temporary source: "tmp_", the clock in nanoseconds,
    the extension. *)
Definition temp_name (timestamp : Z) (ext : string) : string :=
  "tmp_" +:+ fmt_d timestamp +:+ ext.

Definition ExecuteCode (w : World) (e : Executor) (code language : string)
  : M (Result error ExecuteResult) :=
  match ext_of_language language with
  | None => ret (Err (ErrUnsupportedLanguage language))
  | Some ext =>
      let fileName := temp_name (unix_nano w) ext in
      let filePath := Join2 (workDir e) fileName in
      let* written := os_WriteFile w filePath code perm_0755 in
      match written with
      | Err cause => ret (Err (ErrWriteTemp cause))
      | Ok _ =>
          let* result := ExecuteFile w e filePath in
          (* the error of [os.Remove] is discarded *)
          do* os_Remove w filePath in
          ret result
      end
  end.

(** ** [environment.go] *)

Record Environment := {
  env_workDir : string;
  env_timeouts : gmap string Z;
  executor : Executor }.

Definition environment_timeouts : gmap string Z :=
  <[".cpp" := TIMEOUT_SECONDS * 2]>
  (<[".c" := TIMEOUT_SECONDS * 2]>
  (<[".go" := TIMEOUT_SECONDS * 2]>
  (<[".js" := TIMEOUT_SECONDS]>
  (<[".py" := TIMEOUT_SECONDS]> ∅)))).

Definition NewEnvironment : Environment :=
  {| env_workDir := WORK_DIR; env_timeouts := environment_timeouts;
     executor := NewExecutor WORK_DIR |}.

Definition LF : string := String (ascii_of_nat 10) EmptyString.

(** The failure part of the reports of [Execute] and [ExecuteCode]. The
    counter of executions kept by the logger is left out. *)
Definition failure_report (result : ExecuteResult) : string :=
  let output := "Ошибка выполнения (код " +:+ fmt_d (ExitCode result) +:+ "):" +:+ LF in
  let output := if str_eqb (Error result) EmptyString then output
                else output +:+ Error result +:+ LF in
  if str_eqb (Output result) EmptyString then output
  else output +:+ LF +:+ "Вывод программы:" +:+ LF +:+ Output result.

Definition Execute (w : World) (env : Environment) (filename : string)
  : M (Result error string) :=
  let* r := ExecuteFile w (executor env) filename in
  match r with
  | Err cause => ret (Err cause)
  | Ok result =>
      if Success result then
        ret (Ok ("Выполнение успешно завершено за "
                 +:+ show_duration w (ExecuteTime result) +:+ LF +:+ LF
                 +:+ Output result))
      else ret (Ok (failure_report result))
  end.

Definition Environment_ExecuteCode (w : World) (env : Environment)
    (code language : string) : M (Result error string) :=
  let* r := ExecuteCode w (executor env) code language in
  match r with
  | Err cause => ret (Err cause)
  | Ok result =>
      if Success result then
        let output := "Выполнение успешно завершено за "
                      +:+ show_duration w (ExecuteTime result) +:+ LF +:+ LF in
        let output := if Compiled result
                      then output +:+ "Время компиляции: "
                           +:+ show_duration w (CompileTime result) +:+ LF
                      else output in
        ret (Ok (output +:+ Output result))
      else if Compiled result then
        ret (Ok ("Ошибка компиляции:" +:+ LF +:+ Error result))
      else ret (Ok (failure_report result))
  end.

Definition getCompilerConfig (fileExt : string) : Result error CompilerConfig :=
  let x := ToLower fileExt in
  if str_eqb x ".py" then
    Ok {| Command := "python3"; Args := ["-m"; "py_compile"]; OutputFlag := EmptyString;
          ErrorCodes := {[1 := "Синтаксическая ошибка Python"]};
          NeedsCompiled := false |}
  else if str_eqb x ".js" then
    Ok {| Command := "node"; Args := ["--check"]; OutputFlag := EmptyString;
          ErrorCodes := {[1 := "Синтаксическая ошибка JavaScript"]};
          NeedsCompiled := false |}
  else if str_eqb x ".go" then
    Ok {| Command := "go"; Args := ["build"]; OutputFlag := "-o";
          ErrorCodes := {[1 := "Ошибка компиляции Go"]};
          NeedsCompiled := true |}
  else if str_eqb x ".c" then
    Ok {| Command := "gcc"; Args := []; OutputFlag := "-o";
          ErrorCodes := {[1 := "Ошибка компиляции C"]};
          NeedsCompiled := true |}
  else if str_eqb x ".cpp" then
    Ok {| Command := "g++"; Args := []; OutputFlag := "-o";
          ErrorCodes := {[1 := "Ошибка компиляции C++"]};
          NeedsCompiled := true |}
  else if str_eqb x ".sh" then
    Ok {| Command := "bash"; Args := ["-n"]; OutputFlag := EmptyString;
          ErrorCodes := {[1 := "Синтаксическая ошибка Bash"]};
          NeedsCompiled := false |}
  else Err (ErrUnsupportedFileType fileExt).

Definition env_timeout_of (env : Environment) (ext : string) : Z :=
  match env_timeouts env !! ext with
  | Some t => t
  | None => TIMEOUT_SECONDS
  end.

(** [Environment.compile]: the compiler runs in a goroutine and the caller
    waits for it or for [time.After(timeout)]; on the deadline the compiler
    process (not its group) is killed. *)
Definition Environment_compile (w : World) (env : Environment) (filename : string)
    (config : CompilerConfig) : M (Result error string) :=
  let outputFile := TrimSuffix filename (Ext filename) in
  let outputFile := if (HasSuffix filename ".c" || HasSuffix filename ".cpp")%bool
                    then outputFile +:+ ".out" else outputFile in
  let args := (if str_eqb (OutputFlag config) EmptyString then Args config
               else Args config ++ [OutputFlag config; outputFile]) ++ [filename] in
  let cmd := {| cmd_path := Command config; cmd_args := args;
                cmd_dir := env_workDir env; cmd_setpgid := false |} in
  let timeout := env_timeout_of env (Ext filename) in
  let* files := get_fs in
  let p := spawn w cmd files in
  match p_start_err p with
  | Some cause =>
      do* emit (EvLaunchFailed cmd) in
      ret (Err (ErrCompilerStart cause))
  | None =>
      do* emit (EvLaunch cmd (p_pid p)) in
      do* put_fs (p_files p files) in
      match race p (seconds timeout) with
      | Finished code _ =>
          if code =? 0 then ret (Ok outputFile)
          else match ErrorCodes config !! code with
               | Some errorMsg => ret (Err (ErrCompileKnown errorMsg code (p_stderr p)))
               | None => ret (Err (ErrCompileExit code (p_stderr p)))
               end
      | DeadlineHit =>
          do* emit (EvKill (Z.pos (p_pid p)) SIGKILL) in
          ret (Err (ErrCompileTimeout timeout))
      end
  end.

Record ExecutionResult := {
  x_Output : string;
  x_Error : string;
  x_ExitCode : Z;
  x_ExecuteTime : Z }.

Definition runFile_command (ext filename : string) (config : CompilerConfig)
  : option (string * list string) :=
  if str_eqb ext ".py" then Some ("python3"%string, [filename])
  else if str_eqb ext ".js" then Some ("node"%string, [filename])
  else if str_eqb ext ".sh" then Some ("bash"%string, [filename])
  else if NeedsCompiled config then Some (filename, [])
  else None.

(** [Environment.runFile]: on the deadline the process group is killed and
    an error is returned; output above [MAX_OUTPUT_SIZE] is an error too. *)
Definition runFile (w : World) (env : Environment) (filename : string)
    (config : CompilerConfig) : M (Result error ExecutionResult) :=
  let ext := Ext filename in
  match runFile_command ext filename config with
  | None => ret (Err (ErrUnsupportedFileType ext))
  | Some (prog, args) =>
      let cmd := {| cmd_path := prog; cmd_args := args;
                    cmd_dir := env_workDir env; cmd_setpgid := true |} in
      let timeout := env_timeout_of env ext in
      let* files := get_fs in
      let p := spawn w cmd files in
      match p_start_err p with
      | Some _ =>
          do* emit (EvLaunchFailed cmd) in
          ret (Ok {| x_Output := EmptyString; x_Error := EmptyString;
                     x_ExitCode := 0; x_ExecuteTime := 0 |})
      | None =>
          do* emit (EvLaunch cmd (p_pid p)) in
          do* put_fs (p_files p files) in
          match race p (seconds timeout) with
          | DeadlineHit =>
              do* emit (EvKill (Z.neg (p_pid p)) SIGKILL) in
              ret (Err (ErrRunTimeout timeout))
          | Finished code elapsed =>
              if Len (p_stdout p) >? MAX_OUTPUT_SIZE
              then ret (Err (ErrOutputExceeded MAX_OUTPUT_SIZE))
              else ret (Ok {| x_Output := p_stdout p; x_Error := p_stderr p;
                              x_ExitCode := code; x_ExecuteTime := elapsed |})
          end
      end
  end.

Definition GetSupportedLanguages : list string :=
  ["python"; "javascript"; "go"; "c"; "c++"; "bash"]%string.

Definition supportedExts : gmap string bool :=
  list_to_map (map (fun x => (x, true))
    [".py"; ".js"; ".go"; ".c"; ".cpp"; ".sh"; ".txt"; ".md"; ".json"; ".csv"]%string).

Definition suspiciousPatterns : list string :=
  ["system("; "exec("; "fork("; "subprocess";
   "socket"; "urllib"; "requests"; "http";
   "child_process"; "spawn"; "shellexec";
   "wget"; "curl"; "rm -rf"; "sudo"]%string.

(** [CheckFileSecurity]: the file is looked up twice, measured, its
    extension checked and its content read; suspicious patterns are
    logged, never refused. *)
Definition CheckFileSecurity (filename : string) : M (option error) :=
  let* present := Stat filename in
  if negb present then ret (Some (ErrFileNotExist filename))
  else
    let* fileInfo := os_Stat_size filename in
    match fileInfo with
    | Err cause => ret (Some (ErrOS cause))
    | Ok size =>
        let maxSize := 10 * 1024 * 1024 in
        if size >? maxSize
        then ret (Some (ErrFileTooLarge size maxSize))
        else
          let ext := ToLower (Ext filename) in
          if negb (default false (supportedExts !! ext))
          then ret (Some (ErrUnsupportedFileType ext))
          else
            let* data := os_ReadFile filename in
            match data with
            | Err cause => ret (Some (ErrOS cause))
            | Ok data =>
                let text := ToLower data in
                do* (fun s => Ret tt {| fs := fs s;
                       trace := trace s ++
                         map (EvWarn filename)
                             (List.filter (Contains text) suspiciousPatterns) |}) in
                ret None
            end
    end.

(** [SetResourceLimits] overwrites the time-out of every extension of the
    environment's table. *)
Definition SetResourceLimits (env : Environment) (cpuPercent memoryMB timeoutSeconds : Z)
  : Environment :=
  {| env_workDir := env_workDir env;
     env_timeouts := (fun _ => timeoutSeconds) <$> env_timeouts env;
     executor := executor env |}.

(** The name of the entry [p] of the directory [dir], if it is one. *)
Definition entry_of (dir p : string) : option string :=
  if HasPrefix p (dir +:+ "/") then
    let name := String.substring (String.length dir + 1)
                  (String.length p - (String.length dir + 1)) p in
    if (Contains name "/" || str_eqb name EmptyString)%bool then None else Some name
  else None.

(** The error of [os.ReadDir]: a directory under which the file system
    holds a file can be read; one that holds none can be read unless the
    world says it does not exist. *)
Definition ReadDir_err (w : World) (dir : string) (files : gmap string File)
  : option string :=
  if existsb (fun p => HasPrefix p (dir +:+ "/")) (map fst (map_to_list files))
  then None else missing_dir w dir.

(** [CleanupTempFiles]: the working directory is read, and every file of
    it whose name starts with "tmp_" is removed; the failures are
    collected (in the order of the map here, by name in [os.ReadDir]). *)
Definition CleanupTempFiles (w : World) (env : Environment) : M (option error) :=
  let* files := get_fs in
  match ReadDir_err w (env_workDir env) files with
  | Some cause => ret (Some (ErrReadDir cause))
  | None =>
      let victims :=
        List.filter (fun p => match entry_of (env_workDir env) p with
                              | Some name => HasPrefix name "tmp_"
                              | None => false
                              end)
                    (map fst (map_to_list files)) in
      let failed :=
        List.filter (fun p => bool_decide (is_Some (remove_err w p))) victims in
      let removed :=
        List.filter (fun p => negb (bool_decide (is_Some (remove_err w p)))) victims in
      do* put_fs (fold_right (fun p m => delete p m) files removed) in
      match failed with
      | [] => ret None
      | _ => ret (Some (ErrCleanup
               (map (fun p => "не удалось удалить " +:+ Base p +:+ ": "
                              +:+ default EmptyString (remove_err w p)) failed)))
      end
  end.

Definition GetWorkDir (env : Environment) : string := env_workDir env.

Definition GetTimeout (env : Environment) (fileExt : string) : Z :=
  env_timeout_of env fileExt.

(** ** Concrete worlds used by the examples and counterexamples *)

Definition script_of (c : Cmd) : string :=
  match cmd_args c with
  | x :: _ => x
  | [] => cmd_path c
  end.

Definition quiet_world (sp : Cmd -> gmap string File -> Proc) : World :=
  {| spawn := sp; unix_nano := 1700000000000000000;
     create_err := fun _ => None; remove_err := fun _ => None;
     missing_dir := fun _ => None;
     show_duration := fun z => fmt_d z +:+ "ns" |}.

(** An interpreter that prints the script it is given and exits with 0
    after one second. *)
Definition echo_proc (c : Cmd) (files : gmap string File) : Proc :=
  {| p_start_err := None; p_pid := 7%positive; p_end := Exits Second 0;
     p_stdout := match files !! script_of c with
                 | Some f => content f
                 | None => EmptyString
                 end;
     p_stderr := EmptyString; p_files := fun m => m |}.

Definition W_echo : World := quiet_world echo_proc.

(** A process that never exits and writes nothing. *)
Definition stuck_proc : Proc :=
  {| p_start_err := None; p_pid := 9%positive; p_end := Runs;
     p_stdout := EmptyString; p_stderr := EmptyString; p_files := fun m => m |}.

Definition W_stuck : World := quiet_world (fun _ _ => stuck_proc).

(** One byte more than [MAX_OUTPUT_SIZE]. *)
Definition big_output : string :=
  string_of_list_ascii (repeat "a"%char (N.to_nat 1048577)).

(** Processes that write [big_output]: one exits with 0 after a second,
    one exits with 1 after a second, one never exits. *)
Definition chatty_proc (ending : Termination) : Proc :=
  {| p_start_err := None; p_pid := 11%positive; p_end := ending;
     p_stdout := big_output; p_stderr := EmptyString; p_files := fun m => m |}.

Definition W_chatty (ending : Termination) : World :=
  quiet_world (fun _ _ => chatty_proc ending).

(** The argument that follows [flag] in a command line. *)
Fixpoint arg_after (flag : string) (args : list string) : option string :=
  match args with
  | a :: rest =>
      if str_eqb a flag then head rest else arg_after flag rest
  | [] => None
  end.

(** A compiler that writes the file named after "-o" and exits with 0
    after two seconds; the programs it builds print "hello". *)
Definition build_proc (c : Cmd) (files : gmap string File) : Proc :=
  if cmd_setpgid c then
    {| p_start_err := None; p_pid := 21%positive; p_end := Exits Second 0;
       p_stdout := "hello"; p_stderr := EmptyString; p_files := fun m => m |}
  else
    {| p_start_err := None; p_pid := 20%positive; p_end := Exits (2 * Second) 0;
       p_stdout := EmptyString; p_stderr := EmptyString;
       p_files := fun m =>
         match arg_after "-o" (cmd_args c) with
         | Some out => <[out := {| content := "ELF"; perm := 420 |}]> m
         | None => m
         end |}.

Definition W_build : World := quiet_world build_proc.

(** A compiler that rejects its input: exit code 1 and a diagnostic on
    stderr, after one second. *)
Definition reject_proc : Proc :=
  {| p_start_err := None; p_pid := 30%positive; p_end := Exits Second 1;
     p_stdout := EmptyString;
     p_stderr := "prog.c:1:1: error: expected declaration";
     p_files := fun m => m |}.

Definition W_reject : World := quiet_world (fun _ _ => reject_proc).

(** The world [w] with every removal refused. *)
Definition refusing_removals (w : World) : World :=
  {| spawn := spawn w; unix_nano := unix_nano w; create_err := create_err w;
     remove_err := fun _ => Some "operation not permitted"%string;
     missing_dir := missing_dir w;
     show_duration := show_duration w |}.

Definition W_locked : World := refusing_removals W_echo.

Definition empty_state : State := {| fs := ∅; trace := [] |}.

Definition one_file (path text : string) : State :=
  {| fs := {[path := {| content := text; perm := 420 |}]}; trace := [] |}.

(** The extensions with a run command in [ExecuteFile] and a profile in
    the compiler. *)
Definition supported_exts : list string :=
  [".py"; ".js"; ".sh"; ".c"; ".cpp"; ".go"]%string.

(** Two characters that differ at most in letter case. *)
Definition same_letter (a b : ascii) : Prop :=
  a = b \/ (is_upper a = true /\ b = lower_ascii a)
        \/ (is_upper b = true /\ a = lower_ascii b).

(** Two strings that differ only in letter case. *)
Inductive same_letters : string -> string -> Prop :=
| same_nil : same_letters EmptyString EmptyString
| same_cons a b s t :
    same_letter a b -> same_letters s t -> same_letters (String a s) (String b t).

(** ** Definitions used in the statements *)

(** What [copyFile] leaves in the destination: the bytes of the source,
    unless source and destination are the same file, which the truncation
    by [os.Create] has emptied before anything is read. *)
Definition staged_file (files : gmap string File) (src dst : string) : File :=
  {| content := if bool_decide (src = dst) then EmptyString
                else match files !! src with
                     | Some f => content f
                     | None => EmptyString
                     end;
     perm := perm_0755 |}.

Definition staged (s : State) (src dst : string) : State :=
  {| fs := <[dst := staged_file (fs s) src dst]> (fs s); trace := trace s |}.

Definition compile_succeeded (outputFile : string) (t : Z) : CompileResult :=
  {| cr_Success := true; cr_OutputFile := outputFile;
     cr_Error := EmptyString; cr_CompileTime := t |}.

(** A Python job in the caller's directory, run by the executor the
    package builds, in a world where every process writes [big_output]. *)
Definition job : string := "/home/u/job.py".
Definition job_state : State := one_file job "while True: print('a')".
Definition staged_job : string := "/tmp/smollm-sandbox/job.py".
Definition python_job : Cmd :=
  {| cmd_path := "python3"; cmd_args := [staged_job];
     cmd_dir := WORK_DIR; cmd_setpgid := true |}.

Definition c_source : string := "/home/u/prog.c".
Definition c_state : State := one_file c_source "int main(void) { return 0; }".
Definition staged_c : string := "/tmp/smollm-sandbox/prog.c".
Definition gcc_of (c : Compiler) : Cmd :=
  {| cmd_path := "gcc";
     cmd_args := ["-Wall"; "-O2"; "-o"; "/tmp/smollm-sandbox/prog.out"; staged_c];
     cmd_dir := c_workDir c; cmd_setpgid := false |}.

Definition chars (s : string) : list ascii := list_ascii_of_string s.

(** Every compiler process (a command run without its own process group)
    that starts exits by itself. *)
Definition compilers_exit (w : World) : Prop :=
  forall c files,
    cmd_setpgid c = false ->
    p_start_err (spawn w c files) = None ->
    p_end (spawn w c files) <> Runs.

Definition gcc_config : CompilerConfig :=
  {| Command := "gcc"; Args := ["-Wall"; "-O2"]; OutputFlag := "-o";
     ErrorCodes := {[1 := "Ошибка компиляции C"]}; NeedsCompiled := true |}.

Definition staged_c_state : State := one_file staged_c "int main(void) { return 0; }".

(** The state an outcome ends in. *)
Definition state_of {A : Type} (o : Outcome A) : State :=
  match o with
  | Ret _ s => s
  | Hang s => s
  end.

(** The events of a compile step: none, or one launch (or failed launch)
    of a command that has no process group of its own. *)
Definition compile_events (evs : list Event) : Prop :=
  evs = []
  \/ exists c, cmd_setpgid c = false
               /\ (evs = [EvLaunchFailed c] \/ exists pid, evs = [EvLaunch c pid]).

(** The events of a run phase: none, or one launch (or failed launch) of a
    command with its own process group, possibly followed by SIGKILL to
    that group. *)
Definition run_events (evs : list Event) : Prop :=
  evs = []
  \/ exists c, cmd_setpgid c = true
               /\ (evs = [EvLaunchFailed c]
                   \/ exists pid, evs = [EvLaunch c pid]
                                  \/ evs = [EvLaunch c pid; EvKill (Z.neg pid) SIGKILL]).

(** A world in which no program can be started. *)
Definition absent_proc : Proc :=
  {| p_start_err := Some "executable file not found in $PATH"%string;
     p_pid := 1%positive; p_end := Runs;
     p_stdout := EmptyString; p_stderr := EmptyString; p_files := fun m => m |}.

Definition W_absent : World := quiet_world (fun _ _ => absent_proc).

(** The extensions with an entry in the time-out table of a new
    environment (".sh" has none). *)
Definition environment_exts : list string :=
  [".py"; ".js"; ".go"; ".c"; ".cpp"]%string.

(** The extensions [CheckFileSecurity] lets through and [ExecuteFile]
    cannot run. *)
Definition data_exts : list string :=
  [".txt"; ".md"; ".json"; ".csv"]%string.

(** The files [CleanupTempFiles] selects: the entries of the working
    directory whose name starts with "tmp_". *)
Definition is_temp_entry (dir p : string) : bool :=
  match entry_of dir p with
  | Some name => HasPrefix name "tmp_"
  | None => false
  end.

(** A world whose compiler is the one of [W_build] and whose programs
    fail: exit status 3 after one second, a line on stdout and a
    diagnostic on stderr. *)
Definition crash_proc (c : Cmd) (files : gmap string File) : Proc :=
  if cmd_setpgid c then
    {| p_start_err := None; p_pid := 41%positive; p_end := Exits Second 3;
       p_stdout := "started"; p_stderr := "assertion failed";
       p_files := fun m => m |}
  else build_proc c files.

Definition W_crash : World := quiet_world crash_proc.

(** ** The command line of the CLI *)

(** [strings.Split] for a separator of one byte: the pieces between the
    separators, one piece (the string itself) when there is none. *)
Fixpoint Split (s : string) (sep : ascii) : list string :=
  match s with
  | EmptyString => [EmptyString]
  | String c rest =>
      if Ascii.eqb c sep then EmptyString :: Split rest sep
      else match Split rest sep with
           | piece :: pieces => String c piece :: pieces
           | [] => [String c EmptyString]
           end
  end.

(** The session operations of the model, which [handleCommand] calls for
    "save" and "load": each returns the text of its error, if any. *)
Record Model := {
  SaveSession : string -> M (option string);
  LoadSession : string -> M (option string) }.

Definition help_text : string :=
  "Доступные команды:" +:+ LF
  +:+ "  /save [session_name] - Сохранить текущую сессию" +:+ LF
  +:+ "  /load [session_name] - Загрузить сохраненную сессию" +:+ LF
  +:+ "  /run [filename] - Запустить файл в песочнице" +:+ LF
  +:+ "  /code [language] [code] - Выполнить строку кода" +:+ LF
  +:+ "  /help - Показать эту справку" +:+ LF
  +:+ "  exit - Выйти из программы" +:+ LF.

(** [handleCommand] of the command-line client. The value is what the call
    writes to the standard output, or [None] when it panics (the slice
    [cmd[1:]] of an empty string). Calls of the logger are left out. *)
Definition handleCommand (w : World) (modelInstance : Model) (sandboxEnv : Environment)
    (cmd : string) : M (option string) :=
  match cmd with
  | EmptyString => ret None
  | String _ rest =>
      match Split rest " " with
      | [] => ret None
      | command :: args =>
          if str_eqb command "save" then
            match args with
            | [] => ret (Some ("Необходимо указать имя сессии: /save session_name" +:+ LF))
            | name :: _ =>
                let* failed := SaveSession modelInstance name in
                match failed with
                | Some err => ret (Some ("Ошибка сохранения сессии: " +:+ err +:+ LF))
                | None => ret (Some ("Сессия сохранена как: " +:+ name +:+ LF))
                end
            end
          else if str_eqb command "load" then
            match args with
            | [] => ret (Some ("Необходимо указать имя сессии: /load session_name" +:+ LF))
            | name :: _ =>
                let* failed := LoadSession modelInstance name in
                match failed with
                | Some err => ret (Some ("Ошибка загрузки сессии: " +:+ err +:+ LF))
                | None => ret (Some ("Сессия '" +:+ name +:+ "' успешно загружена" +:+ LF))
                end
            end
          else if str_eqb command "run" then
            match args with
            | [] => ret (Some ("Необходимо указать исполняемый файл: /run filename" +:+ LF))
            | filename :: _ =>
                let* r := Execute w sandboxEnv filename in
                match r with
                | Err err => ret (Some ("Ошибка выполнения: " +:+ error_text err +:+ LF))
                | Ok output => ret (Some (output +:+ LF))
                end
            end
          else if str_eqb command "code" then
            match args with
            | language :: (_ :: _) as text =>
                let code := Join text " " in
                let* r := Environment_ExecuteCode w sandboxEnv code language in
                match r with
                | Err err => ret (Some ("Ошибка выполнения кода: " +:+ error_text err +:+ LF))
                | Ok output => ret (Some (output +:+ LF))
                end
            | _ =>
                ret (Some ("Необходимо указать язык и код: /code [python|js|go] "
                           +:+ String (ascii_of_nat 34) EmptyString
                           +:+ "код для выполнения"
                           +:+ String (ascii_of_nat 34) EmptyString +:+ LF))
            end
          else if str_eqb command "help" then ret (Some help_text)
          else ret (Some ("Неизвестная команда: " +:+ command +:+ LF
                          +:+ "Введите /help для списка команд" +:+ LF))
      end
  end.

(** What [handleCommand] prints after a call of the sandbox. *)
Definition printed (prefix : string) (r : Result error string) : option string :=
  match r with
  | Err err => Some (prefix +:+ error_text err +:+ LF)
  | Ok output => Some (output +:+ LF)
  end.

Definition silent_model : Model :=
  {| SaveSession := fun _ => ret None; LoadSession := fun _ => ret None |}.

(** The profile [getCompilerConfig] has for Python. *)
Definition python_config : CompilerConfig :=
  {| Command := "python3"; Args := ["-m"; "py_compile"]; OutputFlag := EmptyString;
     ErrorCodes := {[1 := "Синтаксическая ошибка Python"]}; NeedsCompiled := false |}.

(** The processes of the world never create, change or delete a file. *)
Definition leaves_files_alone (w : World) : Prop :=
  forall c files m, p_files (spawn w c files) m = m.

(** The event a launch of the command [c] on the files [files] adds to
    the trace. *)
Definition launch_event (w : World) (c : Cmd) (files : gmap string File) : Event :=
  match p_start_err (spawn w c files) with
  | Some _ => EvLaunchFailed c
  | None => EvLaunch c (p_pid (spawn w c files))
  end.

(** What [ExecuteFile] does once the file is staged as [tempFile], as a
    function of the extension key [ext]: for a compiled extension the
    compile step and, after a success, the run of the artifact; for every
    other extension the run of the staged file. *)
Definition staged_request (w : World) (e : Executor) (ext tempFile : string)
  : M (Result error ExecuteResult) :=
  if needs_compile ext then
    let* compiled := Compile w (compiler e) tempFile in
    match compiled with
    | Err cause => ret (Err (ErrCompile cause))
    | Ok compileResult =>
        if negb (cr_Success compileResult) then
          ret (Ok {| Success := false;
                     Output := EmptyString;
                     Error := cr_Error compileResult;
                     ExitCode := 0;
                     ExecuteTime := 0;
                     CompileTime := cr_CompileTime compileResult;
                     Compiled := true;
                     Language := ext |})
        else
          run_phase w e ext (cr_OutputFile compileResult) (Some compileResult)
    end
  else run_phase w e ext tempFile None.

(** * Properties *)

(** ** Strings *)

(** The path and string functions on sample inputs. *)
Example ext_py : Ext "/a/b.c/tmp_1.PY" = ".PY"%string. Proof. reflexivity. Qed.
Example ext_none : Ext "/a/b.c/tmp" = EmptyString. Proof. reflexivity. Qed.
Example base_ex : Base "/a/b.c/tmp_1.PY//" = "tmp_1.PY"%string. Proof. reflexivity. Qed.
Example clean_ex : Clean "/a//b/./c/../d/" = "/a/b/d"%string. Proof. reflexivity. Qed.
Example clean_ex2 : Clean "../../a/.." = "../.."%string. Proof. reflexivity. Qed.
Example clean_ex3 : Clean "/../a" = "/a"%string. Proof. reflexivity. Qed.
Example clean_ex4 : Clean EmptyString = "."%string. Proof. reflexivity. Qed.
Example join_ex : Join2 "/tmp/smollm-sandbox" "tmp_12.py" = "/tmp/smollm-sandbox/tmp_12.py"%string.
Proof. reflexivity. Qed.
Example trim_ex : TrimSuffix "/w/a.c" ".c" = "/w/a"%string. Proof. reflexivity. Qed.
Example trim_ex2 : TrimSuffix "/w/a.C" ".c" = "/w/a.C"%string. Proof. reflexivity. Qed.
Example lower_ex : ToLower ".CpP" = ".cpp"%string. Proof. reflexivity. Qed.
Example lower_kelvin :
  ToLower ("for" +:+ String (ascii_of_nat 226) (String (ascii_of_nat 132)
             (String (ascii_of_nat 170) "(")))
  = "fork("%string.
Proof. reflexivity. Qed.
Example fmt_d_ex : fmt_d 1048576 = "1048576"%string. Proof. reflexivity. Qed.
Example fmt_d_neg : fmt_d (-1) = "-1"%string. Proof. reflexivity. Qed.

Lemma append_cons (x : ascii) (a b : string) :
  String x a +:+ b = String x (a +:+ b).
Proof. reflexivity. Qed.

Lemma append_assoc (a b c : string) : (a +:+ b) +:+ c = a +:+ b +:+ c.
Proof.
  induction a as [|x a IH]; [reflexivity|].
  rewrite !append_cons. f_equal. exact IH.
Qed.

Lemma append_length (a b : string) :
  String.length (a +:+ b) = (String.length a + String.length b)%nat.
Proof.
  induction a as [|x a IH]; [reflexivity|].
  rewrite append_cons. simpl. f_equal. exact IH.
Qed.

Lemma string_of_list_length (l : list ascii) :
  String.length (string_of_list_ascii l) = List.length l.
Proof.
  induction l as [|x l IH]; simpl; [reflexivity|]. f_equal. exact IH.
Qed.

(** ** Letter case of extensions *)

Lemma lower_ascii_idem c : lower_ascii (lower_ascii c) = lower_ascii c.
Proof.
  destruct c as [[] [] [] [] [] [] [] []]; reflexivity.
Qed.

Lemma same_letter_lower a b : same_letter a b -> lower_ascii a = lower_ascii b.
Proof.
  intros [-> | [[_ ->] | [_ ->]]]; auto using lower_ascii_idem.
Qed.

(** A byte of a multi-byte sequence is no letter: letters that differ in
    case only are both different from it. *)
Lemma same_letter_high a b x :
  same_letter a b -> (128 <=? nat_of_ascii x)%nat = true ->
  Ascii.eqb a x = Ascii.eqb b x.
Proof.
  intros H Hx.
  assert (Hup : forall c, is_upper c = true ->
                  Ascii.eqb c x = false /\ Ascii.eqb (lower_ascii c) x = false).
  { intros c Hc.
    assert (Hn : (nat_of_ascii c <= 90)%nat).
    { unfold is_upper in Hc. apply andb_prop in Hc as [_ H2].
      apply Nat.leb_le in H2. exact H2. }
    apply Nat.leb_le in Hx.
    split; apply Ascii.eqb_neq; intros <-.
    - lia.
    - unfold lower_ascii in Hx. rewrite Hc in Hx.
      rewrite nat_ascii_embedding in Hx by lia. lia. }
  destruct H as [-> | [[Hu ->] | [Hu ->]]]; [reflexivity| |].
  - destruct (Hup a Hu) as [-> ->]. reflexivity.
  - destruct (Hup b Hu) as [-> ->]. reflexivity.
Qed.

Lemma same_letters_ToLower s t : same_letters s t -> ToLower s = ToLower t.
Proof.
  remember (String.length s) as n eqn:Hn.
  revert s t Hn. induction n as [n IH] using lt_wf_ind.
  intros s t Hn H.
  destruct H as [|a b s1 t1 Hab H1]; [reflexivity|].
  assert (IH1 : ToLower s1 = ToLower t1).
  { apply (IH (String.length s1)); [simpl in Hn; lia | reflexivity | exact H1]. }
  destruct H1 as [|a2 b2 s2 t2 Hab2 H2].
  { simpl. rewrite (same_letter_lower a b Hab). reflexivity. }
  assert (IH2 : ToLower s2 = ToLower t2).
  { apply (IH (String.length s2)); [simpl in Hn; lia | reflexivity | exact H2]. }
  assert (Hd : is_dotted_I a a2 = is_dotted_I b b2).
  { unfold is_dotted_I.
    rewrite (same_letter_high a b (ascii_of_nat 196) Hab eq_refl).
    rewrite (same_letter_high a2 b2 (ascii_of_nat 176) Hab2 eq_refl). reflexivity. }
  change (ToLower (String a (String a2 s2)))
    with (if is_dotted_I a a2 then String "i" (ToLower s2)
          else match s2 with
               | String c s3 =>
                   if is_kelvin a a2 c then String "k" (ToLower s3)
                   else String (lower_ascii a) (ToLower (String a2 s2))
               | EmptyString => String (lower_ascii a) (ToLower (String a2 s2))
               end).
  change (ToLower (String b (String b2 t2)))
    with (if is_dotted_I b b2 then String "i" (ToLower t2)
          else match t2 with
               | String c t3 =>
                   if is_kelvin b b2 c then String "k" (ToLower t3)
                   else String (lower_ascii b) (ToLower (String b2 t2))
               | EmptyString => String (lower_ascii b) (ToLower (String b2 t2))
               end).
  rewrite Hd. destruct (is_dotted_I b b2); [rewrite IH2; reflexivity|].
  destruct H2 as [|a3 b3 s3 t3 Hab3 H3].
  { rewrite (same_letter_lower a b Hab), IH1. reflexivity. }
  assert (IH3 : ToLower s3 = ToLower t3).
  { apply (IH (String.length s3)); [simpl in Hn; lia | reflexivity | exact H3]. }
  assert (Hk : is_kelvin a a2 a3 = is_kelvin b b2 b3).
  { unfold is_kelvin.
    rewrite (same_letter_high a b (ascii_of_nat 226) Hab eq_refl).
    rewrite (same_letter_high a2 b2 (ascii_of_nat 132) Hab2 eq_refl).
    rewrite (same_letter_high a3 b3 (ascii_of_nat 170) Hab3 eq_refl). reflexivity. }
  rewrite Hk. destruct (is_kelvin b b2 b3); [rewrite IH3; reflexivity|].
  rewrite (same_letter_lower a b Hab), IH1. reflexivity.
Qed.

(** ** Staging a file *)

Ltac run_monad :=
  unfold bind, ret, get_fs, put_fs, emit, block, Stat, os_Create, os_WriteFile,
    os_Chmod, os_Remove; simpl.

Lemma copyFile_missing w src dst s :
  fs s !! src = None ->
  exists cause, copyFile w src dst s = Ret (Err cause) s.
Proof.
  intros H. unfold copyFile. run_monad. rewrite H.
  rewrite bool_decide_eq_false_2 by (intros [? ?]; discriminate).
  simpl. eauto.
Qed.

Lemma copyFile_refused w src dst s cause :
  is_Some (fs s !! src) -> create_err w dst = Some cause ->
  copyFile w src dst s = Ret (Err cause) s.
Proof.
  intros H Hc. unfold copyFile. run_monad.
  rewrite bool_decide_eq_true_2 by exact H. simpl. rewrite Hc. reflexivity.
Qed.

Lemma copyFile_done w src dst s :
  is_Some (fs s !! src) -> create_err w dst = None ->
  copyFile w src dst s = Ret (Ok tt) (staged s src dst).
Proof.
  intros H Hc. unfold copyFile. run_monad.
  rewrite bool_decide_eq_true_2 by exact H. simpl. rewrite Hc. simpl.
  rewrite !lookup_insert_eq. simpl.
  unfold staged, staged_file. f_equal. f_equal.
  rewrite !insert_insert_eq. f_equal. f_equal.
  case_bool_decide as Heq.
  - subst dst. rewrite lookup_insert_eq. reflexivity.
  - rewrite lookup_insert_ne by congruence. reflexivity.
Qed.

Lemma copyFile_trace w src dst s :
  match copyFile w src dst s with
  | Ret _ s' => trace s' = trace s
  | Hang _ => False
  end.
Proof.
  destruct (fs s !! src) as [f|] eqn:Hsrc.
  - destruct (create_err w dst) as [cause|] eqn:Hc.
    + rewrite (copyFile_refused w src dst s cause); eauto.
    + rewrite copyFile_done; eauto.
  - destruct (copyFile_missing w src dst s Hsrc) as [cause ->]. reflexivity.
Qed.

(** ** Unsupported extensions *)

Lemma unsupported_no_route ext x :
  (ext ∉ supported_exts) -> needs_compile ext = false /\ run_command ext x = None.
Proof.
  intros H. unfold needs_compile, run_command, str_eqb.
  repeat case_bool_decide; subst; simpl; try (split; reflexivity);
    exfalso; apply H; unfold supported_exts; set_solver.
Qed.

Lemma unsupported_no_config ext :
  (ext ∉ supported_exts) -> default_configs !! ext = None.
Proof.
  intros H. unfold default_configs.
  repeat (rewrite lookup_insert_ne;
          [| intros <-; apply H; unfold supported_exts; set_solver]).
  apply lookup_empty.
Qed.

(** C9. A request for a file whose (lower-cased) extension is not
    supported ends with an error and adds no event to the trace: neither
    a compiler nor a user process is launched. When the file exists and
    can be staged, the error is the unsupported-file-type one; [Compile]
    refuses such a path in the same way before it builds any command. *)
Theorem unsupported_extension_launches_nothing
    (w : World) (e : Executor) (filePath dir : string) (s : State) :
  (ToLower (Ext filePath) ∉ supported_exts) ->
  (exists err s',
      ExecuteFile w e filePath s = Ret (Err err) s'
      /\ trace s' = trace s
      /\ (is_Some (fs s !! filePath) ->
          create_err w (Join2 (workDir e) (Base filePath)) = None ->
          err = ErrUnsupportedFileType (ToLower (Ext filePath))))
  /\ Compile w (NewCompiler dir) filePath s
     = Ret (Err (ErrUnsupportedFileType (ToLower (Ext filePath)))) s.
Proof.
  intros Hext. split.
  - pose proof (unsupported_no_route _ (Join2 (workDir e) (Base filePath)) Hext)
      as [Hnc Hrc].
    unfold ExecuteFile. unfold bind at 1. unfold Stat at 1.
    destruct (fs s !! filePath) as [f|] eqn:Hsrc.
    + rewrite bool_decide_eq_true_2 by eauto. simpl.
      destruct (create_err w (Join2 (workDir e) (Base filePath))) as [cause|] eqn:Hc.
      * unfold bind. rewrite (copyFile_refused _ _ _ _ cause) by eauto.
        eexists _, _. split; [reflexivity|]. split; [reflexivity|].
        intros _ Hnone. discriminate.
      * unfold bind. rewrite copyFile_done by eauto.
        rewrite Hnc. unfold run_phase. rewrite Hrc.
        eexists _, _. split; [reflexivity|]. split; [reflexivity|]. reflexivity.
    + rewrite bool_decide_eq_false_2 by (intros [? ?]; discriminate). simpl.
      eexists _, _. split; [reflexivity|]. split; [reflexivity|].
      intros [? ?]; discriminate.
  - unfold Compile, NewCompiler. simpl.
    rewrite (unsupported_no_config _ Hext). reflexivity.
Qed.

Lemma unsupported_extension_launches_nothing_witness :
  (ToLower (Ext "/home/u/notes.xyz") ∉ supported_exts)
  /\ (exists s',
        ExecuteFile W_echo (NewExecutor WORK_DIR) "/home/u/notes.xyz"
          (one_file "/home/u/notes.xyz" "hello")
        = Ret (Err (ErrUnsupportedFileType ".xyz")) s'
        /\ trace s' = [])
  /\ Compile W_echo (NewCompiler WORK_DIR) "/home/u/notes.xyz"
       (one_file "/home/u/notes.xyz" "hello")
     = Ret (Err (ErrUnsupportedFileType ".xyz"))
           (one_file "/home/u/notes.xyz" "hello").
Proof.
  assert (H : ToLower (Ext "/home/u/notes.xyz") ∉ supported_exts).
  { vm_compute. intros H. repeat (apply elem_of_cons in H as [H|H]; [discriminate|]).
    by apply elem_of_nil in H. }
  split; [exact H|].
  destruct (unsupported_extension_launches_nothing W_echo (NewExecutor WORK_DIR)
              "/home/u/notes.xyz" WORK_DIR (one_file "/home/u/notes.xyz" "hello") H)
    as [(err & s' & HE & Ht & Herr) HC].
  split; [|exact HC].
  exists s'. split; [|exact Ht].
  rewrite HE. rewrite Herr; [reflexivity| |reflexivity].
  eexists. vm_compute. reflexivity.
Defined.

(** ** The run phase of [ExecuteFile] *)

Section RunPhase.
Variables (w : World) (e : Executor) (ext path : string).
Variables (cr : option CompileResult) (s : State).
Variables (prog : string) (args : list string).
Hypothesis Hroute : run_command ext path = Some (prog, args).

Let cmd : Cmd :=
  {| cmd_path := prog; cmd_args := args; cmd_dir := workDir e; cmd_setpgid := true |}.
Let p : Proc := spawn w cmd (fs s).
Let deadline : Z := seconds (timeout_of e ext).

Lemma run_phase_not_started cause :
  p_start_err p = Some cause ->
  run_phase w e ext path cr s
  = Ret (Err (ErrStartProcess cause))
        {| fs := fs s; trace := trace s ++ [EvLaunchFailed cmd] |}.
Proof.
  intros H. unfold run_phase. rewrite Hroute. run_monad.
  fold cmd. fold p. rewrite H. reflexivity.
Qed.

Hypothesis Hstart : p_start_err p = None.

Lemma run_phase_started :
  run_phase w e ext path cr s
  = Ret (Ok {| Success := bool_decide
                 (execute_error e (race p deadline) (timeout_of e ext) (p_stdout p) = None);
               Output := p_stdout p;
               Error := p_stderr p;
               ExitCode := exit_code_of
                 (execute_error e (race p deadline) (timeout_of e ext) (p_stdout p));
               ExecuteTime := match race p deadline with
                              | DeadlineHit => deadline
                              | Finished _ elapsed => elapsed
                              end;
               CompileTime := match cr with
                              | Some c => cr_CompileTime c
                              | None => 0
                              end;
               Compiled := bool_decide (is_Some cr);
               Language := ext |})
        {| fs := p_files p (fs s);
           trace := trace s ++ EvLaunch cmd (p_pid p) ::
                      match race p deadline with
                      | DeadlineHit => [EvKill (Z.neg (p_pid p)) SIGKILL]
                      | Finished _ _ => []
                      end |}.
Proof.
  unfold run_phase. rewrite Hroute. run_monad.
  fold cmd. fold p. rewrite Hstart. fold deadline.
  destruct (race p deadline); simpl; rewrite <- ?app_assoc; reflexivity.
Qed.

End RunPhase.

(** ** The compile step *)

Section Compiling.
Variables (w : World) (c : Compiler) (sourcePath : string) (s : State).
Variable config : CompilerConfig.
Hypothesis Hconfig : configs c !! ToLower (Ext sourcePath) = Some config.

Let outputFile : string := compile_output sourcePath (ToLower (Ext sourcePath)).
Let cc : Cmd := compile_cmd c config sourcePath outputFile.
Let p : Proc := spawn w cc (fs s).
Let launched : State :=
  {| fs := p_files p (fs s); trace := trace s ++ [EvLaunch cc (p_pid p)] |}.

Lemma Compile_not_started cause :
  p_start_err p = Some cause ->
  Compile w c sourcePath s
  = Ret (Ok (compile_failed ("ошибка запуска компилятора: " +:+ cause) 0))
        {| fs := fs s; trace := trace s ++ [EvLaunchFailed cc] |}.
Proof.
  intros H. unfold Compile. rewrite Hconfig. unfold bind, cmd_Run.
  fold outputFile. fold cc. fold p. rewrite H. reflexivity.
Qed.

Hypothesis Hstart : p_start_err p = None.

(** [cmd.Run] has no deadline: a compiler that never exits blocks
    [Compile] for ever, and nothing is killed. *)
Lemma Compile_blocks : p_end p = Runs -> Compile w c sourcePath s = Hang launched.
Proof.
  intros H. unfold Compile. rewrite Hconfig. unfold bind, cmd_Run.
  fold outputFile. fold cc. fold p. rewrite Hstart, H. reflexivity.
Qed.

Lemma Compile_exit_nonzero t code :
  p_end p = Exits t code -> code <> 0 ->
  Compile w c sourcePath s
  = Ret (Ok (compile_failed
               match ErrorCodes config !! code with
               | Some customMsg => customMsg +:+ ": " +:+ p_stderr p
               | None => p_stderr p
               end t)) launched.
Proof.
  intros H Hcode. unfold Compile. rewrite Hconfig. unfold bind, cmd_Run.
  fold outputFile. fold cc. fold p. rewrite Hstart, H. simpl.
  destruct (Z.eqb_spec code 0) as [|_]; [contradiction|]. reflexivity.
Qed.

Lemma Compile_exit_zero t :
  p_end p = Exits t 0 ->
  Compile w c sourcePath s
  = if NeedsCompiled config then
      match p_files p (fs s) !! outputFile with
      | None =>
          Ret (Ok (compile_failed "компиляция не создала выходной файл" t)) launched
      | Some f =>
          Ret (Ok (compile_succeeded outputFile t))
              {| fs := <[outputFile := {| content := content f; perm := perm_0755 |}]>
                         (p_files p (fs s));
                 trace := trace launched |}
      end
    else Ret (Ok (compile_succeeded outputFile t)) launched.
Proof.
  intros H. unfold Compile. rewrite Hconfig. unfold bind, cmd_Run.
  fold outputFile. fold cc. fold p. rewrite Hstart, H. simpl.
  destruct (NeedsCompiled config); [|reflexivity].
  unfold Stat, os_Chmod, ret. simpl.
  destruct (p_files p (fs s) !! outputFile) as [f|] eqn:Hout.
  - rewrite bool_decide_eq_true_2 by eauto. simpl. rewrite Hout. reflexivity.
  - rewrite bool_decide_eq_false_2 by (intros [? ?]; discriminate). reflexivity.
Qed.

End Compiling.

(** A compile that returns adds exactly one event, the launch of the
    compiler or the failure to launch it. *)
Lemma Compile_one_event w c sourcePath s config r s' :
  configs c !! ToLower (Ext sourcePath) = Some config ->
  Compile w c sourcePath s = Ret r s' ->
  let cc := compile_cmd c config sourcePath
              (compile_output sourcePath (ToLower (Ext sourcePath))) in
  trace s' = trace s ++ [EvLaunch cc (p_pid (spawn w cc (fs s)))]
  \/ trace s' = trace s ++ [EvLaunchFailed cc].
Proof.
  intros Hc H cc.
  destruct (p_start_err (spawn w cc (fs s))) as [cause|] eqn:Hs.
  - rewrite (Compile_not_started w c sourcePath s config Hc cause Hs) in H.
    inversion H; subst. right. reflexivity.
  - destruct (p_end (spawn w cc (fs s))) as [t code|] eqn:He.
    + destruct (Z.eq_dec code 0) as [->|Hne].
      * rewrite (Compile_exit_zero w c sourcePath s config Hc Hs t He) in H.
        destruct (NeedsCompiled config);
          [destruct (p_files _ _ !! _)|]; inversion H; subst; left; reflexivity.
      * rewrite (Compile_exit_nonzero w c sourcePath s config Hc Hs t code He Hne) in H.
        inversion H; subst. left. reflexivity.
    + rewrite (Compile_blocks w c sourcePath s config Hc Hs He) in H. discriminate.
Qed.

(** C6. When [Compile] reports success for a profile that needs
    compiling, the output file it names is in the file system with mode
    0755; and when the compiler exits with 0 without having produced that
    file, [Compile] returns the failure "компиляция не создала выходной
    файл" instead of a success. *)
Theorem compiled_artifact_exists_and_is_executable
    (w : World) (c : Compiler) (sourcePath : string) (s : State)
    (config : CompilerConfig) :
  configs c !! ToLower (Ext sourcePath) = Some config ->
  NeedsCompiled config = true ->
  let outputFile := compile_output sourcePath (ToLower (Ext sourcePath)) in
  let p := spawn w (compile_cmd c config sourcePath outputFile) (fs s) in
  (forall cr s',
      Compile w c sourcePath s = Ret (Ok cr) s' -> cr_Success cr = true ->
      cr_OutputFile cr = outputFile
      /\ exists f, fs s' !! cr_OutputFile cr = Some f /\ perm f = perm_0755)
  /\ (forall t,
        p_start_err p = None -> p_end p = Exits t 0 ->
        p_files p (fs s) !! outputFile = None ->
        exists s',
          Compile w c sourcePath s
          = Ret (Ok (compile_failed "компиляция не создала выходной файл" t)) s'
          /\ fs s' !! outputFile = None).
Proof.
  intros Hc Hn outputFile p. split.
  - intros cr s' H Hok.
    destruct (p_start_err p) as [cause|] eqn:Hs.
    { rewrite (Compile_not_started w c sourcePath s config Hc cause Hs) in H.
      inversion H; subst. discriminate. }
    destruct (p_end p) as [t code|] eqn:He.
    + destruct (Z.eq_dec code 0) as [->|Hne].
      * rewrite (Compile_exit_zero w c sourcePath s config Hc Hs t He) in H.
        rewrite Hn in H. fold outputFile p in H.
        destruct (p_files p (fs s) !! outputFile) as [f|] eqn:Hout;
          inversion H; subst; [|discriminate].
        split; [reflexivity|]. simpl.
        eexists. rewrite lookup_insert_eq. split; reflexivity.
      * rewrite (Compile_exit_nonzero w c sourcePath s config Hc Hs t code He Hne) in H.
        inversion H; subst. discriminate.
    + rewrite (Compile_blocks w c sourcePath s config Hc Hs He) in H. discriminate.
  - intros t Hs He Hout.
    rewrite (Compile_exit_zero w c sourcePath s config Hc Hs t He).
    rewrite Hn. fold outputFile p. rewrite Hout.
    eexists. split; [reflexivity|]. exact Hout.
Qed.

(** ** A whole request *)

Section Request.
Variables (w : World) (e : Executor) (filePath : string) (s : State).

Let ext : string := ToLower (Ext filePath).
Let tempFile : string := Join2 (workDir e) (Base filePath).

Hypothesis Hpresent : is_Some (fs s !! filePath).
Hypothesis Hcreate : create_err w tempFile = None.

Lemma ExecuteFile_interpreted :
  needs_compile ext = false ->
  ExecuteFile w e filePath s
  = run_phase w e ext tempFile None (staged s filePath tempFile).
Proof.
  intros Hnc. unfold ExecuteFile. unfold bind at 1. unfold Stat at 1.
  rewrite bool_decide_eq_true_2 by exact Hpresent. simpl.
  unfold bind. fold tempFile. rewrite copyFile_done by assumption.
  fold ext. rewrite Hnc. reflexivity.
Qed.

Lemma ExecuteFile_compiled :
  needs_compile ext = true ->
  ExecuteFile w e filePath s
  = match Compile w (compiler e) tempFile (staged s filePath tempFile) with
    | Hang s2 => Hang s2
    | Ret (Err cause) s2 => Ret (Err (ErrCompile cause)) s2
    | Ret (Ok compileResult) s2 =>
        if cr_Success compileResult
        then run_phase w e ext (cr_OutputFile compileResult) (Some compileResult) s2
        else Ret (Ok {| Success := false;
                        Output := EmptyString;
                        Error := cr_Error compileResult;
                        ExitCode := 0;
                        ExecuteTime := 0;
                        CompileTime := cr_CompileTime compileResult;
                        Compiled := true;
                        Language := ext |}) s2
    end.
Proof.
  intros Hnc. unfold ExecuteFile. unfold bind at 1. unfold Stat at 1.
  rewrite bool_decide_eq_true_2 by exact Hpresent. simpl.
  unfold bind. fold tempFile. rewrite copyFile_done by assumption.
  fold ext. rewrite Hnc.
  destruct (Compile w (compiler e) tempFile (staged s filePath tempFile))
    as [[cr|cause] s2|s2]; try reflexivity.
  destruct (cr_Success cr); reflexivity.
Qed.

End Request.

(** C7. In a request for a compiled language the compiler is launched
    first and the run phase starts only in the state a successful compile
    returns. When the compile fails, the request ends there: the result is
    a failure that carries the error text of the compile (the compiler's
    stderr, behind the known-exit-code message if there is one, when the
    compiler exited with a non-zero code), its run duration is zero, and
    the launch of the compiler is the only event of the request. *)
Theorem compile_precedes_run_and_failure_stops_the_request
    (w : World) (e : Executor) (filePath : string) (s : State)
    (config : CompilerConfig) :
  let ext := ToLower (Ext filePath) in
  let tempFile := Join2 (workDir e) (Base filePath) in
  let s1 := staged s filePath tempFile in
  let cc := compile_cmd (compiler e) config tempFile
              (compile_output tempFile (ToLower (Ext tempFile))) in
  let p := spawn w cc (fs s1) in
  is_Some (fs s !! filePath) ->
  create_err w tempFile = None ->
  needs_compile ext = true ->
  configs (compiler e) !! ToLower (Ext tempFile) = Some config ->
  forall cr s2,
    Compile w (compiler e) tempFile s1 = Ret (Ok cr) s2 ->
    (trace s2 = trace s ++ [EvLaunch cc (p_pid p)]
     \/ trace s2 = trace s ++ [EvLaunchFailed cc])
    /\ (cr_Success cr = true ->
        ExecuteFile w e filePath s
        = run_phase w e ext (cr_OutputFile cr) (Some cr) s2)
    /\ (cr_Success cr = false ->
        ExecuteFile w e filePath s
        = Ret (Ok {| Success := false; Output := EmptyString;
                     Error := cr_Error cr; ExitCode := 0; ExecuteTime := 0;
                     CompileTime := cr_CompileTime cr; Compiled := true;
                     Language := ext |}) s2
        /\ forall t code,
             p_start_err p = None -> p_end p = Exits t code -> code <> 0 ->
             exists headline, cr_Error cr = headline +:+ p_stderr p).
Proof.
  intros ext tempFile s1 cc p Hpresent Hcreate Hnc Hconfig cr s2 Hcompile.
  pose proof (ExecuteFile_compiled w e filePath s Hpresent Hcreate Hnc) as HE.
  fold tempFile s1 in HE. rewrite Hcompile in HE.
  split; [|split].
  - exact (Compile_one_event w (compiler e) tempFile s1 config (Ok cr) s2
             Hconfig Hcompile).
  - intros Hok. rewrite HE, Hok. reflexivity.
  - intros Hko. rewrite HE, Hko. split; [reflexivity|].
    intros t code Hs He Hcode.
    rewrite (Compile_exit_nonzero w (compiler e) tempFile s1 config Hconfig Hs
               t code He Hcode) in Hcompile.
    inversion Hcompile; subst. simpl. fold cc. fold p.
    destruct (ErrorCodes config !! code) as [customMsg|].
    + exists (customMsg +:+ ": "). symmetry. apply append_assoc.
    + exists EmptyString. reflexivity.
Qed.

(** ** The output cap *)

Lemma big_output_length : Len big_output = 1048577.
Proof.
  unfold Len, big_output.
  rewrite string_of_list_length, repeat_length, N_nat_Z. reflexivity.
Qed.

Lemma big_output_over_cap : Len big_output > MAX_OUTPUT_SIZE.
Proof. rewrite big_output_length. reflexivity. Qed.

Lemma execute_error_over_cap e r timeout stdout :
  Len stdout > maxOutputSize e ->
  execute_error e r timeout stdout = Some (ErrOutputExceeded (maxOutputSize e)).
Proof.
  intros H. unfold execute_error.
  destruct (Z.gtb_spec (Len stdout) (maxOutputSize e)) as [_|Hle]; [reflexivity|lia].
Qed.

Lemma execute_error_none e r timeout stdout :
  execute_error e r timeout stdout = None -> Len stdout <= maxOutputSize e.
Proof.
  unfold execute_error.
  destruct (Z.gtb_spec (Len stdout) (maxOutputSize e)) as [|Hle]; [discriminate|].
  intros _. exact Hle.
Qed.

Lemma execute_error_within_cap e r timeout stdout :
  Len stdout <= maxOutputSize e ->
  execute_error e r timeout stdout
  = match r with
    | DeadlineHit => Some (ErrRunTimeout timeout)
    | Finished code _ => if code =? 0 then None else Some (ErrExit code)
    end.
Proof.
  intros H. unfold execute_error.
  destruct (Z.gtb_spec (Len stdout) (maxOutputSize e)) as [Hgt|_]; [lia|reflexivity].
Qed.

(** C1 (as the code has it). In a request that reaches the run phase and
    starts its process, the captured stdout is compared with the cap once,
    after the process has exited or the deadline has passed. When it is
    longer than the cap the result is a failure, so every successful
    result carries a stdout within the cap (the one the process wrote);
    and the size of the output makes no signal be sent: the trace of the
    run is the launch alone, or the launch and the kill of a passed
    deadline. *)
Theorem output_cap_is_checked_after_the_run
    (w : World) (e : Executor) (filePath : string) (s0 : State)
    (ext path : string) (cr : option CompileResult) (s : State)
    (prog : string) (args : list string) :
  let cmd := {| cmd_path := prog; cmd_args := args;
                cmd_dir := workDir e; cmd_setpgid := true |} in
  let p := spawn w cmd (fs s) in
  ExecuteFile w e filePath s0 = run_phase w e ext path cr s ->
  run_command ext path = Some (prog, args) ->
  p_start_err p = None ->
  exists r s',
    ExecuteFile w e filePath s0 = Ret (Ok r) s'
    /\ (Success r = true ->
        Output r = p_stdout p /\ Len (Output r) <= maxOutputSize e)
    /\ (Len (p_stdout p) > maxOutputSize e -> Success r = false)
    /\ (trace s' = trace s ++ [EvLaunch cmd (p_pid p)]
        \/ (race p (seconds (timeout_of e ext)) = DeadlineHit
            /\ trace s' = trace s ++ [EvLaunch cmd (p_pid p);
                                      EvKill (Z.neg (p_pid p)) SIGKILL])).
Proof.
  intros cmd p Hreach Hroute Hstart.
  rewrite Hreach, (run_phase_started w e ext path cr s prog args Hroute Hstart).
  fold cmd. fold p.
  eexists _, _. split; [reflexivity|]. simpl.
  split; [|split].
  - intros Hok. apply bool_decide_eq_true_1 in Hok.
    split; [reflexivity|]. exact (execute_error_none _ _ _ _ Hok).
  - intros Hbig. rewrite execute_error_over_cap by exact Hbig. reflexivity.
  - destruct (race p (seconds (timeout_of e ext))); [left|right]; auto.
Qed.

(** ** The deadline *)

(** What [ExecuteFile] does at the deadline, for every request. When the
    deadline passes before the process has exited, SIGKILL is sent to the
    process group (the target of the signal is the negated pid of a
    process started with [Setpgid]), and the result is a failure whose
    exit code is 0: no exit code is taken from the killed process. A run
    that exits with a non-zero code within the deadline and keeps its
    stdout within the cap has that code in its result. *)
Lemma deadline_kills_the_process_group
    (w : World) (e : Executor) (filePath : string) (s0 : State)
    (ext path : string) (cr : option CompileResult) (s : State)
    (prog : string) (args : list string) :
  let cmd := {| cmd_path := prog; cmd_args := args;
                cmd_dir := workDir e; cmd_setpgid := true |} in
  let p := spawn w cmd (fs s) in
  let deadline := seconds (timeout_of e ext) in
  ExecuteFile w e filePath s0 = run_phase w e ext path cr s ->
  run_command ext path = Some (prog, args) ->
  p_start_err p = None ->
  race p deadline = DeadlineHit ->
  exists r s',
    ExecuteFile w e filePath s0 = Ret (Ok r) s'
    /\ trace s' = trace s ++ [EvLaunch cmd (p_pid p); EvKill (Z.neg (p_pid p)) SIGKILL]
    /\ Z.neg (p_pid p) < 0
    /\ Success r = false
    /\ ExitCode r = 0
    /\ forall w2 s2 code elapsed,
         let p2 := spawn w2 cmd (fs s2) in
         p_start_err p2 = None ->
         race p2 deadline = Finished code elapsed ->
         code <> 0 ->
         Len (p_stdout p2) <= maxOutputSize e ->
         exists r2 s2',
           run_phase w2 e ext path cr s2 = Ret (Ok r2) s2'
           /\ Success r2 = false
           /\ ExitCode r2 = code
           /\ ExitCode r2 <> ExitCode r
           /\ trace s2' = trace s2 ++ [EvLaunch cmd (p_pid p2)].
Proof.
  intros cmd p deadline Hreach Hroute Hstart Hrace.
  rewrite Hreach, (run_phase_started w e ext path cr s prog args Hroute Hstart).
  fold cmd. fold p. fold deadline. rewrite Hrace.
  assert (Hzero : exit_code_of
            (execute_error e DeadlineHit (timeout_of e ext) (p_stdout p)) = 0).
  { unfold execute_error. destruct (_ >? _); reflexivity. }
  assert (Hfail : bool_decide
            (execute_error e DeadlineHit (timeout_of e ext) (p_stdout p) = None) = false).
  { apply bool_decide_eq_false_2. unfold execute_error.
    destruct (_ >? _); discriminate. }
  eexists _, _. split; [reflexivity|]. simpl.
  split; [reflexivity|]. split; [reflexivity|].
  split; [exact Hfail|]. split; [exact Hzero|].
  intros w2 s2 code elapsed Hstart2 Hrace2 Hcode Hcap.
  rewrite (run_phase_started w2 e ext path cr s2 prog args Hroute Hstart2).
  fold cmd. fold deadline. rewrite Hrace2.
  rewrite (execute_error_within_cap _ _ _ _ Hcap).
  destruct (Z.eqb_spec code 0) as [|_]; [contradiction|].
  eexists _, _. split; [reflexivity|]. simpl.
  split; [reflexivity|]. split; [reflexivity|].
  split; [rewrite Hzero; exact Hcode|reflexivity].
Qed.

Lemma job_present : is_Some (fs job_state !! job).
Proof. eexists. vm_compute. reflexivity. Qed.

Lemma job_reaches_run_phase (w : World) :
  create_err w staged_job = None ->
  ExecuteFile w (NewExecutor WORK_DIR) job job_state
  = run_phase w (NewExecutor WORK_DIR) ".py" staged_job None
      (staged job_state job staged_job).
Proof.
  intros H.
  exact (ExecuteFile_interpreted w (NewExecutor WORK_DIR) job job_state
           job_present H eq_refl).
Qed.

Lemma chatty_job (ending : Termination) :
  ExecuteFile (W_chatty ending) (NewExecutor WORK_DIR) job job_state
  = Ret (Ok {| Success := false;
               Output := big_output;
               Error := EmptyString;
               ExitCode := 0;
               ExecuteTime := match race (chatty_proc ending) (seconds 30) with
                              | DeadlineHit => seconds 30
                              | Finished _ elapsed => elapsed
                              end;
               CompileTime := 0;
               Compiled := false;
               Language := ".py" |})
        {| fs := fs (staged job_state job staged_job);
           trace := EvLaunch python_job 11 ::
                      match race (chatty_proc ending) (seconds 30) with
                      | DeadlineHit => [EvKill (Z.neg 11) SIGKILL]
                      | Finished _ _ => []
                      end |}.
Proof.
  rewrite job_reaches_run_phase by reflexivity.
  rewrite (run_phase_started (W_chatty ending) (NewExecutor WORK_DIR) ".py"
             staged_job None _ "python3" [staged_job] eq_refl eq_refl).
  change (spawn (W_chatty ending) _ _) with (chatty_proc ending).
  change (p_stdout (chatty_proc ending)) with big_output.
  change (timeout_of (NewExecutor WORK_DIR) ".py") with 30.
  rewrite execute_error_over_cap by exact big_output_over_cap.
  reflexivity.
Qed.

(** C1, counterexample. A Python job that writes 1048577 bytes and exits
    with 0 after a second: the result carries all 1048577 bytes, one more
    than the cap, and nothing was killed. *)
Lemma output_above_the_cap_is_returned :
  exists r s',
    ExecuteFile (W_chatty (Exits Second 0)) (NewExecutor WORK_DIR) job job_state
    = Ret (Ok r) s'
    /\ Len (Output r) > maxOutputSize (NewExecutor WORK_DIR)
    /\ trace s' = [EvLaunch python_job 11].
Proof.
  eexists _, _. split; [apply chatty_job|]. split.
  - exact big_output_over_cap.
  - reflexivity.
Qed.

Lemma output_cap_is_checked_after_the_run_witness :
  ExecuteFile (W_chatty (Exits Second 0)) (NewExecutor WORK_DIR) job job_state
  = run_phase (W_chatty (Exits Second 0)) (NewExecutor WORK_DIR) ".py" staged_job None
      (staged job_state job staged_job)
  /\ run_command ".py" staged_job = Some ("python3"%string, [staged_job])
  /\ p_start_err (chatty_proc (Exits Second 0)) = None
  /\ exists r s',
       ExecuteFile (W_chatty (Exits Second 0)) (NewExecutor WORK_DIR) job job_state
       = Ret (Ok r) s'
       /\ Success r = false.
Proof.
  pose proof (job_reaches_run_phase (W_chatty (Exits Second 0)) eq_refl) as Hreach.
  split; [exact Hreach|]. split; [reflexivity|]. split; [reflexivity|].
  destruct (output_cap_is_checked_after_the_run
              (W_chatty (Exits Second 0)) (NewExecutor WORK_DIR) job job_state
              ".py" staged_job None (staged job_state job staged_job)
              "python3" [staged_job] Hreach eq_refl eq_refl)
    as (r & s' & HE & _ & Hbig & _).
  exists r, s'. split; [exact HE|]. exact (Hbig big_output_over_cap).
Defined.

(** C3, on the code. A Python job whose process never exits and writes
    nothing, run by the executor the package builds. At the deadline
    SIGKILL is sent to the process group, and [ExecuteFile] returns a
    result, not an error: [Success] is false, [ExitCode] is 0, [Output]
    and [Error] are empty. The time-out error the code has built is
    stored in no field, and [Execute] hands its caller the report of a
    failure with code 0. A run of another kind, one that exits with 0 in
    time and writes more than the cap, returns the same [Success] and
    [ExitCode]. The unused [runFile] returns the time-out of the same
    command as an error of its own. *)
Theorem timeout_is_returned_without_its_kind :
  exists r s',
    ExecuteFile W_stuck (NewExecutor WORK_DIR) job job_state = Ret (Ok r) s'
    /\ trace s' = [EvLaunch python_job 9; EvKill (Z.neg 9) SIGKILL]
    /\ Success r = false
    /\ ExitCode r = 0
    /\ Output r = EmptyString
    /\ Error r = EmptyString
    /\ Execute W_stuck NewEnvironment job job_state
       = Ret (Ok ("Ошибка выполнения (код 0):" +:+ LF)) s'
    /\ (exists r2 s2,
          ExecuteFile (W_chatty (Exits Second 0)) (NewExecutor WORK_DIR) job job_state
          = Ret (Ok r2) s2
          /\ trace s2 = [EvLaunch python_job 11]
          /\ Success r2 = Success r
          /\ ExitCode r2 = ExitCode r)
    /\ (exists s3,
          runFile W_stuck NewEnvironment staged_job python_config
            (staged job_state job staged_job)
          = Ret (Err (ErrRunTimeout 30)) s3
          /\ trace s3 = [EvLaunch python_job 9; EvKill (Z.neg 9) SIGKILL]
          /\ error_text (ErrRunTimeout 30)
             = "превышено время выполнения (30 секунд)"%string).
Proof.
  eexists _, _. split; [vm_compute; reflexivity|].
  split; [reflexivity|]. split; [reflexivity|]. split; [reflexivity|].
  split; [reflexivity|]. split; [reflexivity|].
  split; [vm_compute; reflexivity|]. split.
  - eexists _, _. split; [apply chatty_job|]. repeat split.
  - eexists. split; [vm_compute; reflexivity|]. split; reflexivity.
Qed.

(** ** A compiler that does not terminate *)

(** C2, on the code. A request for a C file in a world where the compiler
    never exits: [Compile] waits in [cmd.Run] without a deadline, so the
    request never returns, and the only event is the launch of gcc:
    nothing is killed and no compile failure is reported. *)
Theorem compile_has_no_deadline :
  exists s',
    ExecuteFile W_stuck (NewExecutor WORK_DIR) c_source c_state = Hang s'
    /\ trace s' = [EvLaunch (gcc_of (NewCompiler WORK_DIR)) 9].
Proof.
  eexists. split.
  - vm_compute. reflexivity.
  - vm_compute. reflexivity.
Qed.

(** The unused sibling [Environment.compile] has the deadline: in the same
    world it kills the compiler after the 60 seconds of ".c" and returns
    the time-out error. *)
Lemma Environment_compile_has_a_deadline :
  exists config s',
    getCompilerConfig ".c" = Ok config
    /\ Environment_compile W_stuck NewEnvironment staged_c config
         (staged c_state c_source staged_c)
       = Ret (Err (ErrCompileTimeout 60)) s'
    /\ trace s' =
       [EvLaunch {| cmd_path := "gcc";
                    cmd_args := ["-o"; "/tmp/smollm-sandbox/prog.out"; staged_c];
                    cmd_dir := WORK_DIR; cmd_setpgid := false |} 9;
        EvKill (Z.pos 9) SIGKILL].
Proof.
  eexists _, _. split; [reflexivity|]. split.
  - vm_compute. reflexivity.
  - vm_compute. reflexivity.
Qed.

(** ** Inline code *)

Lemma copyFile_onto_itself w path s :
  is_Some (fs s !! path) -> create_err w path = None ->
  exists s',
    copyFile w path path s = Ret (Ok tt) s'
    /\ fs s' !! path = Some {| content := EmptyString; perm := perm_0755 |}.
Proof.
  intros Hp Hc. rewrite copyFile_done by assumption.
  eexists. split; [reflexivity|]. unfold staged, staged_file. simpl.
  rewrite lookup_insert_eq, bool_decide_eq_true_2 by reflexivity. reflexivity.
Qed.

(** C4, on the code. [ExecuteCode] writes the code to a temporary file of
    the working directory and hands that path to [ExecuteFile], which
    stages it by copying it onto itself: the file is truncated before it
    is read. With an interpreter that prints the script it is given, the
    output of the snippet [print('hello')] is empty: the file that ran
    was not the submitted code. *)
Theorem inline_code_runs_as_an_empty_file :
  exists s',
    ExecuteCode W_echo (NewExecutor WORK_DIR) "print('hello')" "python" empty_state
    = Ret (Ok {| Success := true; Output := EmptyString; Error := EmptyString;
                 ExitCode := 0; ExecuteTime := Second; CompileTime := 0;
                 Compiled := false; Language := ".py" |}) s'
    /\ trace s' =
       [EvLaunch {| cmd_path := "python3";
                    cmd_args := ["/tmp/smollm-sandbox/tmp_1700000000000000000.py"];
                    cmd_dir := WORK_DIR; cmd_setpgid := true |} 7].
Proof.
  eexists. split.
  - vm_compute. reflexivity.
  - vm_compute. reflexivity.
Qed.

(** The same interpreter on a file that lies outside the working
    directory prints the file: the staged copy is faithful there. *)
Lemma file_outside_the_workdir_is_staged_faithfully :
  exists s',
    ExecuteFile W_echo (NewExecutor WORK_DIR) "/home/u/hello.py"
      (one_file "/home/u/hello.py" "print('hello')")
    = Ret (Ok {| Success := true; Output := "print('hello')"; Error := EmptyString;
                 ExitCode := 0; ExecuteTime := Second; CompileTime := 0;
                 Compiled := false; Language := ".py" |}) s'.
Proof.
  eexists. vm_compute. reflexivity.
Qed.

(** ** Names of temporary sources *)

Lemma uint_chars_no_dot (d : Decimal.uint) :
  "."%char ∉ chars (NilEmpty.string_of_uint d).
Proof.
  induction d; simpl; unfold chars; simpl;
    try (apply not_elem_of_nil);
    apply not_elem_of_cons; (split; [discriminate | exact IHd]).
Qed.

Lemma fmt_d_no_dot (z : Z) : "."%char ∉ chars (fmt_d z).
Proof.
  unfold fmt_d, NilZero.string_of_int, NilZero.string_of_uint.
  destruct (Z.to_int z) as [d|d].
  - destruct d; try apply (uint_chars_no_dot (_ _)).
    unfold chars; simpl. apply not_elem_of_cons. split; [discriminate|].
    apply not_elem_of_nil.
  - unfold chars. simpl. apply not_elem_of_cons. split; [discriminate|].
    destruct d; try apply (uint_chars_no_dot (_ _)).
    simpl. apply not_elem_of_cons. split; [discriminate|]. apply not_elem_of_nil.
Qed.

Lemma fmt_d_inj (a b : Z) : fmt_d a = fmt_d b -> a = b.
Proof.
  unfold fmt_d. intros H. apply DecimalZ.to_int_inj.
  assert (Hnn : forall z, Z.to_int z <> Decimal.Pos Decimal.Nil
                          /\ Z.to_int z <> Decimal.Neg Decimal.Nil).
  { intros [|q|q]; simpl; split; try discriminate;
      intros [= Hq]; exact (DecimalPos.Unsigned.to_uint_nonnil q Hq). }
  destruct (Hnn a) as [Ha1 Ha2]. destruct (Hnn b) as [Hb1 Hb2].
  pose proof (NilZero.isi _ Ha1 Ha2) as Ia.
  pose proof (NilZero.isi _ Hb1 Hb2) as Ib.
  rewrite H in Ia. rewrite Ia in Ib. congruence.
Qed.

(** Two strings without a dot, each followed by a dot and a rest, are
    equal only piece by piece. *)
Lemma split_at_first_dot (a b x y : string) :
  ("."%char ∉ chars a) -> ("."%char ∉ chars b) ->
  a +:+ String "." x = b +:+ String "." y -> a = b /\ x = y.
Proof.
  revert b. induction a as [|c a IH]; intros [|d b] Ha Hb H.
  - injection H as ->. split; reflexivity.
  - rewrite append_cons in H. injection H as <- _.
    exfalso. apply Hb. unfold chars. simpl. apply list_elem_of_here.
  - rewrite append_cons in H. injection H as -> _.
    exfalso. apply Ha. unfold chars. simpl. apply list_elem_of_here.
  - rewrite !append_cons in H. injection H as -> H.
    destruct (IH b) as [-> ->]; auto.
    + intros Hin. apply Ha. unfold chars in *. simpl. by apply list_elem_of_further.
    + intros Hin. apply Hb. unfold chars in *. simpl. by apply list_elem_of_further.
Qed.

Lemma ext_of_language_dotted language ext :
  ext_of_language language = Some ext -> exists rest, ext = String "." rest.
Proof.
  unfold ext_of_language.
  repeat (match goal with |- context [if ?b then _ else _] => destruct b end);
    intros [= <-]; eauto.
Qed.

(** The name of a temporary source determines the clock value and the
    extension it was built from. *)
Lemma temp_name_inj (t1 t2 : Z) (x1 x2 l1 l2 : string) :
  ext_of_language l1 = Some x1 -> ext_of_language l2 = Some x2 ->
  temp_name t1 x1 = temp_name t2 x2 -> t1 = t2 /\ x1 = x2.
Proof.
  intros H1 H2 H.
  apply ext_of_language_dotted in H1 as [r1 ->].
  apply ext_of_language_dotted in H2 as [r2 ->].
  unfold temp_name in H. apply (inj (String.append "tmp_")) in H.
  apply split_at_first_dot in H as [Hd ->]; auto using fmt_d_no_dot.
  split; [exact (fmt_d_inj _ _ Hd) | reflexivity].
Qed.

(** ** Requests return *)

Lemma Compile_returns w c sourcePath s :
  compilers_exit w -> exists r s', Compile w c sourcePath s = Ret r s'.
Proof.
  intros Hw.
  destruct (configs c !! ToLower (Ext sourcePath)) as [config|] eqn:Hc.
  - set (cc := compile_cmd c config sourcePath
                 (compile_output sourcePath (ToLower (Ext sourcePath)))).
    destruct (p_start_err (spawn w cc (fs s))) as [cause|] eqn:Hs.
    + rewrite (Compile_not_started w c sourcePath s config Hc cause Hs). eauto.
    + destruct (p_end (spawn w cc (fs s))) as [t code|] eqn:He.
      * destruct (Z.eq_dec code 0) as [->|Hne].
        -- rewrite (Compile_exit_zero w c sourcePath s config Hc Hs t He).
           destruct (NeedsCompiled config);
             [destruct (p_files _ _ !! _)|]; eexists _, _; reflexivity.
        -- rewrite (Compile_exit_nonzero w c sourcePath s config Hc Hs t code He Hne).
           eauto.
      * exfalso. apply (Hw cc (fs s)); auto.
  - unfold Compile. rewrite Hc. unfold ret. eauto.
Qed.

Lemma run_phase_returns w e ext path cr s :
  exists r s', run_phase w e ext path cr s = Ret r s'.
Proof.
  destruct (run_command ext path) as [[prog args]|] eqn:Hr.
  - set (cmd := {| cmd_path := prog; cmd_args := args;
                   cmd_dir := workDir e; cmd_setpgid := true |}).
    destruct (p_start_err (spawn w cmd (fs s))) as [cause|] eqn:Hs.
    + rewrite (run_phase_not_started w e ext path cr s prog args Hr cause Hs). eauto.
    + rewrite (run_phase_started w e ext path cr s prog args Hr Hs). eauto.
  - unfold run_phase. rewrite Hr. unfold ret. eauto.
Qed.

Lemma ExecuteFile_missing w e filePath s :
  fs s !! filePath = None ->
  ExecuteFile w e filePath s = Ret (Err (ErrFileNotExist filePath)) s.
Proof.
  intros H. unfold ExecuteFile. unfold bind at 1. unfold Stat at 1.
  rewrite bool_decide_eq_false_2 by (rewrite H; intros [? ?]; discriminate).
  reflexivity.
Qed.

Lemma ExecuteFile_refused w e filePath s cause :
  is_Some (fs s !! filePath) ->
  create_err w (Join2 (workDir e) (Base filePath)) = Some cause ->
  ExecuteFile w e filePath s = Ret (Err (ErrCopy cause)) s.
Proof.
  intros H Hc. unfold ExecuteFile. unfold bind at 1. unfold Stat at 1.
  rewrite bool_decide_eq_true_2 by exact H. simpl.
  unfold bind. rewrite (copyFile_refused _ _ _ _ cause) by assumption.
  reflexivity.
Qed.

Lemma ExecuteFile_returns w e filePath s :
  compilers_exit w -> exists r s', ExecuteFile w e filePath s = Ret r s'.
Proof.
  intros Hw.
  destruct (fs s !! filePath) as [f|] eqn:Hf.
  - assert (Hp : is_Some (fs s !! filePath)) by eauto.
    destruct (create_err w (Join2 (workDir e) (Base filePath))) as [cause|] eqn:Hc.
    + rewrite (ExecuteFile_refused w e filePath s cause Hp Hc). eauto.
    + destruct (needs_compile (ToLower (Ext filePath))) eqn:Hn.
      * rewrite (ExecuteFile_compiled w e filePath s Hp Hc Hn).
        destruct (Compile_returns w (compiler e) (Join2 (workDir e) (Base filePath))
                    (staged s filePath (Join2 (workDir e) (Base filePath))) Hw)
          as ([cr|cause] & s2 & ->); [|eauto].
        destruct (cr_Success cr); [apply run_phase_returns|eauto].
      * rewrite (ExecuteFile_interpreted w e filePath s Hp Hc Hn).
        apply run_phase_returns.
  - rewrite (ExecuteFile_missing w e filePath s Hf). eauto.
Qed.

Lemma os_Remove_trace w p s : trace (state_of (os_Remove w p s)) = trace s.
Proof.
  unfold os_Remove. destruct (remove_err w p); [reflexivity|].
  destruct (fs s !! p); reflexivity.
Qed.

(** [ExecuteCode] after the language switch and the write: the outcome of
    [ExecuteFile] on the written file, followed by the removal. *)
Lemma ExecuteCode_written w e code language ext s :
  let filePath := Join2 (workDir e) (temp_name (unix_nano w) ext) in
  let written :=
    {| fs := <[filePath := {| content := code;
                              perm := match fs s !! filePath with
                                      | Some f => perm f
                                      | None => perm_0755
                                      end |}]> (fs s);
       trace := trace s |} in
  ext_of_language language = Some ext ->
  create_err w filePath = None ->
  ExecuteCode w e code language s
  = match ExecuteFile w e filePath written with
    | Ret r s2 => Ret r (state_of (os_Remove w filePath s2))
    | Hang s2 => Hang s2
    end.
Proof.
  intros filePath written Hext Hcreate.
  unfold ExecuteCode. rewrite Hext. fold filePath.
  unfold bind at 1. unfold os_WriteFile at 1. rewrite Hcreate. fold written.
  unfold bind. destruct (ExecuteFile w e filePath written) as [r s2|s2];
    [|reflexivity].
  unfold os_Remove. destruct (remove_err w filePath); [reflexivity|].
  destruct (fs s2 !! filePath); reflexivity.
Qed.

(** C8 (as the code has it). For a language [ExecuteCode] knows and a
    temporary file that can be written: the code is written to
    "tmp_<clock in ns><extension>" in the working directory and the result
    is the one [ExecuteFile] gives for that path. Once [ExecuteFile] has
    returned, with a result or with an error, [os.Remove] is called on
    the temporary file and its error is discarded: the file is gone when
    the removal is not refused, and is left as [ExecuteFile] left it when
    it is. [ExecuteCode] returns whenever the compiler exits; when
    [ExecuteFile] does not return, nothing is removed. The name is a
    function of the clock value and the extension: another request uses
    the same name exactly when it reads the same clock value and has the
    same extension. *)
Theorem temporary_source_is_written_run_and_removed
    (w : World) (e : Executor) (code language ext : string) (s : State) :
  let fileName := temp_name (unix_nano w) ext in
  let filePath := Join2 (workDir e) fileName in
  let written :=
    {| fs := <[filePath := {| content := code;
                              perm := match fs s !! filePath with
                                      | Some f => perm f
                                      | None => perm_0755
                                      end |}]> (fs s);
       trace := trace s |} in
  ext_of_language language = Some ext ->
  create_err w filePath = None ->
  ExecuteCode w e code language s
  = match ExecuteFile w e filePath written with
    | Ret r s2 => Ret r (state_of (os_Remove w filePath s2))
    | Hang s2 => Hang s2
    end
  /\ (forall r s', ExecuteCode w e code language s = Ret r s' ->
                   remove_err w filePath = None ->
                   fs s' !! filePath = None)
  /\ (forall r s', ExecuteCode w e code language s = Ret r s' ->
                   remove_err w filePath <> None ->
                   ExecuteFile w e filePath written = Ret r s')
  /\ (compilers_exit w -> exists r s', ExecuteCode w e code language s = Ret r s')
  /\ (forall t2 language2 ext2,
        ext_of_language language2 = Some ext2 ->
        (temp_name t2 ext2 = fileName <-> t2 = unix_nano w /\ ext2 = ext)).
Proof.
  intros fileName filePath written Hext Hcreate.
  pose proof (ExecuteCode_written w e code language ext s Hext Hcreate) as HE.
  fold fileName filePath written in HE.
  split; [exact HE|]. split; [|split; [|split]].
  - intros r s' H Hrm. rewrite HE in H.
    destruct (ExecuteFile w e filePath written) as [r2 s2|s2]; [|discriminate].
    inversion H; subst. unfold os_Remove. rewrite Hrm.
    destruct (fs s2 !! filePath) eqn:Hf; simpl; [apply lookup_delete_eq | exact Hf].
  - intros r s' H Hrm. rewrite HE in H.
    destruct (ExecuteFile w e filePath written) as [r2 s2|s2]; [|discriminate].
    inversion H; subst. unfold os_Remove.
    destruct (remove_err w filePath); [reflexivity | contradiction].
  - intros Hw. rewrite HE.
    destruct (ExecuteFile_returns w e filePath written Hw) as (r & s2 & ->). eauto.
  - intros t2 language2 ext2 H2. split.
    + intros Hname.
      exact (temp_name_inj t2 (unix_nano w) ext2 ext language2 language H2 Hext Hname).
    + intros [-> ->]. reflexivity.
Qed.

(** C8, counterexample. In a world that refuses the removal, the snippet
    runs with success and [ExecuteCode] returns the result, but the
    temporary source is still in the working directory (emptied by the
    staging). *)
Lemma temporary_source_survives_a_refused_removal :
  exists r s',
    ExecuteCode W_locked (NewExecutor WORK_DIR) "print('hello')" "python" empty_state
    = Ret (Ok r) s'
    /\ Success r = true
    /\ fs s' !! "/tmp/smollm-sandbox/tmp_1700000000000000000.py"%string
       = Some {| content := EmptyString; perm := perm_0755 |}.
Proof.
  eexists _, _. split; [vm_compute; reflexivity|].
  split; vm_compute; reflexivity.
Qed.

(** ** The tables *)

Lemma environment_timeouts_keys (ext : string) :
  is_Some (environment_timeouts !! ext) <-> ext ∈ environment_exts.
Proof.
  unfold environment_exts. rewrite !elem_of_cons, elem_of_nil.
  split.
  - intros [t Ht]. unfold environment_timeouts in Ht.
    repeat (rewrite lookup_insert in Ht; case_decide; [subst; tauto|]).
    rewrite lookup_empty in Ht. discriminate.
  - intros [-> | [-> | [-> | [-> | [-> | []]]]]]; eexists; vm_compute; reflexivity.
Qed.

(** C5 (as the code has it). The time-out table of an environment is not
    read-only: [SetResourceLimits] keeps its keys and overwrites every
    value with the given [timeoutSeconds], whatever [cpuPercent] and
    [memoryMB] are. The call leaves the working directory and the
    executor as they were, and with the executor its own time-out table
    and the profile table of its compiler. For the environment the
    package builds, the keys are ".py", ".js", ".go", ".c" and ".cpp". *)
Theorem SetResourceLimits_overwrites_every_timeout
    (env : Environment) (cpuPercent memoryMB timeoutSeconds : Z) (ext : string) :
  let env' := SetResourceLimits env cpuPercent memoryMB timeoutSeconds in
  (is_Some (env_timeouts env' !! ext) <-> is_Some (env_timeouts env !! ext))
  /\ (is_Some (env_timeouts env !! ext) ->
      env_timeouts env' !! ext = Some timeoutSeconds)
  /\ GetTimeout env' ext
     = (if bool_decide (is_Some (env_timeouts env !! ext))
        then timeoutSeconds else TIMEOUT_SECONDS)
  /\ executor env' = executor env
  /\ timeouts (executor env') = timeouts (executor env)
  /\ configs (compiler (executor env')) = configs (compiler (executor env))
  /\ env_workDir env' = env_workDir env
  /\ (is_Some (env_timeouts NewEnvironment !! ext) <-> ext ∈ environment_exts).
Proof.
  intros env'.
  assert (Hl : env_timeouts env' !! ext
               = (fun _ => timeoutSeconds) <$> env_timeouts env !! ext).
  { unfold env', SetResourceLimits. simpl. apply lookup_fmap. }
  split; [|split; [|split; [|split; [|split; [|split; [|split]]]]]];
    try reflexivity.
  - rewrite Hl. destruct (env_timeouts env !! ext); simpl.
    + split; eauto.
    + split; intros [? ?]; discriminate.
  - intros [v Hv]. rewrite Hl, Hv. reflexivity.
  - unfold GetTimeout, env_timeout_of. rewrite Hl.
    destruct (env_timeouts env !! ext) as [v|].
    + rewrite bool_decide_eq_true_2 by eauto. reflexivity.
    + rewrite bool_decide_eq_false_2 by (intros [? ?]; discriminate). reflexivity.
  - apply environment_timeouts_keys.
Qed.

(** C5, counterexample. [SetResourceLimits] rewrites the time-out table of
    the environment: after the call the time-out of ".py" is 5, not 30,
    and that of ".go" is 5, not 60. *)
Lemma SetResourceLimits_rewrites_the_timeouts :
  env_timeouts NewEnvironment !! ".py"%string = Some 30
  /\ GetTimeout NewEnvironment ".go" = 60
  /\ env_timeouts (SetResourceLimits NewEnvironment 50 512 5) !! ".py"%string = Some 5
  /\ GetTimeout (SetResourceLimits NewEnvironment 50 512 5) ".go" = 5
  /\ env_timeouts (SetResourceLimits NewEnvironment 50 512 5)
     <> env_timeouts NewEnvironment.
Proof.
  split; [vm_compute; reflexivity|]. split; [vm_compute; reflexivity|].
  split; [vm_compute; reflexivity|]. split; [vm_compute; reflexivity|].
  intros H. apply (f_equal (fun m => m !! ".py"%string)) in H.
  vm_compute in H. discriminate.
Qed.

(** ** Letter case of extensions in a request *)

Lemma run_phase_ok_inv w e ext path cr s r s' :
  run_phase w e ext path cr s = Ret (Ok r) s' ->
  exists prog args,
    run_command ext path = Some (prog, args)
    /\ p_start_err (spawn w {| cmd_path := prog; cmd_args := args;
                               cmd_dir := workDir e; cmd_setpgid := true |} (fs s))
       = None.
Proof.
  intros H.
  destruct (run_command ext path) as [[prog args]|] eqn:Hr.
  - exists prog, args. split; [reflexivity|].
    destruct (p_start_err (spawn w {| cmd_path := prog; cmd_args := args;
                                      cmd_dir := workDir e; cmd_setpgid := true |}
                             (fs s))) as [cause|] eqn:Hs; [|reflexivity].
    rewrite (run_phase_not_started w e ext path cr s prog args Hr cause Hs) in H.
    discriminate.
  - unfold run_phase in H. rewrite Hr in H. discriminate.
Qed.

(** The three ways in which [ExecuteFile] returns a result. *)
Lemma ExecuteFile_ok_inv w e filePath s r s' :
  ExecuteFile w e filePath s = Ret (Ok r) s' ->
  let ext := ToLower (Ext filePath) in
  let tempFile := Join2 (workDir e) (Base filePath) in
  let s1 := staged s filePath tempFile in
  (needs_compile ext = false
   /\ run_phase w e ext tempFile None s1 = Ret (Ok r) s')
  \/ (needs_compile ext = true
      /\ exists cr s2,
           Compile w (compiler e) tempFile s1 = Ret (Ok cr) s2
           /\ ((cr_Success cr = false
                /\ s' = s2
                /\ r = {| Success := false; Output := EmptyString;
                          Error := cr_Error cr; ExitCode := 0; ExecuteTime := 0;
                          CompileTime := cr_CompileTime cr; Compiled := true;
                          Language := ext |})
               \/ (cr_Success cr = true
                   /\ run_phase w e ext (cr_OutputFile cr) (Some cr) s2
                      = Ret (Ok r) s'))).
Proof.
  intros H ext tempFile s1.
  destruct (fs s !! filePath) as [f|] eqn:Hf.
  2:{ rewrite (ExecuteFile_missing w e filePath s Hf) in H. discriminate. }
  assert (Hp : is_Some (fs s !! filePath)) by eauto.
  destruct (create_err w tempFile) as [cause|] eqn:Hc.
  { rewrite (ExecuteFile_refused w e filePath s cause Hp Hc) in H. discriminate. }
  destruct (needs_compile ext) eqn:Hn.
  - right. split; [reflexivity|].
    rewrite (ExecuteFile_compiled w e filePath s Hp Hc Hn) in H.
    fold tempFile s1 in H.
    destruct (Compile w (compiler e) tempFile s1) as [[cr|cause] s2|s2];
      try discriminate.
    exists cr, s2. split; [reflexivity|].
    destruct (cr_Success cr).
    + right. split; [reflexivity|]. exact H.
    + left. split; [reflexivity|]. inversion H; subst. split; reflexivity.
  - left. split; [reflexivity|].
    rewrite (ExecuteFile_interpreted w e filePath s Hp Hc Hn) in H. exact H.
Qed.

Lemma run_phase_result_shape w e ext path cr s r s' :
  run_phase w e ext path cr s = Ret (Ok r) s' ->
  Language r = ext
  /\ Compiled r = bool_decide (is_Some cr)
  /\ CompileTime r = match cr with Some c => cr_CompileTime c | None => 0 end
  /\ (Success r = true -> ExitCode r = 0)
  /\ (ExitCode r <> 0 -> Success r = false).
Proof.
  intros H. destruct (run_phase_ok_inv _ _ _ _ _ _ _ _ H) as (prog & args & Hr & Hs).
  rewrite (run_phase_started w e ext path cr s prog args Hr Hs) in H.
  inversion H; subst; clear H. simpl.
  split; [reflexivity|]. split; [reflexivity|]. split; [reflexivity|].
  set (err := execute_error _ _ _ _).
  split.
  - intros Hok. apply bool_decide_eq_true_1 in Hok. rewrite Hok. reflexivity.
  - intros Hcode. apply bool_decide_eq_false_2. intros Hnone.
    apply Hcode. rewrite Hnone. reflexivity.
Qed.

(** The shape of every result of [ExecuteFile]. *)
Lemma ExecuteFile_result_shape
    (w : World) (e : Executor) (filePath : string) (s s' : State)
    (r : ExecuteResult) :
  ExecuteFile w e filePath s = Ret (Ok r) s' ->
  Language r = ToLower (Ext filePath)
  /\ Compiled r = needs_compile (ToLower (Ext filePath))
  /\ (Compiled r = false -> CompileTime r = 0)
  /\ (Success r = true -> ExitCode r = 0)
  /\ (ExitCode r <> 0 -> Success r = false).
Proof.
  intros H. apply ExecuteFile_ok_inv in H.
  destruct H as [[Hn H]|[Hn (cr & s2 & HC & [(Hko & -> & ->)|[Hok H]])]].
  - apply run_phase_result_shape in H as (HL & HCm & HT & H1 & H2).
    rewrite Hn. split; [exact HL|]. split; [exact HCm|].
    split; [intros _; exact HT|]. split; assumption.
  - rewrite Hn. simpl. split; [reflexivity|]. split; [reflexivity|].
    split; [discriminate|]. split; [discriminate|]. intros Hx. contradiction.
  - apply run_phase_result_shape in H as (HL & HCm & HT & H1 & H2).
    rewrite Hn. split; [exact HL|]. split; [exact HCm|].
    split; [|split; assumption].
    intros Hx. rewrite HCm in Hx. discriminate.
Qed.

Lemma Compile_unsupported w c sourcePath s :
  configs c !! ToLower (Ext sourcePath) = None ->
  Compile w c sourcePath s
  = Ret (Err (ErrUnsupportedFileType (ToLower (Ext sourcePath)))) s.
Proof. intros H. unfold Compile. rewrite H. reflexivity. Qed.

Lemma Compile_launches w c sourcePath s config :
  configs c !! ToLower (Ext sourcePath) = Some config ->
  trace (state_of (Compile w c sourcePath s))
  = trace s ++ [launch_event w
                  (compile_cmd c config sourcePath
                     (compile_output sourcePath (ToLower (Ext sourcePath))))
                  (fs s)].
Proof.
  intros H. unfold Compile. rewrite H. unfold bind, cmd_Run, launch_event.
  destruct (p_start_err _); [reflexivity|].
  destruct (p_end _) as [t code|]; [|reflexivity]. simpl.
  destruct (code =? 0); [|reflexivity]. simpl.
  destruct (NeedsCompiled config); [|reflexivity].
  unfold Stat, os_Chmod, ret. simpl.
  destruct (p_files _ _ !! _) as [f|] eqn:Hout.
  - rewrite bool_decide_eq_true_2 by eauto. simpl. rewrite Hout. reflexivity.
  - rewrite bool_decide_eq_false_2 by (intros [? ?]; discriminate). reflexivity.
Qed.

Lemma ExecuteFile_staged w e filePath s :
  let tempFile := Join2 (workDir e) (Base filePath) in
  is_Some (fs s !! filePath) ->
  create_err w tempFile = None ->
  ExecuteFile w e filePath s
  = staged_request w e (ToLower (Ext filePath)) tempFile (staged s filePath tempFile).
Proof.
  intros tempFile Hp Hc. unfold ExecuteFile. unfold bind at 1. unfold Stat at 1.
  rewrite bool_decide_eq_true_2 by exact Hp. simpl.
  unfold bind at 1. fold tempFile. rewrite copyFile_done by assumption.
  unfold staged_request.
  destruct (needs_compile (ToLower (Ext filePath))); reflexivity.
Qed.

(** C10. [Compile] and [ExecuteFile] lower-case the extension before they
    use it, so two paths whose extensions differ only in letter case are
    treated alike. [Compile] refuses both with the same error when the
    table has no profile for the lower-cased extension, and otherwise
    launches for each the command built from one and the same profile.
    [ExecuteFile], once each file is staged, continues in the same way
    for both: what it does is one function of the lower-cased extension,
    which decides whether a compiler runs, which deadline applies and
    which command runs the file; and the results of the two requests name
    the same language and agree on being compiled. *)
Theorem extension_case_is_ignored
    (w : World) (e : Executor) (c : Compiler) (p1 p2 : string) (s1 s2 : State) :
  same_letters (Ext p1) (Ext p2) ->
  let ext := ToLower (Ext p1) in
  let t1 := Join2 (workDir e) (Base p1) in
  let t2 := Join2 (workDir e) (Base p2) in
  match configs c !! ext with
  | None =>
      Compile w c p1 s1 = Ret (Err (ErrUnsupportedFileType ext)) s1
      /\ Compile w c p2 s2 = Ret (Err (ErrUnsupportedFileType ext)) s2
  | Some config =>
      trace (state_of (Compile w c p1 s1))
      = trace s1 ++ [launch_event w (compile_cmd c config p1 (compile_output p1 ext))
                       (fs s1)]
      /\ trace (state_of (Compile w c p2 s2))
         = trace s2 ++ [launch_event w (compile_cmd c config p2 (compile_output p2 ext))
                          (fs s2)]
  end
  /\ (is_Some (fs s1 !! p1) -> create_err w t1 = None ->
      ExecuteFile w e p1 s1 = staged_request w e ext t1 (staged s1 p1 t1))
  /\ (is_Some (fs s2 !! p2) -> create_err w t2 = None ->
      ExecuteFile w e p2 s2 = staged_request w e ext t2 (staged s2 p2 t2))
  /\ (forall r1 s1' r2 s2',
        ExecuteFile w e p1 s1 = Ret (Ok r1) s1' ->
        ExecuteFile w e p2 s2 = Ret (Ok r2) s2' ->
        Language r1 = ext /\ Language r2 = ext
        /\ Compiled r1 = needs_compile ext /\ Compiled r2 = needs_compile ext).
Proof.
  intros Hsame ext t1 t2.
  assert (Hext : ToLower (Ext p2) = ext).
  { symmetry. apply same_letters_ToLower. exact Hsame. }
  split; [|split; [|split]].
  - destruct (configs c !! ext) as [config|] eqn:Hc.
    + split.
      * apply Compile_launches. exact Hc.
      * rewrite <- Hext in Hc |- *. apply Compile_launches. exact Hc.
    + split.
      * apply Compile_unsupported. exact Hc.
      * rewrite <- Hext in Hc |- *. apply Compile_unsupported. exact Hc.
  - intros Hp Hc. apply ExecuteFile_staged; assumption.
  - intros Hp Hc. rewrite <- Hext. apply ExecuteFile_staged; assumption.
  - intros r1 s1' r2 s2' H1 H2.
    destruct (ExecuteFile_result_shape w e p1 s1 s1' r1 H1) as (HL1 & HC1 & _).
    destruct (ExecuteFile_result_shape w e p2 s2 s2' r2 H2) as (HL2 & HC2 & _).
    rewrite Hext in HL2, HC2. auto.
Qed.

(** ** What follows from the self-copy and from the missing deadline *)

(** A file that already lies in the working directory is staged onto
    itself: what [ExecuteFile] does with it does not depend on what the
    file holds. *)
Lemma ExecuteFile_inside_the_workdir w e filePath s1 s2 :
  Join2 (workDir e) (Base filePath) = filePath ->
  create_err w filePath = None ->
  is_Some (fs s1 !! filePath) -> is_Some (fs s2 !! filePath) ->
  trace s1 = trace s2 ->
  (forall k, k <> filePath -> fs s1 !! k = fs s2 !! k) ->
  ExecuteFile w e filePath s1 = ExecuteFile w e filePath s2.
Proof.
  intros Hself Hcreate H1 H2 Htr Hfs.
  assert (Hst : staged s1 filePath filePath = staged s2 filePath filePath).
  { unfold staged, staged_file. rewrite Htr.
    rewrite bool_decide_eq_true_2 by reflexivity. f_equal.
    apply map_eq. intros k. destruct (decide (k = filePath)) as [->|Hne].
    - rewrite !lookup_insert_eq. reflexivity.
    - rewrite !lookup_insert_ne by congruence. auto. }
  rewrite <- Hself in Hcreate.
  destruct (needs_compile (ToLower (Ext filePath))) eqn:Hn.
  - rewrite (ExecuteFile_compiled w e filePath s1 H1 Hcreate Hn).
    rewrite (ExecuteFile_compiled w e filePath s2 H2 Hcreate Hn).
    rewrite Hself, Hst. reflexivity.
  - rewrite (ExecuteFile_interpreted w e filePath s1 H1 Hcreate Hn).
    rewrite (ExecuteFile_interpreted w e filePath s2 H2 Hcreate Hn).
    rewrite Hself, Hst. reflexivity.
Qed.

(** Hence the outcome of [ExecuteCode] is the same for every code, as
    soon as joining the working directory and the base name of the
    temporary path gives that path back, as it does for the directory the
    package uses. *)
Lemma ExecuteCode_ignores_the_code w e code1 code2 language ext s :
  let filePath := Join2 (workDir e) (temp_name (unix_nano w) ext) in
  ext_of_language language = Some ext ->
  create_err w filePath = None ->
  Join2 (workDir e) (Base filePath) = filePath ->
  ExecuteCode w e code1 language s = ExecuteCode w e code2 language s.
Proof.
  intros filePath Hext Hcreate Hself.
  rewrite (ExecuteCode_written w e code1 language ext s Hext Hcreate).
  rewrite (ExecuteCode_written w e code2 language ext s Hext Hcreate).
  fold filePath.
  rewrite (ExecuteFile_inside_the_workdir w e filePath
             {| fs := <[filePath := {| content := code1;
                                       perm := match fs s !! filePath with
                                               | Some f => perm f
                                               | None => perm_0755
                                               end |}]> (fs s);
                trace := trace s |}
             {| fs := <[filePath := {| content := code2;
                                       perm := match fs s !! filePath with
                                               | Some f => perm f
                                               | None => perm_0755
                                               end |}]> (fs s);
                trace := trace s |}); auto.
  - simpl. rewrite lookup_insert_eq. eauto.
  - simpl. rewrite lookup_insert_eq. eauto.
  - intros k Hk. simpl. rewrite !lookup_insert_ne by congruence. reflexivity.
Qed.

(** A request for a compiled language blocks whenever its compiler does
    not exit; the launch of the compiler is its only event. *)
Lemma ExecuteFile_blocks w e filePath s config :
  let tempFile := Join2 (workDir e) (Base filePath) in
  let s1 := staged s filePath tempFile in
  let cc := compile_cmd (compiler e) config tempFile
              (compile_output tempFile (ToLower (Ext tempFile))) in
  let p := spawn w cc (fs s1) in
  is_Some (fs s !! filePath) ->
  create_err w tempFile = None ->
  needs_compile (ToLower (Ext filePath)) = true ->
  configs (compiler e) !! ToLower (Ext tempFile) = Some config ->
  p_start_err p = None ->
  p_end p = Runs ->
  ExecuteFile w e filePath s
  = Hang {| fs := p_files p (fs s1); trace := trace s ++ [EvLaunch cc (p_pid p)] |}.
Proof.
  intros tempFile s1 cc p Hp Hc Hn Hconfig Hs He.
  rewrite (ExecuteFile_compiled w e filePath s Hp Hc Hn).
  fold tempFile s1.
  rewrite (Compile_blocks w (compiler e) tempFile s1 config Hconfig Hs He).
  reflexivity.
Qed.

(** The unused [Environment.runFile] returns an error of its own, and no
    result, for an output above the cap and for a passed deadline. *)
Lemma runFile_failures w env filename config s prog args :
  let cmd := {| cmd_path := prog; cmd_args := args;
                cmd_dir := env_workDir env; cmd_setpgid := true |} in
  let p := spawn w cmd (fs s) in
  let timeout := env_timeout_of env (Ext filename) in
  runFile_command (Ext filename) filename config = Some (prog, args) ->
  p_start_err p = None ->
  match race p (seconds timeout) with
  | DeadlineHit =>
      runFile w env filename config s
      = Ret (Err (ErrRunTimeout timeout))
            {| fs := p_files p (fs s);
               trace := trace s ++ [EvLaunch cmd (p_pid p);
                                    EvKill (Z.neg (p_pid p)) SIGKILL] |}
  | Finished code elapsed =>
      Len (p_stdout p) > MAX_OUTPUT_SIZE ->
      runFile w env filename config s
      = Ret (Err (ErrOutputExceeded MAX_OUTPUT_SIZE))
            {| fs := p_files p (fs s);
               trace := trace s ++ [EvLaunch cmd (p_pid p)] |}
  end.
Proof.
  intros cmd p timeout Hroute Hstart.
  unfold runFile. rewrite Hroute. run_monad.
  fold cmd. fold p. rewrite Hstart. fold timeout.
  destruct (race p (seconds timeout)) as [code elapsed|]; simpl.
  - intros Hbig.
    destruct (Z.gtb_spec (Len (p_stdout p)) MAX_OUTPUT_SIZE) as [_|Hle]; [|lia].
    reflexivity.
  - rewrite <- app_assoc. reflexivity.
Qed.

(** [Compile] strips the lower-cased extension from the path as it was
    given: an upper-case extension stays in the name of the artifact. *)
Example artifact_names :
  compile_output "/w/a.c" (ToLower (Ext "/w/a.c")) = "/w/a.out"%string
  /\ compile_output "/w/a.C" (ToLower (Ext "/w/a.C")) = "/w/a.C.out"%string
  /\ compile_output "/w/a.go" (ToLower (Ext "/w/a.go")) = "/w/a"%string
  /\ compile_output "/w/a.GO" (ToLower (Ext "/w/a.GO")) = "/w/a.GO"%string.
Proof. repeat split. Qed.

(** A C program through the whole pipeline: gcc is launched first and
    writes the artifact, then the artifact runs in its own process
    group. *)
Example compile_then_run :
  exists s',
    ExecuteFile W_build (NewExecutor WORK_DIR) c_source c_state
    = Ret (Ok {| Success := true; Output := "hello"; Error := EmptyString;
                 ExitCode := 0; ExecuteTime := Second; CompileTime := 2 * Second;
                 Compiled := true; Language := ".c" |}) s'
    /\ trace s' =
       [EvLaunch (gcc_of (NewCompiler WORK_DIR)) 20;
        EvLaunch {| cmd_path := "/tmp/smollm-sandbox/prog.out"; cmd_args := [];
                    cmd_dir := WORK_DIR; cmd_setpgid := true |} 21].
Proof.
  eexists. split; vm_compute; reflexivity.
Qed.

(** ** The theorems at concrete requests *)

Lemma gcc_config_found :
  configs (NewCompiler WORK_DIR) !! ToLower (Ext staged_c) = Some gcc_config.
Proof. vm_compute. reflexivity. Qed.

Lemma extension_case_is_ignored_witness :
  same_letters (Ext job) (Ext "/home/u/JOB.Py")
  /\ ExecuteFile W_echo (NewExecutor WORK_DIR) "/home/u/JOB.Py"
       (one_file "/home/u/JOB.Py" "print('hello')")
     = run_phase W_echo (NewExecutor WORK_DIR) ".py" "/tmp/smollm-sandbox/JOB.Py" None
         (staged (one_file "/home/u/JOB.Py" "print('hello')") "/home/u/JOB.Py"
            "/tmp/smollm-sandbox/JOB.Py")
  /\ ExecuteFile W_echo (NewExecutor WORK_DIR) job job_state
     = run_phase W_echo (NewExecutor WORK_DIR) ".py" staged_job None
         (staged job_state job staged_job).
Proof.
  assert (H : same_letters (Ext job) (Ext "/home/u/JOB.Py")).
  { change (Ext "/home/u/JOB.Py") with ".Py"%string.
    change (Ext job) with ".py"%string.
    repeat (constructor;
            [first [left; reflexivity
                   | right; left; split; reflexivity
                   | right; right; split; reflexivity]|]).
    constructor. }
  split; [exact H|].
  destruct (extension_case_is_ignored W_echo (NewExecutor WORK_DIR)
              (NewCompiler WORK_DIR) job "/home/u/JOB.Py" job_state
              (one_file "/home/u/JOB.Py" "print('hello')") H)
    as (_ & H1 & H2 & _).
  split.
  - apply H2; [eexists; vm_compute; reflexivity | reflexivity].
  - apply H1; [exact job_present | reflexivity].
Defined.

Lemma compiled_artifact_exists_and_is_executable_witness :
  configs (NewCompiler WORK_DIR) !! ToLower (Ext staged_c) = Some gcc_config
  /\ NeedsCompiled gcc_config = true
  /\ (exists cr s',
        Compile W_build (NewCompiler WORK_DIR) staged_c staged_c_state = Ret (Ok cr) s'
        /\ cr_Success cr = true
        /\ cr_OutputFile cr = "/tmp/smollm-sandbox/prog.out"%string
        /\ exists f, fs s' !! cr_OutputFile cr = Some f /\ perm f = perm_0755)
  /\ (exists s',
        Compile W_echo (NewCompiler WORK_DIR) staged_c staged_c_state
        = Ret (Ok (compile_failed "компиляция не создала выходной файл" Second)) s').
Proof.
  split; [exact gcc_config_found|]. split; [reflexivity|].
  split.
  - destruct (compiled_artifact_exists_and_is_executable
                W_build (NewCompiler WORK_DIR) staged_c staged_c_state gcc_config
                gcc_config_found eq_refl) as [H _].
    assert (HC : exists cr s',
               Compile W_build (NewCompiler WORK_DIR) staged_c staged_c_state
               = Ret (Ok cr) s' /\ cr_Success cr = true).
    { eexists _, _. split; vm_compute; reflexivity. }
    destruct HC as (cr & s' & HC & Hok).
    destruct (H cr s' HC Hok) as [Hout Hf].
    exists cr, s'. auto.
  - destruct (compiled_artifact_exists_and_is_executable
                W_echo (NewCompiler WORK_DIR) staged_c staged_c_state gcc_config
                gcc_config_found eq_refl) as [_ H].
    destruct (H Second eq_refl eq_refl) as (s' & HC & _).
    + vm_compute. reflexivity.
    + exists s'. exact HC.
Defined.

Lemma c_source_present : is_Some (fs c_state !! c_source).
Proof. eexists. vm_compute. reflexivity. Qed.

Lemma compile_precedes_run_and_failure_stops_the_request_witness :
  is_Some (fs c_state !! c_source)
  /\ create_err W_reject staged_c = None
  /\ needs_compile (ToLower (Ext c_source)) = true
  /\ configs (NewCompiler WORK_DIR) !! ToLower (Ext staged_c) = Some gcc_config
  /\ exists s2,
       ExecuteFile W_reject (NewExecutor WORK_DIR) c_source c_state
       = Ret (Ok {| Success := false; Output := EmptyString;
                    Error := "Ошибка компиляции C: prog.c:1:1: error: expected declaration";
                    ExitCode := 0; ExecuteTime := 0; CompileTime := Second;
                    Compiled := true; Language := ".c" |}) s2
       /\ trace s2 = [EvLaunch (gcc_of (NewCompiler WORK_DIR)) 30].
Proof.
  split; [exact c_source_present|]. split; [reflexivity|]. split; [reflexivity|].
  split; [exact gcc_config_found|].
  assert (HC : exists cr s2,
             Compile W_reject (NewCompiler WORK_DIR) staged_c
               (staged c_state c_source staged_c) = Ret (Ok cr) s2
             /\ cr = compile_failed
                       "Ошибка компиляции C: prog.c:1:1: error: expected declaration"
                       Second
             /\ trace s2 = [EvLaunch (gcc_of (NewCompiler WORK_DIR)) 30]).
  { eexists _, _. split; [vm_compute; reflexivity|]. split; vm_compute; reflexivity. }
  destruct HC as (cr & s2 & HC & -> & Ht).
  destruct (compile_precedes_run_and_failure_stops_the_request
              W_reject (NewExecutor WORK_DIR) c_source c_state gcc_config
              c_source_present eq_refl eq_refl gcc_config_found _ s2 HC)
    as (_ & _ & Hfail).
  destruct (Hfail eq_refl) as [HE _].
  exists s2. split; [exact HE | exact Ht].
Defined.

Lemma compilers_exit_W_echo : compilers_exit W_echo.
Proof. intros c files _ _. discriminate. Qed.

Lemma temporary_source_is_written_run_and_removed_witness :
  ext_of_language "Python" = Some ".py"%string
  /\ create_err W_echo "/tmp/smollm-sandbox/tmp_1700000000000000000.py" = None
  /\ remove_err W_echo "/tmp/smollm-sandbox/tmp_1700000000000000000.py" = None
  /\ exists r s',
       ExecuteCode W_echo (NewExecutor WORK_DIR) "print('hello')" "Python" empty_state
       = Ret r s'
       /\ fs s' !! "/tmp/smollm-sandbox/tmp_1700000000000000000.py"%string = None.
Proof.
  split; [reflexivity|]. split; [reflexivity|]. split; [reflexivity|].
  destruct (temporary_source_is_written_run_and_removed
              W_echo (NewExecutor WORK_DIR) "print('hello')" "Python" ".py"
              empty_state eq_refl eq_refl) as (_ & Hgone & _ & Hret & _).
  destruct (Hret compilers_exit_W_echo) as (r & s' & HE).
  exists r, s'. split; [exact HE|]. exact (Hgone r s' HE eq_refl).
Defined.

(** * Further properties of the package *)

(** ** [copyFile] between two different paths *)

(** X1. When the source exists, the destination can be created and the
    two paths differ, [copyFile] leaves in the destination the bytes of
    the source with mode 0755, keeps the source as it was, touches no
    other path and adds no event. *)
Theorem copyFile_copies (w : World) (src dst : string) (s : State) (f : File) :
  fs s !! src = Some f ->
  create_err w dst = None ->
  src <> dst ->
  exists s',
    copyFile w src dst s = Ret (Ok tt) s'
    /\ fs s' !! dst = Some {| content := content f; perm := perm_0755 |}
    /\ fs s' !! src = Some f
    /\ (forall k, k <> dst -> fs s' !! k = fs s !! k)
    /\ trace s' = trace s.
Proof.
  intros Hsrc Hcreate Hne.
  rewrite copyFile_done by eauto.
  eexists. split; [reflexivity|]. unfold staged, staged_file. simpl.
  rewrite bool_decide_eq_false_2 by exact Hne. rewrite Hsrc.
  split; [apply lookup_insert_eq|].
  split; [rewrite lookup_insert_ne by congruence; exact Hsrc|].
  split; [|reflexivity].
  intros k Hk. apply lookup_insert_ne. congruence.
Qed.

Lemma copyFile_copies_witness :
  exists s',
    copyFile W_echo job staged_job job_state = Ret (Ok tt) s'
    /\ fs s' !! staged_job
       = Some {| content := "while True: print('a')"; perm := perm_0755 |}
    /\ fs s' !! job = Some {| content := "while True: print('a')"; perm := 420 |}.
Proof.
  destruct (copyFile_copies W_echo job staged_job job_state
              {| content := "while True: print('a')"; perm := 420 |})
    as (s' & HE & Hdst & Hsrc & _).
  - vm_compute. reflexivity.
  - reflexivity.
  - discriminate.
  - exists s'. auto.
Defined.

(** ** The tables of the package *)

Lemma supported_cases (ext : string) :
  ext ∈ supported_exts ->
  ext = ".py"%string \/ ext = ".js"%string \/ ext = ".sh"%string
  \/ ext = ".c"%string \/ ext = ".cpp"%string \/ ext = ".go"%string.
Proof.
  unfold supported_exts. rewrite !elem_of_cons, elem_of_nil. tauto.
Qed.

(** X2. The profile table of the compiler, the [switch] that builds the
    run command and the time-out table of the executor know the same six
    extensions, and [ExecuteFile] sends through the compiler exactly the
    extensions whose profile has [NeedsCompiled]. *)
Theorem tables_know_the_same_extensions (ext x : string) :
  (is_Some (default_configs !! ext) <-> ext ∈ supported_exts)
  /\ (is_Some (run_command ext x) <-> ext ∈ supported_exts)
  /\ (is_Some (executor_timeouts !! ext) <-> ext ∈ supported_exts)
  /\ (forall config, default_configs !! ext = Some config ->
        NeedsCompiled config = needs_compile ext).
Proof.
  destruct (decide (ext ∈ supported_exts)) as [Hin|Hout].
  - apply supported_cases in Hin.
    destruct Hin as [-> | [-> | [-> | [-> | [-> | ->]]]]];
      (split; [split; [intros _; unfold supported_exts; set_solver
                      | intros _; eexists; vm_compute; reflexivity]|]);
      (split; [split; [intros _; unfold supported_exts; set_solver
                      | intros _; eexists; vm_compute; reflexivity]|]);
      (split; [split; [intros _; unfold supported_exts; set_solver
                      | intros _; eexists; vm_compute; reflexivity]|]);
      intros config Hc; vm_compute in Hc; injection Hc as <-; reflexivity.
  - destruct (unsupported_no_route ext x Hout) as [Hn Hr].
    pose proof (unsupported_no_config ext Hout) as Hc.
    assert (Ht : executor_timeouts !! ext = None).
    { unfold executor_timeouts.
      repeat (rewrite lookup_insert_ne;
              [| intros <-; apply Hout; unfold supported_exts; set_solver]).
      apply lookup_empty. }
    rewrite Hc, Hr, Ht.
    repeat split; try (intros [? ?]; discriminate); try contradiction;
      try discriminate.
Qed.

(** X3. The deadline of the run phase of the executor the package builds
    is 60 seconds for the compiled extensions and 30 seconds for every
    other extension, the unknown ones included; in nanoseconds it is a
    positive [int64] that has not wrapped. *)
Theorem run_deadline (dir ext : string) :
  timeout_of (NewExecutor dir) ext
  = (if needs_compile ext then 2 * TIMEOUT_SECONDS else TIMEOUT_SECONDS)
  /\ seconds (timeout_of (NewExecutor dir) ext)
     = timeout_of (NewExecutor dir) ext * Second
  /\ 0 < seconds (timeout_of (NewExecutor dir) ext).
Proof.
  assert (H : timeout_of (NewExecutor dir) ext
              = if needs_compile ext then 2 * TIMEOUT_SECONDS else TIMEOUT_SECONDS).
  { destruct (decide (ext ∈ supported_exts)) as [Hin|Hout].
    - apply supported_cases in Hin.
      destruct Hin as [-> | [-> | [-> | [-> | [-> | ->]]]]]; vm_compute; reflexivity.
    - destruct (unsupported_no_route ext ext Hout) as [-> _].
      unfold timeout_of, NewExecutor, executor_timeouts. simpl.
      repeat (rewrite lookup_insert_ne;
              [| intros <-; apply Hout; unfold supported_exts; set_solver]).
      rewrite lookup_empty. reflexivity. }
  rewrite H. destruct (needs_compile ext); repeat split.
Qed.

(** X4. [getCompilerConfig] looks its argument up without regard to
    letter case and knows the extensions of the compiler's table: it
    fails exactly when the table has no profile for the lower-cased
    extension, and the error carries the extension as it was given; a
    profile it returns has the command, the output flag, the exit-code
    messages and the [NeedsCompiled] flag of the table's profile. *)
Theorem getCompilerConfig_agrees_with_the_table (fileExt : string) :
  match getCompilerConfig fileExt with
  | Ok config =>
      exists config',
        default_configs !! ToLower fileExt = Some config'
        /\ Command config = Command config'
        /\ OutputFlag config = OutputFlag config'
        /\ ErrorCodes config = ErrorCodes config'
        /\ NeedsCompiled config = NeedsCompiled config'
  | Err e =>
      e = ErrUnsupportedFileType fileExt
      /\ default_configs !! ToLower fileExt = None
  end.
Proof.
  destruct (decide (ToLower fileExt ∈ supported_exts)) as [Hin|Hout].
  - apply supported_cases in Hin. unfold getCompilerConfig.
    destruct Hin as [-> | [-> | [-> | [-> | [-> | ->]]]]]; simpl;
      eexists; (split; [vm_compute; reflexivity|]); repeat split.
  - pose proof (unsupported_no_config _ Hout) as Hc.
    unfold getCompilerConfig, str_eqb.
    repeat case_bool_decide;
      try (exfalso; apply Hout; unfold supported_exts;
           match goal with H : ToLower fileExt = _ |- _ => rewrite H end;
           set_solver).
    split; [reflexivity | exact Hc].
Qed.

(** ** What a request returns *)

(** X5. Every result [ExecuteFile] returns names the lower-cased extension
    of the path as its language, is marked compiled exactly for ".c",
    ".cpp" and ".go", has a zero compile time when it is not compiled,
    and never combines success with a non-zero exit code. *)
Theorem result_is_consistent
    (w : World) (e : Executor) (filePath : string) (s s' : State)
    (r : ExecuteResult) :
  ExecuteFile w e filePath s = Ret (Ok r) s' ->
  Language r = ToLower (Ext filePath)
  /\ Compiled r = needs_compile (ToLower (Ext filePath))
  /\ (Compiled r = false -> CompileTime r = 0)
  /\ (Success r = true -> ExitCode r = 0)
  /\ (ExitCode r <> 0 -> Success r = false).
Proof.
  intros H.
  destruct (ExecuteFile_result_shape w e filePath s s' r H)
    as (HL & HC & HT & H1 & H2).
  split; [exact HL|]. split; [exact HC|]. split; [exact HT|].
  split; assumption.
Qed.

Lemma result_is_consistent_witness :
  exists r s',
    ExecuteFile W_build (NewExecutor WORK_DIR) c_source c_state = Ret (Ok r) s'
    /\ Language r = ".c"%string
    /\ Compiled r = true.
Proof.
  assert (H : exists r s',
            ExecuteFile W_build (NewExecutor WORK_DIR) c_source c_state
            = Ret (Ok r) s').
  { eexists _, _. vm_compute. reflexivity. }
  destruct H as (r & s' & H).
  destruct (result_is_consistent _ _ _ _ _ _ H) as (HL & HC & _).
  exists r, s'. split; [exact H|]. split; [exact HL | exact HC].
Defined.

(** X6. In a run phase whose process has started, the result is a success
    exactly when the process exited with status 0 before the deadline and
    its stdout is within the cap; the exit code of the result is the
    status of a process that exited in time with its stdout within the
    cap, and 0 in every other case. *)
Theorem run_succeeds_exactly_when
    (w : World) (e : Executor) (ext path : string) (cr : option CompileResult)
    (s : State) (prog : string) (args : list string) :
  let cmd := {| cmd_path := prog; cmd_args := args;
                cmd_dir := workDir e; cmd_setpgid := true |} in
  let p := spawn w cmd (fs s) in
  let deadline := seconds (timeout_of e ext) in
  run_command ext path = Some (prog, args) ->
  p_start_err p = None ->
  exists r s',
    run_phase w e ext path cr s = Ret (Ok r) s'
    /\ (Success r = true <->
        (exists elapsed, race p deadline = Finished 0 elapsed)
        /\ Len (p_stdout p) <= maxOutputSize e)
    /\ ExitCode r
       = match race p deadline with
         | Finished code _ => if Len (p_stdout p) >? maxOutputSize e then 0 else code
         | DeadlineHit => 0
         end
    /\ Output r = p_stdout p
    /\ Error r = p_stderr p.
Proof.
  intros cmd p deadline Hroute Hstart.
  rewrite (run_phase_started w e ext path cr s prog args Hroute Hstart).
  fold cmd. fold p. fold deadline.
  eexists _, _. split; [reflexivity|]. simpl.
  split; [|split; [|split; reflexivity]].
  - rewrite bool_decide_eq_true. unfold execute_error.
    destruct (Z.gtb_spec (Len (p_stdout p)) (maxOutputSize e)) as [Hgt|Hle].
    + split; [discriminate|]. intros [_ H]. lia.
    + destruct (race p deadline) as [code elapsed|].
      * destruct (Z.eqb_spec code 0) as [->|Hne].
        -- split; [intros _; split; [eauto|exact Hle] | reflexivity].
        -- split; [discriminate|]. intros [[x [= Hc]] _]. contradiction.
      * split; [discriminate|]. intros [[x Hx] _]. discriminate.
  - unfold execute_error.
    destruct (Len (p_stdout p) >? maxOutputSize e);
      destruct (race p deadline) as [code elapsed|]; try reflexivity.
    simpl. destruct (Z.eqb_spec code 0) as [->|_]; reflexivity.
Qed.

Lemma run_succeeds_exactly_when_witness :
  exists r s',
    run_phase W_reject (NewExecutor WORK_DIR) ".py" staged_job None job_state
    = Ret (Ok r) s'
    /\ ExitCode r = 1
    /\ Error r = "prog.c:1:1: error: expected declaration"%string.
Proof.
  destruct (run_succeeds_exactly_when W_reject (NewExecutor WORK_DIR) ".py"
              staged_job None job_state "python3" [staged_job] eq_refl eq_refl)
    as (r & s' & HE & _ & Hcode & _ & Herr).
  exists r, s'. split; [exact HE|]. split; [exact Hcode | exact Herr].
Defined.

(** ** What a request launches and signals *)

Lemma run_phase_events w e ext path cr s :
  exists re,
    trace (state_of (run_phase w e ext path cr s)) = trace s ++ re
    /\ run_events re
    /\ (forall s', run_phase w e ext path cr s <> Hang s').
Proof.
  destruct (run_command ext path) as [[prog args]|] eqn:Hr.
  - set (cmd := {| cmd_path := prog; cmd_args := args;
                   cmd_dir := workDir e; cmd_setpgid := true |}).
    destruct (p_start_err (spawn w cmd (fs s))) as [cause|] eqn:Hs.
    + rewrite (run_phase_not_started w e ext path cr s prog args Hr cause Hs).
      fold cmd. exists [EvLaunchFailed cmd]. split; [reflexivity|].
      split; [|discriminate].
      right. exists cmd. split; [reflexivity|]. left. reflexivity.
    + rewrite (run_phase_started w e ext path cr s prog args Hr Hs).
      fold cmd. simpl. eexists. split; [reflexivity|]. split; [|discriminate].
      right. exists cmd. split; [reflexivity|]. right.
      exists (p_pid (spawn w cmd (fs s))).
      destruct (race _ _); [left|right]; reflexivity.
  - unfold run_phase. rewrite Hr. unfold ret. simpl.
    exists []. split; [symmetry; apply app_nil_r|]. split; [left; reflexivity|].
    discriminate.
Qed.

Lemma Compile_events w c sourcePath s :
  exists ce,
    trace (state_of (Compile w c sourcePath s)) = trace s ++ ce
    /\ compile_events ce
    /\ (forall cr s', Compile w c sourcePath s = Ret (Ok cr) s' ->
          cr_Success cr = true -> exists cc pid, ce = [EvLaunch cc pid])
    /\ (forall s', Compile w c sourcePath s = Hang s' ->
          exists cc pid, ce = [EvLaunch cc pid])
    /\ (forall err s', Compile w c sourcePath s = Ret (Err err) s' ->
          s' = s
          /\ err = ErrUnsupportedFileType (ToLower (Ext sourcePath))
          /\ configs c !! ToLower (Ext sourcePath) = None).
Proof.
  destruct (configs c !! ToLower (Ext sourcePath)) as [config|] eqn:Hc.
  - set (cc := compile_cmd c config sourcePath
                 (compile_output sourcePath (ToLower (Ext sourcePath)))).
    assert (Hpg : cmd_setpgid cc = false).
    { unfold cc, compile_cmd. reflexivity. }
    destruct (p_start_err (spawn w cc (fs s))) as [cause|] eqn:Hs.
    + rewrite (Compile_not_started w c sourcePath s config Hc cause Hs).
      fold cc. exists [EvLaunchFailed cc]. split; [reflexivity|].
      split; [right; exists cc; split; [exact Hpg | left; reflexivity]|].
      split; [|split]; intros; try discriminate.
      inversion H; subst. discriminate.
    + assert (Hshape : compile_events [EvLaunch cc (p_pid (spawn w cc (fs s)))]).
      { right. exists cc. split; [exact Hpg|]. right. eauto. }
      destruct (p_end (spawn w cc (fs s))) as [t code|] eqn:He.
      * destruct (Z.eq_dec code 0) as [->|Hne].
        -- rewrite (Compile_exit_zero w c sourcePath s config Hc Hs t He).
           fold cc.
           exists [EvLaunch cc (p_pid (spawn w cc (fs s)))].
           split; [destruct (NeedsCompiled config);
                   [destruct (p_files _ _ !! _)|]; reflexivity|].
           split; [exact Hshape|].
           split; [eauto|]. split; [eauto|].
           intros err s' H.
           destruct (NeedsCompiled config);
             [destruct (p_files _ _ !! _)|]; discriminate.
        -- rewrite (Compile_exit_nonzero w c sourcePath s config Hc Hs t code He Hne).
           fold cc.
           exists [EvLaunch cc (p_pid (spawn w cc (fs s)))].
           split; [reflexivity|]. split; [exact Hshape|].
           split; [eauto|]. split; [eauto|]. discriminate.
      * rewrite (Compile_blocks w c sourcePath s config Hc Hs He). fold cc.
        exists [EvLaunch cc (p_pid (spawn w cc (fs s)))].
        split; [reflexivity|]. split; [exact Hshape|].
        split; [eauto|]. split; [eauto|]. discriminate.
  - unfold Compile. rewrite Hc. unfold ret. simpl.
    exists []. split; [symmetry; apply app_nil_r|].
    split; [left; reflexivity|].
    split; [discriminate|]. split; [discriminate|].
    intros err s' [= <- <-]. auto.
Qed.

(** X7. Whatever its outcome, a request adds to the trace at most one
    launch of a compiler (a command without a process group of its own)
    followed by at most one launch of a program in its own process group;
    the only signal it ever sends is SIGKILL to the group of the program
    it has started. An interpreted extension launches no compiler, a
    program runs only after a compiler that was started, and a request
    that never returns has launched a compiler and no program. *)
Theorem request_launches_in_order
    (w : World) (e : Executor) (filePath : string) (s : State) :
  exists ce re,
    trace (state_of (ExecuteFile w e filePath s)) = trace s ++ ce ++ re
    /\ compile_events ce
    /\ run_events re
    /\ (needs_compile (ToLower (Ext filePath)) = false -> ce = [])
    /\ (needs_compile (ToLower (Ext filePath)) = true -> re <> [] ->
        exists cc pid, ce = [EvLaunch cc pid])
    /\ (forall s', ExecuteFile w e filePath s = Hang s' ->
        re = [] /\ exists cc pid, ce = [EvLaunch cc pid]).
Proof.
  set (ext := ToLower (Ext filePath)).
  set (tempFile := Join2 (workDir e) (Base filePath)).
  assert (Hnone : forall o : Outcome (Result error ExecuteResult),
             ExecuteFile w e filePath s = o ->
             trace (state_of o) = trace s -> (forall s', o <> Hang s') ->
             exists ce re,
               trace (state_of (ExecuteFile w e filePath s)) = trace s ++ ce ++ re
               /\ compile_events ce /\ run_events re
               /\ (needs_compile ext = false -> ce = [])
               /\ (needs_compile ext = true -> re <> [] ->
                   exists cc pid, ce = [EvLaunch cc pid])
               /\ (forall s', ExecuteFile w e filePath s = Hang s' ->
                   re = [] /\ exists cc pid, ce = [EvLaunch cc pid])).
  { intros o Ho Ht Hh. exists [], []. rewrite Ho, Ht.
    split; [rewrite app_nil_r; reflexivity|].
    split; [left; reflexivity|]. split; [left; reflexivity|].
    split; [reflexivity|]. split; [intros _ Hx; contradiction|].
    intros s' Hs'. exfalso. exact (Hh s' Hs'). }
  destruct (fs s !! filePath) as [f|] eqn:Hf.
  2:{ eapply Hnone; [apply (ExecuteFile_missing w e filePath s Hf)|reflexivity|].
      discriminate. }
  assert (Hp : is_Some (fs s !! filePath)) by eauto.
  destruct (create_err w tempFile) as [cause|] eqn:Hc.
  { eapply Hnone; [apply (ExecuteFile_refused w e filePath s cause Hp Hc)
                  |reflexivity|]. discriminate. }
  clear Hnone.
  destruct (needs_compile ext) eqn:Hn.
  - rewrite (ExecuteFile_compiled w e filePath s Hp Hc Hn).
    fold tempFile. fold ext.
    destruct (Compile_events w (compiler e) tempFile (staged s filePath tempFile))
      as (ce & Hce & Hshape & Hok & Hhang & Herr).
    simpl in Hce.
    destruct (Compile w (compiler e) tempFile (staged s filePath tempFile))
      as [[cr|cause] s2|s2] eqn:HC; simpl in Hce.
    + destruct (cr_Success cr) eqn:Hsucc.
      * destruct (run_phase_events w e ext (cr_OutputFile cr) (Some cr) s2)
          as (re & Hre & Hrshape & Hnohang).
        exists ce, re. rewrite Hre, Hce, <- app_assoc.
        split; [reflexivity|]. split; [exact Hshape|]. split; [exact Hrshape|].
        split; [discriminate|].
        split; [intros _ _; exact (Hok cr s2 eq_refl Hsucc)|].
        intros s' Hs'. exfalso. exact (Hnohang s' Hs').
      * exists ce, []. simpl. rewrite Hce, app_nil_r.
        split; [reflexivity|]. split; [exact Hshape|]. split; [left; reflexivity|].
        split; [discriminate|]. split; [intros _ Hx; contradiction|].
        discriminate.
    + exists ce, []. simpl. rewrite Hce, app_nil_r.
      split; [reflexivity|]. split; [exact Hshape|]. split; [left; reflexivity|].
      split; [discriminate|]. split; [intros _ Hx; contradiction|].
      discriminate.
    + exists ce, []. simpl. rewrite Hce, app_nil_r.
      split; [reflexivity|]. split; [exact Hshape|]. split; [left; reflexivity|].
      split; [discriminate|]. split; [intros _ Hx; contradiction|].
      intros s' _. split; [reflexivity|]. exact (Hhang s2 eq_refl).
  - rewrite (ExecuteFile_interpreted w e filePath s Hp Hc Hn).
    fold tempFile. fold ext.
    destruct (run_phase_events w e ext tempFile None (staged s filePath tempFile))
      as (re & Hre & Hrshape & Hnohang).
    exists [], re. simpl. simpl in Hre. rewrite Hre.
    split; [reflexivity|]. split; [left; reflexivity|]. split; [exact Hrshape|].
    split; [reflexivity|]. split; [discriminate|].
    intros s' Hs'. exfalso. exact (Hnohang s' Hs').
Qed.

(** ** The errors of a request *)

Lemma default_configs_known (ext : string) :
  is_Some (default_configs !! ext) <-> ext ∈ supported_exts.
Proof.
  destruct (decide (ext ∈ supported_exts)) as [Hin|Hout].
  - split; [intros _; exact Hin|]. intros _.
    apply supported_cases in Hin.
    destruct Hin as [-> | [-> | [-> | [-> | [-> | ->]]]]];
      eexists; vm_compute; reflexivity.
  - rewrite (unsupported_no_config ext Hout).
    split; [intros [? ?]; discriminate | contradiction].
Qed.

Lemma run_command_known (ext x : string) :
  is_Some (run_command ext x) <-> ext ∈ supported_exts.
Proof.
  destruct (decide (ext ∈ supported_exts)) as [Hin|Hout].
  - split; [intros _; exact Hin|]. intros _.
    apply supported_cases in Hin.
    destruct Hin as [-> | [-> | [-> | [-> | [-> | ->]]]]];
      eexists; vm_compute; reflexivity.
  - destruct (unsupported_no_route ext x Hout) as [_ ->].
    split; [intros [? ?]; discriminate | contradiction].
Qed.

Lemma needs_compile_supported (ext : string) :
  needs_compile ext = true -> ext ∈ supported_exts.
Proof.
  intros H. destruct (decide (ext ∈ supported_exts)) as [Hin|Hout]; [exact Hin|].
  destruct (unsupported_no_route ext ext Hout) as [Hn _]. congruence.
Qed.

Lemma run_phase_err_inv w e ext path cr s err s' :
  run_phase w e ext path cr s = Ret (Err err) s' ->
  (err = ErrUnsupportedFileType ext /\ (ext ∉ supported_exts) /\ s' = s)
  \/ exists cause c,
       err = ErrStartProcess cause
       /\ cmd_setpgid c = true
       /\ p_start_err (spawn w c (fs s)) = Some cause
       /\ s' = {| fs := fs s; trace := trace s ++ [EvLaunchFailed c] |}.
Proof.
  intros H.
  destruct (run_command ext path) as [[prog args]|] eqn:Hr.
  - set (cmd := {| cmd_path := prog; cmd_args := args;
                   cmd_dir := workDir e; cmd_setpgid := true |}).
    destruct (p_start_err (spawn w cmd (fs s))) as [cause|] eqn:Hs.
    + rewrite (run_phase_not_started w e ext path cr s prog args Hr cause Hs) in H.
      inversion H; subst. right. exists cause, cmd. auto.
    + rewrite (run_phase_started w e ext path cr s prog args Hr Hs) in H.
      discriminate.
  - left. unfold run_phase in H. rewrite Hr in H. inversion H; subst.
    split; [reflexivity|]. split; [|reflexivity].
    intros Hin. apply (run_command_known ext path) in Hin.
    rewrite Hr in Hin. destruct Hin; discriminate.
Qed.

(** The situations in which [ExecuteFile] returns an error. *)
Lemma ExecuteFile_err_inv
    (w : World) (e : Executor) (filePath : string) (s s' : State) (err : error) :
  ExecuteFile w e filePath s = Ret (Err err) s' ->
  let ext := ToLower (Ext filePath) in
  let tempFile := Join2 (workDir e) (Base filePath) in
  (err = ErrFileNotExist filePath /\ fs s !! filePath = None /\ s' = s)
  \/ (exists cause,
        err = ErrCopy cause /\ create_err w tempFile = Some cause /\ s' = s)
  \/ (err = ErrCompile (ErrUnsupportedFileType (ToLower (Ext tempFile)))
      /\ configs (compiler e) !! ToLower (Ext tempFile) = None
      /\ s' = staged s filePath tempFile)
  \/ (err = ErrUnsupportedFileType ext
      /\ (ext ∉ supported_exts)
      /\ s' = staged s filePath tempFile)
  \/ (exists cause c pre,
        err = ErrStartProcess cause
        /\ cmd_setpgid c = true
        /\ trace s' = pre ++ [EvLaunchFailed c]).
Proof.
  intros H ext tempFile.
  destruct (fs s !! filePath) as [f|] eqn:Hf.
  2:{ rewrite (ExecuteFile_missing w e filePath s Hf) in H.
      inversion H; subst. left. auto. }
  assert (Hp : is_Some (fs s !! filePath)) by eauto.
  destruct (create_err w tempFile) as [cause|] eqn:Hc.
  { rewrite (ExecuteFile_refused w e filePath s cause Hp Hc) in H.
    inversion H; subst. right. left. eauto. }
  destruct (needs_compile ext) eqn:Hn.
  - rewrite (ExecuteFile_compiled w e filePath s Hp Hc Hn) in H.
    fold tempFile ext in H.
    destruct (Compile_events w (compiler e) tempFile (staged s filePath tempFile))
      as (_ & _ & _ & _ & _ & Herr).
    destruct (Compile w (compiler e) tempFile (staged s filePath tempFile))
      as [[cr|cause] s2|s2]; [| |discriminate].
    + destruct (cr_Success cr); [|discriminate].
      apply run_phase_err_inv in H as [(_ & Hout & _)|(cause & c & -> & Hpg & _ & ->)].
      * exfalso. apply Hout. apply needs_compile_supported. exact Hn.
      * right. right. right. right. exists cause, c, (trace s2). auto.
    + inversion H; subst.
      destruct (Herr cause s' eq_refl) as (-> & -> & Hnone).
      right. right. left. auto.
  - rewrite (ExecuteFile_interpreted w e filePath s Hp Hc Hn) in H.
    fold tempFile ext in H.
    apply run_phase_err_inv in H as [(-> & Hout & ->)|(cause & c & -> & Hpg & _ & ->)].
    + right. right. right. left. auto.
    + right. right. right. right. exists cause, c, (trace s). auto.
Qed.

(** X8. [ExecuteFile] returns an error in five situations only. The error
    for a missing file means that the file is missing, and nothing has
    happened. The error for a failed copy means that nothing was launched
    and that no path but the staged one has changed. The error of the
    compiler for an extension without a profile and the error for an
    unsupported extension mean that the file has been staged and nothing
    launched. The last one is a program that cannot be started. A compile
    failure, a passed deadline, an oversized output and a non-zero exit
    are results, never errors. *)
Theorem errors_of_a_request
    (w : World) (e : Executor) (filePath : string) (s s' : State) (err : error) :
  ExecuteFile w e filePath s = Ret (Err err) s' ->
  let ext := ToLower (Ext filePath) in
  let tempFile := Join2 (workDir e) (Base filePath) in
  (err = ErrFileNotExist filePath /\ fs s !! filePath = None /\ s' = s)
  \/ (exists cause,
        err = ErrCopy cause
        /\ trace s' = trace s
        /\ forall k, k <> tempFile -> fs s' !! k = fs s !! k)
  \/ (err = ErrCompile (ErrUnsupportedFileType (ToLower (Ext tempFile)))
      /\ configs (compiler e) !! ToLower (Ext tempFile) = None
      /\ s' = staged s filePath tempFile)
  \/ (err = ErrUnsupportedFileType ext
      /\ (ext ∉ supported_exts)
      /\ s' = staged s filePath tempFile)
  \/ (exists cause c pre,
        err = ErrStartProcess cause
        /\ cmd_setpgid c = true
        /\ trace s' = pre ++ [EvLaunchFailed c]).
Proof.
  intros H ext tempFile.
  destruct (ExecuteFile_err_inv w e filePath s s' err H)
    as [H1|[(cause & -> & _ & ->)|[H3|[H4|H5]]]]; auto.
  right. left. exists cause. auto.
Qed.

Lemma errors_of_a_request_witness :
  exists s',
    ExecuteFile W_absent (NewExecutor WORK_DIR) job job_state
    = Ret (Err (ErrStartProcess "executable file not found in $PATH")) s'
    /\ exists c pre, cmd_setpgid c = true /\ trace s' = pre ++ [EvLaunchFailed c].
Proof.
  assert (H : exists s',
            ExecuteFile W_absent (NewExecutor WORK_DIR) job job_state
            = Ret (Err (ErrStartProcess "executable file not found in $PATH")) s').
  { eexists. vm_compute. reflexivity. }
  destruct H as (s' & H). exists s'. split; [exact H|].
  destruct (errors_of_a_request _ _ _ _ _ _ H)
    as [(Hx & _)|[(cause & Hx & _)|[(Hx & _)|[(Hx & _)|(cause & c & pre & _ & Hpg & Ht)]]]];
    try discriminate.
  exists c, pre. auto.
Defined.

(** ** When a compile step succeeds, and what a failed one says *)

(** X9. For a path whose extension has a profile, [Compile] reports a
    success exactly when the compiler started, exited with status 0 and,
    for a profile that needs compiling, left the output file in place;
    the success names the output file and has an empty error text, and
    every failure it returns has an empty output file. *)
Theorem Compile_succeeds_exactly_when
    (w : World) (c : Compiler) (sourcePath : string) (s : State)
    (config : CompilerConfig) :
  let outputFile := compile_output sourcePath (ToLower (Ext sourcePath)) in
  let p := spawn w (compile_cmd c config sourcePath outputFile) (fs s) in
  configs c !! ToLower (Ext sourcePath) = Some config ->
  ((exists cr s', Compile w c sourcePath s = Ret (Ok cr) s' /\ cr_Success cr = true)
   <-> p_start_err p = None
       /\ (exists t, p_end p = Exits t 0)
       /\ (NeedsCompiled config = true -> is_Some (p_files p (fs s) !! outputFile)))
  /\ (forall cr s', Compile w c sourcePath s = Ret (Ok cr) s' ->
        if cr_Success cr
        then cr_OutputFile cr = outputFile /\ cr_Error cr = EmptyString
        else cr_OutputFile cr = EmptyString).
Proof.
  intros outputFile p Hc.
  destruct (p_start_err p) as [cause|] eqn:Hs.
  { rewrite (Compile_not_started w c sourcePath s config Hc cause Hs). split.
    - split; [intros (cr & s' & [= <- <-] & H); discriminate|].
      intros [H _]. discriminate.
    - intros cr s' [= <- <-]. reflexivity. }
  destruct (p_end p) as [t code|] eqn:He.
  - destruct (Z.eq_dec code 0) as [->|Hne].
    + rewrite (Compile_exit_zero w c sourcePath s config Hc Hs t He).
      fold outputFile p.
      destruct (NeedsCompiled config) eqn:Hn.
      * destruct (p_files p (fs s) !! outputFile) as [f|] eqn:Hout.
        -- split.
           ++ split; [intros _; eauto|]. intros _. eexists _, _. split; reflexivity.
           ++ intros cr s' [= <- <-]. split; reflexivity.
        -- split.
           ++ split; [intros (cr & s' & [= <- <-] & H); discriminate|].
              intros (_ & _ & H). destruct (H eq_refl); discriminate.
           ++ intros cr s' [= <- <-]. reflexivity.
      * split.
        -- split; [intros _; split; [reflexivity|]; split; [eauto|discriminate]|].
           intros _. eexists _, _. split; reflexivity.
        -- intros cr s' [= <- <-]. split; reflexivity.
    + rewrite (Compile_exit_nonzero w c sourcePath s config Hc Hs t code He Hne).
      split.
      * split; [intros (cr & s' & [= <- <-] & H); discriminate|].
        intros (_ & [t' [= _ Hcode]] & _). contradiction.
      * intros cr s' [= <- <-]. reflexivity.
  - rewrite (Compile_blocks w c sourcePath s config Hc Hs He). split.
    + split; [intros (cr & s' & H & _); discriminate|].
      intros (_ & [t' H] & _). discriminate.
    + intros cr s' H. discriminate.
Qed.

Lemma Compile_succeeds_exactly_when_witness :
  configs (NewCompiler WORK_DIR) !! ToLower (Ext staged_c) = Some gcc_config
  /\ exists cr s',
       Compile W_build (NewCompiler WORK_DIR) staged_c staged_c_state = Ret (Ok cr) s'
       /\ cr_Success cr = true
       /\ cr_OutputFile cr = "/tmp/smollm-sandbox/prog.out"%string.
Proof.
  split; [exact gcc_config_found|].
  destruct (Compile_succeeds_exactly_when W_build (NewCompiler WORK_DIR) staged_c
              staged_c_state gcc_config gcc_config_found) as [[_ Hif] Hshape].
  destruct Hif as (cr & s' & HC & Hok).
  - split; [reflexivity|]. split; [exists (2 * Second); reflexivity|].
    intros _. eexists. vm_compute. reflexivity.
  - exists cr, s'. split; [exact HC|]. split; [exact Hok|].
    specialize (Hshape cr s' HC). rewrite Hok in Hshape. apply Hshape.
Defined.

Lemma default_error_codes (ext : string) (config : CompilerConfig) :
  default_configs !! ext = Some config ->
  exists msg, ErrorCodes config = {[1 := msg]} /\ msg <> EmptyString.
Proof.
  intros H.
  assert (Hin : ext ∈ supported_exts).
  { destruct (decide (ext ∈ supported_exts)) as [Hin|Hout]; [exact Hin|].
    rewrite (unsupported_no_config ext Hout) in H. discriminate. }
  apply supported_cases in Hin.
  destruct Hin as [-> | [-> | [-> | [-> | [-> | ->]]]]];
    vm_compute in H; injection H as <-; eexists; (split; [reflexivity|discriminate]).
Qed.

(** X10. With the profiles of the package, a compiler that exits with
    status 1 makes [Compile] return a failure whose text is the message of
    the profile, ": " and the stderr of the compiler; for every other
    non-zero status (a signal is -1) the text is the stderr alone, empty
    when the compiler wrote nothing. *)
Theorem compile_failure_text
    (w : World) (dir sourcePath : string) (s : State) (config : CompilerConfig)
    (t code : Z) :
  let c := NewCompiler dir in
  let outputFile := compile_output sourcePath (ToLower (Ext sourcePath)) in
  let p := spawn w (compile_cmd c config sourcePath outputFile) (fs s) in
  configs c !! ToLower (Ext sourcePath) = Some config ->
  p_start_err p = None ->
  p_end p = Exits t code ->
  code <> 0 ->
  exists msg cr s',
    ErrorCodes config !! 1 = Some msg
    /\ msg <> EmptyString
    /\ Compile w c sourcePath s = Ret (Ok cr) s'
    /\ cr_Success cr = false
    /\ cr_CompileTime cr = t
    /\ cr_Error cr = (if code =? 1 then msg +:+ ": " +:+ p_stderr p else p_stderr p).
Proof.
  intros c outputFile p Hc Hs He Hne.
  destruct (default_error_codes _ _ Hc) as (msg & Hcodes & Hmsg).
  rewrite (Compile_exit_nonzero w c sourcePath s config Hc Hs t code He Hne).
  fold outputFile p. rewrite Hcodes.
  exists msg. eexists _, _. split; [apply lookup_singleton_eq|].
  split; [exact Hmsg|]. split; [reflexivity|]. simpl.
  split; [reflexivity|]. split; [reflexivity|].
  destruct (Z.eqb_spec code 1) as [->|Hne1].
  - rewrite lookup_singleton_eq. reflexivity.
  - rewrite lookup_singleton_ne by congruence. reflexivity.
Qed.

Lemma compile_failure_text_witness :
  configs (NewCompiler WORK_DIR) !! ToLower (Ext staged_c) = Some gcc_config
  /\ exists cr s',
       Compile W_reject (NewCompiler WORK_DIR) staged_c staged_c_state = Ret (Ok cr) s'
       /\ cr_Error cr
          = "Ошибка компиляции C: prog.c:1:1: error: expected declaration"%string.
Proof.
  split; [exact gcc_config_found|].
  destruct (compile_failure_text W_reject WORK_DIR staged_c staged_c_state
              gcc_config Second 1 gcc_config_found eq_refl eq_refl)
    as (msg & cr & s' & Hmsg & _ & HC & _ & _ & Herr).
  - discriminate.
  - exists cr, s'. split; [exact HC|]. rewrite Herr.
    vm_compute in Hmsg. injection Hmsg as <-. reflexivity.
Defined.

(** ** [SetResourceLimits] and [GetTimeout] *)

(** X11. After [SetResourceLimits] on a new environment, [GetTimeout]
    answers the new time-out for ".py", ".js", ".go", ".c" and ".cpp" and
    still 30 for every other extension, ".sh" and upper-case spellings
    included; and the call changes nothing in what [Execute] and
    [ExecuteCode] do, which use the executor's own table. *)
Theorem SetResourceLimits_reaches_GetTimeout_only
    (w : World) (cpu mem t : Z) (ext : string) :
  let env := SetResourceLimits NewEnvironment cpu mem t in
  GetTimeout env ext = (if bool_decide (ext ∈ environment_exts) then t
                        else TIMEOUT_SECONDS)
  /\ (forall filename s, Execute w env filename s = Execute w NewEnvironment filename s)
  /\ (forall code language s,
        Environment_ExecuteCode w env code language s
        = Environment_ExecuteCode w NewEnvironment code language s)
  /\ (forall x, timeout_of (executor env) x = timeout_of (NewExecutor WORK_DIR) x).
Proof.
  intros env. split; [|repeat split].
  unfold GetTimeout, env_timeout_of, env, SetResourceLimits. simpl.
  rewrite lookup_fmap. case_bool_decide as Hin.
  - apply environment_timeouts_keys in Hin as [t0 ->]. reflexivity.
  - destruct (environment_timeouts !! ext) as [t0|] eqn:Ht; [|reflexivity].
    exfalso. apply Hin. apply environment_timeouts_keys. eauto.
Qed.

(** ** [ExecuteCode] and the advertised languages *)

Lemma ext_of_language_case (l l' : string) :
  same_letters l l' -> ext_of_language l = ext_of_language l'.
Proof.
  intros H. unfold ext_of_language. rewrite (same_letters_ToLower _ _ H).
  reflexivity.
Qed.

(** X12. Every language [GetSupportedLanguages] advertises is accepted by
    [ExecuteCode] in any letter case, and every extension [ExecuteCode]
    derives from a language is one [ExecuteFile] can run: it has a run
    command and a compiler profile. *)
Theorem advertised_languages_are_accepted :
  (forall l l', l ∈ GetSupportedLanguages -> same_letters l l' ->
                is_Some (ext_of_language l'))
  /\ (forall l ext x, ext_of_language l = Some ext ->
        ext ∈ supported_exts
        /\ is_Some (run_command ext x)
        /\ is_Some (default_configs !! ext)).
Proof.
  split.
  - intros l l' Hin Hsame. rewrite <- (ext_of_language_case l l' Hsame).
    unfold GetSupportedLanguages in Hin.
    rewrite !elem_of_cons, elem_of_nil in Hin.
    destruct Hin as [-> | [-> | [-> | [-> | [-> | [-> | []]]]]]];
      eexists; vm_compute; reflexivity.
  - intros l ext x H.
    assert (Hin : ext ∈ supported_exts).
    { unfold ext_of_language in H.
      repeat (match type of H with
              | (if ?b then _ else _) = _ => destruct b
              end; [injection H as <-; unfold supported_exts; set_solver|]).
      discriminate. }
    split; [exact Hin|]. split; [apply run_command_known; exact Hin|].
    apply supported_cases in Hin.
    destruct Hin as [-> | [-> | [-> | [-> | [-> | ->]]]]];
      eexists; vm_compute; reflexivity.
Qed.

Lemma advertised_languages_are_accepted_witness :
  "c++"%string ∈ GetSupportedLanguages
  /\ same_letters "c++" "C++"
  /\ is_Some (ext_of_language "C++")
  /\ ext_of_language "golang" = Some ".go"%string
  /\ ".go"%string ∈ supported_exts.
Proof.
  assert (Hin : "c++"%string ∈ GetSupportedLanguages).
  { unfold GetSupportedLanguages. set_solver. }
  assert (Hsame : same_letters "c++" "C++").
  { repeat (constructor;
            [first [left; reflexivity
                   | right; left; split; reflexivity
                   | right; right; split; reflexivity]|]).
    constructor. }
  destruct advertised_languages_are_accepted as [H1 H2].
  split; [exact Hin|]. split; [exact Hsame|].
  split; [exact (H1 _ _ Hin Hsame)|]. split; [reflexivity|].
  exact (proj1 (H2 "golang"%string ".go"%string EmptyString eq_refl)).
Defined.

(** ** [CheckFileSecurity] *)

Lemma supportedExts_values (ext : string) (b : bool) :
  supportedExts !! ext = Some b -> b = true.
Proof.
  unfold supportedExts. simpl.
  repeat (rewrite lookup_insert; case_decide; [congruence|]).
  rewrite lookup_empty. discriminate.
Qed.

Lemma supportedExts_keys (ext : string) :
  default false (supportedExts !! ext) = true
  <-> ext ∈ supported_exts \/ ext ∈ data_exts.
Proof.
  unfold supported_exts, data_exts. rewrite !elem_of_cons, !elem_of_nil.
  split.
  - unfold supportedExts. simpl.
    repeat (rewrite lookup_insert; case_decide; [subst; tauto|]).
    rewrite lookup_empty. discriminate.
  - intros [[-> | [-> | [-> | [-> | [-> | [-> | []]]]]]]
           | [-> | [-> | [-> | [-> | []]]]]]; vm_compute; reflexivity.
Qed.

(** X13. [CheckFileSecurity] always returns, never changes the file
    system, and adds to the trace nothing but warnings about the file. It
    accepts the file exactly when the file exists, holds at most 10 MiB
    and has, in lower case, one of the six runnable extensions or ".txt",
    ".md", ".json", ".csv": what the file holds never makes it refuse.
    For an accepted file the warnings are the listed patterns that occur
    in the lower-cased content, where U+212A counts as k and U+0130 as i. *)
Theorem CheckFileSecurity_only_warns (filename : string) (s : State) :
  exists res s' warned,
    CheckFileSecurity filename s = Ret res s'
    /\ fs s' = fs s
    /\ trace s' = trace s ++ map (EvWarn filename) warned
    /\ (res = None <->
        exists f, fs s !! filename = Some f
                  /\ Len (content f) <= 10485760
                  /\ (ToLower (Ext filename) ∈ supported_exts
                      \/ ToLower (Ext filename) ∈ data_exts))
    /\ (forall f, fs s !! filename = Some f ->
          forall pat,
            pat ∈ warned <->
            res = None /\ pat ∈ suspiciousPatterns
            /\ Contains (ToLower (content f)) pat = true).
Proof.
  assert (HE : CheckFileSecurity filename s
               = match fs s !! filename with
                 | None => Ret (Some (ErrFileNotExist filename)) s
                 | Some f =>
                     if Len (content f) >? 10485760
                     then Ret (Some (ErrFileTooLarge (Len (content f)) 10485760)) s
                     else if negb (default false
                                     (supportedExts !! ToLower (Ext filename)))
                     then Ret (Some (ErrUnsupportedFileType
                                       (ToLower (Ext filename)))) s
                     else Ret None
                            {| fs := fs s;
                               trace := trace s ++
                                 map (EvWarn filename)
                                   (List.filter (Contains (ToLower (content f)))
                                      suspiciousPatterns) |}
                 end).
  { unfold CheckFileSecurity, bind, Stat, os_Stat_size, os_ReadFile, ret.
    destruct (fs s !! filename) as [f|] eqn:Hf.
    2:{ rewrite bool_decide_eq_false_2 by (intros [? ?]; discriminate).
        reflexivity. }
    rewrite bool_decide_eq_true_2 by eauto. cbn [negb]. rewrite Hf.
    change (10 * 1024 * 1024) with 10485760.
    destruct (Len (content f) >? 10485760); [reflexivity|].
    destruct (negb _); [reflexivity|]. rewrite Hf. reflexivity. }
  rewrite HE. clear HE.
  destruct (fs s !! filename) as [f|] eqn:Hf.
  - destruct (Z.gtb_spec (Len (content f)) 10485760) as [Hbig|Hsmall].
    + eexists _, _, []. split; [reflexivity|]. split; [reflexivity|].
      split; [symmetry; apply app_nil_r|]. split.
      * split; [discriminate|]. intros (f' & [= <-] & Hle & _). lia.
      * intros f' _ pat. split; [intros H; by apply elem_of_nil in H|].
        intros [H _]. discriminate.
    + destruct (default false (supportedExts !! ToLower (Ext filename))) eqn:Hext;
        cbn [negb].
      * eexists _, _, _. split; [reflexivity|]. split; [reflexivity|].
        split; [reflexivity|]. split.
        -- split; [|reflexivity]. intros _. exists f.
           split; [reflexivity|]. split; [exact Hsmall|].
           apply supportedExts_keys. exact Hext.
        -- intros f' [= <-] pat. rewrite list_elem_of_In, filter_In.
           rewrite <- list_elem_of_In. tauto.
      * eexists _, _, []. split; [reflexivity|]. split; [reflexivity|].
        split; [symmetry; apply app_nil_r|]. split.
        -- split; [discriminate|]. intros (f' & _ & _ & Hk).
           apply supportedExts_keys in Hk. congruence.
        -- intros f' _ pat. split; [intros H; by apply elem_of_nil in H|].
           intros [H _]. discriminate.
  - eexists _, _, []. split; [reflexivity|]. split; [reflexivity|].
    split; [symmetry; apply app_nil_r|]. split.
    + split; [discriminate|]. intros (f' & [=] & _).
    + intros f' [=].
Qed.

(** ** [CleanupTempFiles] *)

Lemma lookup_fold_delete (l : list string) (m : gmap string File) (k : string) :
  fold_right (fun p m => delete p m) m l !! k
  = if bool_decide (k ∈ l) then None else m !! k.
Proof.
  induction l as [|a l IH].
  - rewrite bool_decide_eq_false_2 by apply not_elem_of_nil. reflexivity.
  - change (fold_right (fun p m => delete p m) m (a :: l))
      with (delete a (fold_right (fun p m => delete p m) m l)).
    destruct (decide (a = k)) as [->|Hne].
    + rewrite lookup_delete_eq.
      rewrite bool_decide_eq_true_2 by apply list_elem_of_here. reflexivity.
    + rewrite lookup_delete_ne by exact Hne. rewrite IH.
      destruct (decide (k ∈ l)) as [Hin|Hout].
      * rewrite (bool_decide_eq_true_2 (k ∈ l)) by exact Hin.
        rewrite (bool_decide_eq_true_2 (k ∈ a :: l))
          by (apply list_elem_of_further; exact Hin).
        reflexivity.
      * rewrite (bool_decide_eq_false_2 (k ∈ l)) by exact Hout.
        rewrite (bool_decide_eq_false_2 (k ∈ a :: l)); [reflexivity|].
        rewrite elem_of_cons. intros [->|?]; contradiction.
Qed.

Lemma elem_of_keys (m : gmap string File) (k : string) :
  k ∈ map fst (map_to_list m) <-> is_Some (m !! k).
Proof.
  rewrite list_elem_of_In, in_map_iff. split.
  - intros ([k' f] & <- & Hin). apply list_elem_of_In, elem_of_map_to_list in Hin.
    simpl. eauto.
  - intros [f Hf]. exists (k, f). split; [reflexivity|].
    apply list_elem_of_In, elem_of_map_to_list. exact Hf.
Qed.

(** What [CleanupTempFiles] returns and leaves. *)
Lemma temp_entry_in_dir (dir p : string) :
  is_temp_entry dir p = true -> HasPrefix p (dir +:+ "/") = true.
Proof.
  unfold is_temp_entry, entry_of.
  destruct (HasPrefix p (dir +:+ "/")); [reflexivity | discriminate].
Qed.

Lemma ReadDir_err_no_entry w dir files cause p :
  ReadDir_err w dir files = Some cause ->
  is_temp_entry dir p = true -> files !! p = None.
Proof.
  unfold ReadDir_err. intros H Ht.
  destruct (existsb _ _) eqn:He; [discriminate|].
  destruct (files !! p) as [f|] eqn:Hf; [|reflexivity]. exfalso.
  assert (Hin : In p (map fst (map_to_list files))).
  { apply list_elem_of_In, elem_of_keys. rewrite Hf. eauto. }
  assert (Hex : existsb (fun q => HasPrefix q (dir +:+ "/"))
                  (map fst (map_to_list files)) = true).
  { apply existsb_exists. exists p. split; [exact Hin|].
    apply temp_entry_in_dir. exact Ht. }
  congruence.
Qed.

Lemma CleanupTempFiles_outcome
    (w : World) (env : Environment) (s : State) :
  exists res s',
    CleanupTempFiles w env s = Ret res s'
    /\ trace s' = trace s
    /\ (forall p,
          fs s' !! p
          = if (is_temp_entry (env_workDir env) p
                && bool_decide (remove_err w p = None))%bool
            then None else fs s !! p)
    /\ (res = None <->
        ReadDir_err w (env_workDir env) (fs s) = None
        /\ forall p, is_Some (fs s !! p) ->
                     is_temp_entry (env_workDir env) p = true ->
                     remove_err w p = None)
    /\ (forall cause, res = Some (ErrReadDir cause) <->
                      ReadDir_err w (env_workDir env) (fs s) = Some cause).
Proof.
  unfold CleanupTempFiles, bind, get_fs.
  destruct (ReadDir_err w (env_workDir env) (fs s)) as [cause|] eqn:Hrd.
  { eexists _, _. split; [reflexivity|]. split; [reflexivity|]. split; [|split].
    - intros p. destruct (is_temp_entry (env_workDir env) p) eqn:Ht; [|reflexivity].
      rewrite (ReadDir_err_no_entry _ _ _ _ _ Hrd Ht).
      destruct (bool_decide _); reflexivity.
    - split; [discriminate | intros [? _]; discriminate].
    - intros c. split; intros H; inversion H; reflexivity. }
  unfold put_fs.
  set (victims := List.filter _ (map fst (map_to_list (fs s)))).
  set (failed := List.filter _ victims).
  set (removed := List.filter _ victims).
  assert (Hvict : forall p, p ∈ victims <->
                    is_Some (fs s !! p) /\ is_temp_entry (env_workDir env) p = true).
  { intros p. unfold victims. rewrite list_elem_of_In, filter_In, <- list_elem_of_In.
    rewrite elem_of_keys. reflexivity. }
  assert (Hrem : forall p, p ∈ removed <-> p ∈ victims /\ remove_err w p = None).
  { intros p. unfold removed. rewrite list_elem_of_In, filter_In, <- list_elem_of_In.
    destruct (remove_err w p) as [m|].
    - rewrite bool_decide_eq_true_2 by eauto. simpl. split; intros [? ?]; discriminate.
    - rewrite bool_decide_eq_false_2 by (intros [? ?]; discriminate). tauto. }
  assert (Hfail : forall p, p ∈ failed <-> p ∈ victims /\ remove_err w p <> None).
  { intros p. unfold failed. rewrite list_elem_of_In, filter_In, <- list_elem_of_In.
    destruct (remove_err w p) as [m|].
    - rewrite bool_decide_eq_true_2 by eauto. split; intros [? _]; split; auto.
    - rewrite bool_decide_eq_false_2 by (intros [? ?]; discriminate).
      split; intros [? ?]; [discriminate|contradiction]. }
  assert (Hfs : forall p,
            fold_right (fun p m => delete p m) (fs s) removed !! p
            = if (is_temp_entry (env_workDir env) p
                  && bool_decide (remove_err w p = None))%bool
              then None else fs s !! p).
  { intros p. rewrite lookup_fold_delete.
    destruct (decide (p ∈ removed)) as [Hin|Hout].
    - rewrite bool_decide_eq_true_2 by exact Hin.
      apply Hrem in Hin as [Hv Hn]. apply Hvict in Hv as [_ Ht].
      rewrite Ht, bool_decide_eq_true_2 by exact Hn. reflexivity.
    - rewrite bool_decide_eq_false_2 by exact Hout.
      destruct (is_temp_entry (env_workDir env) p) eqn:Ht; [|reflexivity].
      case_bool_decide as Hn; [|reflexivity]. simpl.
      destruct (fs s !! p) as [f|] eqn:Hf; [|reflexivity].
      exfalso. apply Hout. apply Hrem. split; [|exact Hn].
      apply Hvict. split; [rewrite Hf; eauto | exact Ht]. }
  assert (Hres : failed = [] <->
            forall p, is_Some (fs s !! p) ->
                      is_temp_entry (env_workDir env) p = true ->
                      remove_err w p = None).
  { split.
    - intros Hnil p Hp Ht.
      destruct (remove_err w p) as [m|] eqn:Hr; [|reflexivity].
      assert (Hin : p ∈ failed).
      { apply Hfail. split; [apply Hvict; auto|]. rewrite Hr. discriminate. }
      rewrite Hnil in Hin. by apply elem_of_nil in Hin.
    - intros Hall. apply elem_of_nil_inv. intros p Hin.
      apply Hfail in Hin as [Hv Hn]. apply Hvict in Hv as [Hp Ht].
      apply Hn. exact (Hall p Hp Ht). }
  destruct failed as [|p0 rest] eqn:Hfd.
  - eexists _, _. split; [reflexivity|]. simpl.
    split; [reflexivity|]. split; [exact Hfs|]. split.
    + split; [intros _; split; [reflexivity | apply Hres; reflexivity] | reflexivity].
    + intros c. split; discriminate.
  - eexists _, _. split; [reflexivity|]. simpl.
    split; [reflexivity|]. split; [exact Hfs|]. split.
    + split; [discriminate|]. intros [_ Hall]. apply Hres in Hall. discriminate.
    + intros c. split; discriminate.
Qed.

(** X14. [CleanupTempFiles] always returns and adds no event. When the
    working directory cannot be read it returns the error of the reading
    and removes nothing. Afterwards a path is absent when it is an entry
    of the working directory whose name starts with "tmp_" and whose
    removal does not fail; every other path holds what it held, so files
    outside the working directory, in its subdirectories or with another
    name are never touched. The call reports no error exactly when the
    directory could be read and no removal of a selected file failed. *)
Theorem CleanupTempFiles_removes_the_temporary_entries
    (w : World) (env : Environment) (s : State) :
  exists res s',
    CleanupTempFiles w env s = Ret res s'
    /\ trace s' = trace s
    /\ (forall p,
          fs s' !! p
          = if (is_temp_entry (env_workDir env) p
                && bool_decide (remove_err w p = None))%bool
            then None else fs s !! p)
    /\ (res = None <->
        ReadDir_err w (env_workDir env) (fs s) = None
        /\ forall p, is_Some (fs s !! p) ->
                     is_temp_entry (env_workDir env) p = true ->
                     remove_err w p = None)
    /\ (forall cause, res = Some (ErrReadDir cause) <->
                      ReadDir_err w (env_workDir env) (fs s) = Some cause).
Proof. apply CleanupTempFiles_outcome. Qed.

(** ** Extensions, suffixes and the name of the artifact *)

Lemma append_empty_r (a : string) : a +:+ EmptyString = a.
Proof.
  induction a as [|x a IH]; [reflexivity|].
  rewrite append_cons. f_equal. exact IH.
Qed.

Lemma chars_append (a b : string) : chars (a +:+ b) = chars a ++ chars b.
Proof.
  unfold chars. induction a as [|x a IH]; [reflexivity|].
  rewrite append_cons. simpl. f_equal. exact IH.
Qed.

Lemma string_of_app (l1 l2 : list ascii) :
  string_of_list_ascii (l1 ++ l2)
  = string_of_list_ascii l1 +:+ string_of_list_ascii l2.
Proof.
  induction l1 as [|x l1 IH]; [reflexivity|].
  simpl. rewrite append_cons. f_equal. exact IH.
Qed.

Lemma string_of_chars (s : string) : string_of_list_ascii (chars s) = s.
Proof. apply string_of_list_ascii_of_string. Qed.

Lemma chars_of_string (l : list ascii) : chars (string_of_list_ascii l) = l.
Proof. apply list_ascii_of_string_of_list_ascii. Qed.

Lemma rev_string_append (a b : string) :
  rev_string (a +:+ b) = rev_string b +:+ rev_string a.
Proof.
  unfold rev_string. fold (chars (a +:+ b)) (chars a) (chars b).
  rewrite chars_append, rev_app_distr. apply string_of_app.
Qed.

Lemma rev_string_involutive (a : string) : rev_string (rev_string a) = a.
Proof.
  unfold rev_string. fold (chars a).
  fold (chars (string_of_list_ascii (rev (chars a)))).
  rewrite chars_of_string, rev_involutive. apply string_of_chars.
Qed.

Lemma HasPrefix_iff (s p : string) :
  HasPrefix s p = true <-> exists t, s = p +:+ t.
Proof.
  revert s. induction p as [|a p IH]; intros s.
  - split; [intros _; exists s; reflexivity | intros _; destruct s; reflexivity].
  - destruct s as [|b s]; simpl.
    + split; [discriminate|]. intros [t Ht]. rewrite append_cons in Ht. discriminate.
    + destruct (Ascii.eqb_spec a b) as [->|Hne].
      * rewrite IH. split; intros [t Ht]; exists t.
        -- rewrite append_cons, Ht. reflexivity.
        -- rewrite append_cons in Ht. injection Ht as ->. reflexivity.
      * split; [discriminate|]. intros [t Ht]. rewrite append_cons in Ht.
        injection Ht as -> _. contradiction.
Qed.

Lemma HasSuffix_iff (s suf : string) :
  HasSuffix s suf = true <-> exists stem, s = stem +:+ suf.
Proof.
  unfold HasSuffix. rewrite HasPrefix_iff. split.
  - intros [t Ht]. exists (rev_string t).
    rewrite <- (rev_string_involutive s), Ht, rev_string_append,
      rev_string_involutive. reflexivity.
  - intros [stem ->]. exists (rev_string stem). apply rev_string_append.
Qed.

Lemma substring_prefix (a b : string) :
  String.substring 0 (String.length a) (a +:+ b) = a.
Proof.
  induction a as [|x a IH].
  - destruct b; reflexivity.
  - rewrite append_cons. simpl. f_equal. exact IH.
Qed.

Lemma TrimSuffix_append (stem suf : string) : TrimSuffix (stem +:+ suf) suf = stem.
Proof.
  unfold TrimSuffix.
  rewrite (proj2 (HasSuffix_iff (stem +:+ suf) suf)) by eauto.
  rewrite append_length.
  replace (String.length stem + String.length suf - String.length suf)%nat
    with (String.length stem) by lia.
  apply substring_prefix.
Qed.

Lemma TrimSuffix_other (s suf : string) :
  (forall stem, s <> stem +:+ suf) -> TrimSuffix s suf = s.
Proof.
  intros H. unfold TrimSuffix.
  destruct (HasSuffix s suf) eqn:Hs; [|reflexivity].
  apply HasSuffix_iff in Hs as [stem ->]. exfalso. exact (H stem eq_refl).
Qed.

Lemma is_dot_true (c : ascii) : is_dot c = true -> c = "."%char.
Proof. unfold is_dot. intros H. apply Ascii.eqb_eq in H. exact H. Qed.

(** The scan of [filepath.Ext] finds nothing, or the last dot of the last
    element. *)
Lemma ext_scan_spec (r acc : list ascii) :
  ext_scan r acc = []
  \/ exists r1 r2, r = r1 ++ "."%char :: r2
                   /\ ext_scan r acc = "."%char :: rev r1 ++ acc.
Proof.
  revert acc. induction r as [|c r IH]; intros acc; simpl.
  - left. reflexivity.
  - destruct (is_sep c); [left; reflexivity|].
    destruct (is_dot c) eqn:Hd.
    + apply is_dot_true in Hd as ->. right. exists [], r. split; reflexivity.
    + destruct (IH (c :: acc)) as [H|(r1 & r2 & -> & H)]; [left; exact H|].
      right. exists (c :: r1), r2. split; [reflexivity|].
      rewrite H. simpl. rewrite <- app_assoc. reflexivity.
Qed.

(** A path is a stem followed by its extension. *)
Lemma Ext_is_a_suffix (p : string) : exists stem, p = stem +:+ Ext p.
Proof.
  unfold Ext. destruct (ext_scan_spec (rev (list_ascii_of_string p)) [])
    as [->|(r1 & r2 & Hr & ->)].
  - exists p. symmetry. apply append_empty_r.
  - exists (string_of_list_ascii (rev r2)).
    rewrite app_nil_r, <- string_of_app.
    rewrite <- (string_of_chars p) at 1. f_equal.
    unfold chars. rewrite <- (rev_involutive (list_ascii_of_string p)), Hr.
    rewrite rev_app_distr. simpl. rewrite <- app_assoc. reflexivity.
Qed.

(** The extension of a path that ends in one of the compiled extensions
    in lower case is that extension. *)
Lemma Ext_of_compiled_suffix (stem ext : string) :
  needs_compile ext = true -> Ext (stem +:+ ext) = ext.
Proof.
  intros H.
  assert (Hc : ext = ".c"%string \/ ext = ".cpp"%string \/ ext = ".go"%string).
  { unfold needs_compile, str_eqb in H.
    repeat case_bool_decide; auto; discriminate. }
  unfold Ext. fold (chars (stem +:+ ext)). rewrite chars_append, rev_app_distr.
  destruct Hc as [-> | [-> | ->]]; reflexivity.
Qed.

(** X15. The artifact [Compile] names for a source with a compiled
    extension. When the extension is written in lower case, the artifact
    is the path without the extension, plus ".out" for C and C++, and so
    differs from the source. When it is not in lower case, nothing is
    stripped: the artifact is the whole source path plus ".out" for C and
    C++, and for Go it is the source path itself. *)
Theorem artifact_of_a_source (p : string) :
  let ext := ToLower (Ext p) in
  let out := compile_output p ext in
  let tail := if (str_eqb ext ".c" || str_eqb ext ".cpp")%bool
              then ".out"%string else EmptyString in
  needs_compile ext = true ->
  (Ext p = ext -> exists stem, p = stem +:+ ext /\ out = stem +:+ tail /\ out <> p)
  /\ (Ext p <> ext -> out = p +:+ tail /\ (ext = ".go"%string -> out = p)).
Proof.
  intros ext out tail Hn. split.
  - intros Heq. destruct (Ext_is_a_suffix p) as [stem Hp]. rewrite Heq in Hp.
    exists stem. split; [exact Hp|].
    assert (Hout : out = stem +:+ tail).
    { pose proof (TrimSuffix_append stem ext) as Ht. rewrite <- Hp in Ht.
      unfold out, compile_output, tail. rewrite Ht.
      destruct (str_eqb ext ".c" || str_eqb ext ".cpp")%bool; [reflexivity|].
      symmetry. apply append_empty_r. }
    split; [exact Hout|]. rewrite Hout, Hp. intros Habs.
    apply (inj (String.append stem)) in Habs.
    assert (Hc : ext = ".c"%string \/ ext = ".cpp"%string \/ ext = ".go"%string).
    { unfold needs_compile, str_eqb in Hn.
      repeat case_bool_decide; auto; discriminate. }
    unfold tail in Habs. destruct Hc as [Hc | [Hc | Hc]]; rewrite Hc in Habs;
      vm_compute in Habs; discriminate.
  - intros Hne.
    assert (Htrim : TrimSuffix p ext = p).
    { apply TrimSuffix_other. intros stem Hp. apply Hne.
      rewrite Hp at 1. apply Ext_of_compiled_suffix. exact Hn. }
    assert (Hout : out = p +:+ tail).
    { unfold out, compile_output, tail. rewrite Htrim.
      destruct (str_eqb ext ".c" || str_eqb ext ".cpp")%bool; [reflexivity|].
      symmetry. apply append_empty_r. }
    split; [exact Hout|]. intros Hgo. rewrite Hout. unfold tail. rewrite Hgo.
    apply append_empty_r.
Qed.

Lemma artifact_of_a_source_witness :
  needs_compile (ToLower (Ext "/w/Main.GO")) = true
  /\ Ext "/w/Main.GO" <> ToLower (Ext "/w/Main.GO")
  /\ compile_output "/w/Main.GO" (ToLower (Ext "/w/Main.GO")) = "/w/Main.GO"%string
  /\ needs_compile (ToLower (Ext "/w/main.c")) = true
  /\ Ext "/w/main.c" = ToLower (Ext "/w/main.c")
  /\ compile_output "/w/main.c" (ToLower (Ext "/w/main.c")) <> "/w/main.c"%string.
Proof.
  split; [reflexivity|]. split; [discriminate|].
  destruct (artifact_of_a_source "/w/Main.GO" eq_refl) as [_ H1].
  destruct (H1 ltac:(discriminate)) as [_ Hgo].
  split; [exact (Hgo eq_refl)|].
  split; [reflexivity|]. split; [reflexivity|].
  destruct (artifact_of_a_source "/w/main.c" eq_refl) as [H2 _].
  destruct (H2 eq_refl) as (stem & _ & _ & Hne). exact Hne.
Defined.

(** ** Temporary sources of [ExecuteCode] *)

(** The path of a temporary source is clean, lies directly in the working
    directory and carries the extension of the language. *)
Lemma is_sep_false c : c <> "/"%char -> is_sep c = false.
Proof. intros H. unfold is_sep. apply Ascii.eqb_neq. exact H. Qed.

Lemma split_sep_no_sep l cur : ("/"%char ∉ l) -> split_sep l cur = [rev cur ++ l].
Proof.
  revert cur. induction l as [|c l IH]; intros cur H; simpl.
  - rewrite app_nil_r. reflexivity.
  - apply not_elem_of_cons in H as [Hc Hl].
    rewrite is_sep_false by congruence. rewrite IH by exact Hl.
    simpl. rewrite <- app_assoc. reflexivity.
Qed.

Lemma clean_step_push rooted stack e :
  e <> [] -> e <> ["."%char] -> e <> dotdot -> clean_step rooted stack e = e :: stack.
Proof.
  intros H0 H1 H2. unfold clean_step.
  destruct e as [|a [|b e]]; [contradiction| |].
  - destruct (is_dot a) eqn:Hd; [|reflexivity].
    apply is_dot_true in Hd as ->. contradiction.
  - rewrite bool_decide_eq_false_2 by exact H2. reflexivity.
Qed.

Lemma Clean_temp rest :
  ("/"%char ∉ chars rest) ->
  Clean ("/tmp/smollm-sandbox/tmp_" +:+ rest) = "/tmp/smollm-sandbox/tmp_" +:+ rest.
Proof.
  intros H. unfold Clean. fold (chars ("/tmp/smollm-sandbox/tmp_" +:+ rest)).
  rewrite chars_append.
  change (chars "/tmp/smollm-sandbox/tmp_") with
    (list_ascii_of_string "/tmp/smollm-sandbox/tmp_").
  cbn [list_ascii_of_string app].
  cbn [split_sep is_sep Ascii.eqb Bool.eqb rev app].
  rewrite split_sep_no_sep by exact H.
  cbn [rev app fold_left].
  change (clean_step true [] []) with (@nil (list ascii)).
  rewrite !clean_step_push by discriminate.
  cbn [rev app]. unfold join_elems. cbn [map Join string_of_list_ascii].
  fold (chars rest). rewrite string_of_chars. reflexivity.
Qed.

Lemma take_elem_no_sep l r acc :
  ("/"%char ∉ l) -> take_elem (l ++ r) acc = take_elem r (rev l ++ acc).
Proof.
  revert acc. induction l as [|c l IH]; intros acc H; simpl; [reflexivity|].
  apply not_elem_of_cons in H as [Hc Hl].
  rewrite is_sep_false by congruence. rewrite IH by exact Hl.
  rewrite <- app_assoc. reflexivity.
Qed.

Lemma Base_temp rest :
  ("/"%char ∉ chars rest) ->
  Base ("/tmp/smollm-sandbox/tmp_" +:+ rest) = "tmp_" +:+ rest.
Proof.
  intros H. unfold Base.
  change ("/tmp/smollm-sandbox/tmp_" +:+ rest)
    with (String "/" ("tmp/smollm-sandbox/tmp_" +:+ rest)) at 1.
  cbv iota. fold (chars ("/tmp/smollm-sandbox/tmp_" +:+ rest)).
  rewrite chars_append, rev_app_distr.
  assert (Hd : forall r, r = rev (chars rest) ++ rev (chars "/tmp/smollm-sandbox/tmp_") ->
                         drop_seps r = r).
  { intros r ->. destruct (rev (chars rest)) as [|c r'] eqn:Hr.
    - reflexivity.
    - simpl. rewrite is_sep_false; [reflexivity|].
      intros ->. apply H. apply list_elem_of_In, in_rev. fold (chars rest).
      rewrite Hr. left. reflexivity. }
  rewrite (Hd _ eq_refl).
  rewrite take_elem_no_sep
    by (rewrite list_elem_of_In, <- in_rev, <- list_elem_of_In; exact H).
  rewrite rev_involutive, app_nil_r.
  change (rev (chars "/tmp/smollm-sandbox/tmp_"))
    with ("_"%char :: "p"%char :: "m"%char :: "t"%char :: "/"%char
          :: rev (chars "/tmp/smollm-sandbox")).
  cbn [take_elem is_sep Ascii.eqb Bool.eqb].
  cbn [string_of_list_ascii]. rewrite string_of_chars. reflexivity.
Qed.

Lemma uint_chars_no_sep (d : Decimal.uint) :
  "/"%char ∉ chars (NilEmpty.string_of_uint d).
Proof.
  induction d; simpl; unfold chars; simpl;
    try (apply not_elem_of_nil);
    apply not_elem_of_cons; (split; [discriminate | exact IHd]).
Qed.

Lemma fmt_d_no_sep (z : Z) : "/"%char ∉ chars (fmt_d z).
Proof.
  unfold fmt_d, NilZero.string_of_int, NilZero.string_of_uint.
  destruct (Z.to_int z) as [d|d].
  - destruct d; try apply (uint_chars_no_sep (_ _)).
    unfold chars; simpl. apply not_elem_of_cons. split; [discriminate|].
    apply not_elem_of_nil.
  - unfold chars. simpl. apply not_elem_of_cons. split; [discriminate|].
    destruct d; try apply (uint_chars_no_sep (_ _)).
    simpl. apply not_elem_of_cons. split; [discriminate|]. apply not_elem_of_nil.
Qed.

Lemma supported_no_sep ext : ext ∈ supported_exts -> "/"%char ∉ chars ext.
Proof.
  intros H. apply supported_cases in H.
  destruct H as [-> | [-> | [-> | [-> | [-> | ->]]]]]; unfold chars; simpl;
    repeat (apply not_elem_of_cons; split; [discriminate|]); apply not_elem_of_nil.
Qed.

Lemma Ext_of_supported_suffix (stem ext : string) :
  ext ∈ supported_exts -> Ext (stem +:+ ext) = ext.
Proof.
  intros H. apply supported_cases in H.
  unfold Ext. fold (chars (stem +:+ ext)). rewrite chars_append, rev_app_distr.
  destruct H as [-> | [-> | [-> | [-> | [-> | ->]]]]]; reflexivity.
Qed.

Lemma supported_lower ext : ext ∈ supported_exts -> ToLower ext = ext.
Proof.
  intros H. apply supported_cases in H.
  destruct H as [-> | [-> | [-> | [-> | [-> | ->]]]]]; reflexivity.
Qed.

Lemma ext_of_language_supported l ext :
  ext_of_language l = Some ext -> ext ∈ supported_exts.
Proof.
  intros H. unfold ext_of_language in H.
  repeat (match type of H with
          | (if ?b then _ else _) = _ => destruct b
          end; [injection H as <-; unfold supported_exts; set_solver|]).
  discriminate.
Qed.

Lemma no_sep_append a b :
  ("/"%char ∉ chars a) -> ("/"%char ∉ chars b) -> "/"%char ∉ chars (a +:+ b).
Proof.
  intros Ha Hb. rewrite chars_append. intros H. apply elem_of_app in H as [H|H]; auto.
Qed.

(** The path of the temporary source of the executor the package builds. *)
Lemma temp_path (t : Z) (ext : string) :
  ext ∈ supported_exts ->
  let p := Join2 WORK_DIR (temp_name t ext) in
  p = "/tmp/smollm-sandbox/tmp_" +:+ fmt_d t +:+ ext
  /\ Base p = temp_name t ext
  /\ Join2 WORK_DIR (Base p) = p
  /\ ToLower (Ext p) = ext.
Proof.
  intros Hin p.
  assert (Hrest : "/"%char ∉ chars (fmt_d t +:+ ext)).
  { apply no_sep_append; [apply fmt_d_no_sep | apply supported_no_sep; exact Hin]. }
  assert (Hp : p = "/tmp/smollm-sandbox/tmp_" +:+ fmt_d t +:+ ext).
  { unfold p, Join2, WORK_DIR, temp_name. cbv iota.
    change ("/tmp/smollm-sandbox" +:+ "/" +:+ "tmp_" +:+ fmt_d t +:+ ext)
      with ("/tmp/smollm-sandbox/tmp_" +:+ (fmt_d t +:+ ext)).
    apply Clean_temp. exact Hrest. }
  assert (Hb : Base p = temp_name t ext).
  { rewrite Hp. apply (Base_temp (fmt_d t +:+ ext)). exact Hrest. }
  split; [exact Hp|]. split; [exact Hb|]. split.
  - rewrite Hb. reflexivity.
  - rewrite Hp.
    rewrite <- (append_assoc "/tmp/smollm-sandbox/tmp_" (fmt_d t) ext).
    rewrite Ext_of_supported_suffix by exact Hin.
    apply supported_lower. exact Hin.
Qed.

Lemma substring_all (b : string) : String.substring 0 (String.length b) b = b.
Proof. induction b as [|x b IH]; [reflexivity|]. simpl. f_equal. exact IH. Qed.

Lemma substring_suffix (a b : string) :
  String.substring (String.length a) (String.length b) (a +:+ b) = b.
Proof.
  induction a as [|x a IH]; [apply substring_all|].
  rewrite append_cons. simpl. exact IH.
Qed.

Lemma HasPrefix_sep_false (s : string) :
  ("/"%char ∉ chars s) -> HasPrefix s "/" = false.
Proof.
  intros H. destruct (HasPrefix s "/") eqn:Hp; [|reflexivity].
  apply HasPrefix_iff in Hp as [rest ->]. exfalso. apply H.
  rewrite append_cons. unfold chars. simpl. apply list_elem_of_here.
Qed.

Lemma Contains_fuel_no_sep (n : nat) (s : string) :
  ("/"%char ∉ chars s) -> Contains_fuel n s "/" = false.
Proof.
  revert s. induction n as [|n IH]; intros s H.
  - destruct s as [|c s]; [reflexivity|].
    cbn [Contains_fuel]. rewrite (HasPrefix_sep_false _ H). reflexivity.
  - destruct s as [|c s]; [reflexivity|].
    cbn [Contains_fuel]. rewrite (HasPrefix_sep_false _ H).
    apply IH. unfold chars in H. simpl in H.
    apply not_elem_of_cons in H as [_ Hs]. exact Hs.
Qed.

Lemma is_temp_entry_temp (rest : string) :
  ("/"%char ∉ chars rest) ->
  is_temp_entry WORK_DIR ("/tmp/smollm-sandbox/tmp_" +:+ rest) = true.
Proof.
  intros H. unfold is_temp_entry, entry_of.
  assert (Hpre : HasPrefix ("/tmp/smollm-sandbox/tmp_" +:+ rest) (WORK_DIR +:+ "/")
                 = true).
  { apply HasPrefix_iff. exists ("tmp_" +:+ rest). reflexivity. }
  rewrite Hpre.
  assert (Hsub : String.substring (String.length WORK_DIR + 1)
                   (String.length ("/tmp/smollm-sandbox/tmp_" +:+ rest)
                    - (String.length WORK_DIR + 1))
                   ("/tmp/smollm-sandbox/tmp_" +:+ rest) = "tmp_" +:+ rest).
  { change ("/tmp/smollm-sandbox/tmp_" +:+ rest)
      with ("/tmp/smollm-sandbox/" +:+ ("tmp_" +:+ rest)).
    rewrite append_length.
    change (String.length WORK_DIR + 1)%nat with (String.length "/tmp/smollm-sandbox/").
    replace (String.length "/tmp/smollm-sandbox/" + String.length ("tmp_" +:+ rest)
             - String.length "/tmp/smollm-sandbox/")%nat
      with (String.length ("tmp_" +:+ rest)) by lia.
    apply substring_suffix. }
  rewrite Hsub.
  assert (Hc : Contains ("tmp_" +:+ rest) "/" = false).
  { apply Contains_fuel_no_sep. rewrite chars_append.
    intros Hin. apply elem_of_app in Hin as [Hin|Hin]; [|contradiction].
    unfold chars in Hin. simpl in Hin.
    repeat (apply elem_of_cons in Hin as [Hin|Hin]; [discriminate|]).
    by apply elem_of_nil in Hin. }
  rewrite Hc.
  assert (Hne : str_eqb ("tmp_" +:+ rest) EmptyString = false).
  { unfold str_eqb. apply bool_decide_eq_false_2. rewrite append_cons. discriminate. }
  rewrite Hne. cbn [orb]. apply HasPrefix_iff. exists rest. reflexivity.
Qed.

(** X16. Whatever the world, the language and the files present,
    [ExecuteCode] on the default executor does the same for any two
    snippets: same result, same files, same processes. The code that is
    submitted has no influence on what runs. *)
Theorem ExecuteCode_outcome_is_the_same_for_every_code
    (w : World) (code1 code2 language : string) (s : State) :
  ExecuteCode w (NewExecutor WORK_DIR) code1 language s
  = ExecuteCode w (NewExecutor WORK_DIR) code2 language s.
Proof.
  destruct (ext_of_language language) as [ext|] eqn:Hext.
  - pose proof (ext_of_language_supported _ _ Hext) as Hin.
    destruct (temp_path (unix_nano w) ext Hin) as (_ & _ & Hself & _).
    destruct (create_err w (Join2 WORK_DIR (temp_name (unix_nano w) ext)))
      as [cause|] eqn:Hc.
    + unfold ExecuteCode. rewrite Hext. unfold bind, os_WriteFile.
      simpl workDir. rewrite Hc. reflexivity.
    + exact (ExecuteCode_ignores_the_code w (NewExecutor WORK_DIR) code1 code2
               language ext s Hext Hc Hself).
  - unfold ExecuteCode. rewrite Hext. reflexivity.
Qed.

(** The cases of a return of [ExecuteCode] on the default executor. *)
Lemma ExecuteCode_ret_inv
    (w : World) (code language : string) (s s' : State)
    (res : Result error ExecuteResult) :
  ExecuteCode w (NewExecutor WORK_DIR) code language s = Ret res s' ->
  match res with
  | Ok r =>
      exists ext, ext_of_language language = Some ext
                  /\ Language r = ext
                  /\ Compiled r = needs_compile ext
  | Err err =>
      (err = ErrUnsupportedLanguage language
       /\ ext_of_language language = None /\ s' = s)
      \/ (exists cause, err = ErrWriteTemp cause /\ s' = s)
      \/ (exists cause c pre,
            err = ErrStartProcess cause
            /\ cmd_setpgid c = true
            /\ trace s' = pre ++ [EvLaunchFailed c])
  end.
Proof.
  intros H.
  destruct (ext_of_language language) as [ext|] eqn:Hext.
  2:{ unfold ExecuteCode in H. rewrite Hext in H. inversion H; subst. left. auto. }
  pose proof (ext_of_language_supported _ _ Hext) as Hin.
  destruct (temp_path (unix_nano w) ext Hin) as (_ & _ & Hself & Hlow).
  remember (Join2 WORK_DIR (temp_name (unix_nano w) ext)) as p eqn:Hp.
  destruct (create_err w p) as [cause|] eqn:Hc.
  { unfold ExecuteCode in H. rewrite Hext in H. unfold bind, os_WriteFile in H.
    simpl workDir in H. rewrite <- Hp, Hc in H.
    inversion H; subst. right. left. eauto. }
  pose proof (ExecuteCode_written w (NewExecutor WORK_DIR) code language ext s Hext)
    as HW.
  simpl workDir in HW. rewrite <- Hp in HW. rewrite (HW Hc) in H. clear HW.
  match type of H with
  | match ExecuteFile _ _ _ ?st with _ => _ end = _ => remember st as written eqn:Hw
  end.
  destruct (ExecuteFile w (NewExecutor WORK_DIR) p written) as [res2 s2|s2] eqn:HE;
    [|discriminate].
  inversion H; subst res2 s'; clear H.
  destruct res as [r|err].
  - destruct (ExecuteFile_result_shape w (NewExecutor WORK_DIR) p written _ r HE)
      as (HL & HCm & _). exists ext. rewrite Hlow in HL, HCm. auto.
  - right. right.
    destruct (ExecuteFile_err_inv w (NewExecutor WORK_DIR) p written _ err HE)
      as [(_ & Hnone & _)|[(cause & _ & Hcr & _)|[(_ & Hcfg & _)|[(_ & Hout & _)
         |(cause & c & pre & -> & Hpg & Ht)]]]].
    + exfalso. rewrite Hw in Hnone. simpl in Hnone.
      rewrite lookup_insert_eq in Hnone. discriminate.
    + exfalso. simpl workDir in Hcr. rewrite Hself in Hcr. congruence.
    + exfalso. simpl workDir in Hcfg. rewrite Hself, Hlow in Hcfg.
      simpl in Hcfg. apply default_configs_known in Hin as [cfg Hcfg'].
      rewrite Hcfg' in Hcfg. discriminate.
    + exfalso. rewrite Hlow in Hout. contradiction.
    + exists cause, c, pre. rewrite os_Remove_trace. auto.
Qed.

(** X17. What [ExecuteCode] on the default executor can return. A result
    carries the extension of the language and says whether that
    extension is a compiled one. An error is one of three: the language
    is unknown (nothing has happened), the temporary file could not be
    written (nothing has happened), or the program could not be started
    (the failed launch, in a process group of its own, is the last
    event). The errors of [ExecuteFile] for a missing source, a refused
    copy and an unknown extension cannot occur. *)
Theorem what_ExecuteCode_returns
    (w : World) (code language : string) (s s' : State)
    (res : Result error ExecuteResult) :
  ExecuteCode w (NewExecutor WORK_DIR) code language s = Ret res s' ->
  match res with
  | Ok r =>
      exists ext, ext_of_language language = Some ext
                  /\ Language r = ext
                  /\ Compiled r = needs_compile ext
  | Err err =>
      (err = ErrUnsupportedLanguage language
       /\ ext_of_language language = None /\ s' = s)
      \/ (exists cause, err = ErrWriteTemp cause /\ s' = s)
      \/ (exists cause c pre,
            err = ErrStartProcess cause
            /\ cmd_setpgid c = true
            /\ trace s' = pre ++ [EvLaunchFailed c])
  end.
Proof. apply ExecuteCode_ret_inv. Qed.

Lemma what_ExecuteCode_returns_witness :
  exists r s',
    ExecuteCode W_echo (NewExecutor WORK_DIR) "print('hello')" "python" empty_state
    = Ret (Ok r) s'
    /\ exists ext, ext_of_language "python" = Some ext
                   /\ Language r = ext /\ Compiled r = needs_compile ext.
Proof.
  eexists _, _.
  refine ((fun H => conj H
             (what_ExecuteCode_returns W_echo "print('hello')" "python"
                empty_state _ (Ok _) H)) _).
  vm_compute. reflexivity.
Defined.

(** X18. The temporary source of [ExecuteCode], and the artifact that
    [Compile] names after it for a compiled language, are entries of the
    working directory that [CleanupTempFiles] selects; the artifact is
    another file than the source, so the removal of the source at the
    end of [ExecuteCode] leaves it. After [CleanupTempFiles] of an
    environment on that directory neither is present, provided its
    removal is not refused. *)
Theorem leftovers_are_selected_by_the_cleanup
    (w : World) (language ext : string) :
  let p := Join2 WORK_DIR (temp_name (unix_nano w) ext) in
  let art := compile_output p (ToLower (Ext p)) in
  ext_of_language language = Some ext ->
  is_temp_entry WORK_DIR p = true
  /\ (needs_compile ext = true -> is_temp_entry WORK_DIR art = true /\ art <> p)
  /\ (forall env s,
        env_workDir env = WORK_DIR ->
        let after := state_of (CleanupTempFiles w env s) in
        (remove_err w p = None -> fs after !! p = None)
        /\ (needs_compile ext = true -> remove_err w art = None ->
            fs after !! art = None)).
Proof.
  intros p art Hext.
  pose proof (ext_of_language_supported _ _ Hext) as Hin.
  destruct (temp_path (unix_nano w) ext Hin) as (Hp & _ & _ & Hlow).
  fold p in Hp, Hlow.
  assert (Hsep : "/"%char ∉ chars (fmt_d (unix_nano w))) by apply fmt_d_no_sep.
  assert (Htp : is_temp_entry WORK_DIR p = true).
  { rewrite Hp. apply (is_temp_entry_temp (fmt_d (unix_nano w) +:+ ext)).
    apply no_sep_append; [exact Hsep | apply supported_no_sep; exact Hin]. }
  assert (Hart : needs_compile ext = true ->
                 is_temp_entry WORK_DIR art = true /\ art <> p).
  { intros Hn.
    assert (Hc : ext = ".c"%string \/ ext = ".cpp"%string \/ ext = ".go"%string).
    { unfold needs_compile, str_eqb in Hn.
      repeat case_bool_decide; auto; discriminate. }
    assert (Hp2 : p = ("/tmp/smollm-sandbox/tmp_" +:+ fmt_d (unix_nano w)) +:+ ext).
    { rewrite Hp. symmetry. apply append_assoc. }
    assert (Ht : TrimSuffix p ext = "/tmp/smollm-sandbox/tmp_" +:+ fmt_d (unix_nano w)).
    { rewrite Hp2. apply TrimSuffix_append. }
    unfold art, compile_output. rewrite Hlow, Ht.
    destruct Hc as [-> | [-> | ->]]; cbn [str_eqb orb]; simpl bool_decide; cbv iota.
    - split.
      + rewrite append_assoc. apply is_temp_entry_temp.
        apply no_sep_append; [exact Hsep|]. unfold chars. simpl.
        repeat (apply not_elem_of_cons; split; [discriminate|]). apply not_elem_of_nil.
      + rewrite Hp2. intros Habs. apply (inj (String.append _)) in Habs. discriminate.
    - split.
      + rewrite append_assoc. apply is_temp_entry_temp.
        apply no_sep_append; [exact Hsep|]. unfold chars. simpl.
        repeat (apply not_elem_of_cons; split; [discriminate|]). apply not_elem_of_nil.
      + rewrite Hp2. intros Habs. apply (inj (String.append _)) in Habs. discriminate.
    - change (str_eqb ".go" ".c" || str_eqb ".go" ".cpp")%bool with false. cbv iota.
      split.
      + apply is_temp_entry_temp. exact Hsep.
      + rewrite Hp2. intros Habs.
        pose proof (append_empty_r ("/tmp/smollm-sandbox/tmp_" +:+ fmt_d (unix_nano w)))
          as He.
        rewrite <- He in Habs at 1.
        apply (inj (String.append _)) in Habs. discriminate. }
  split; [exact Htp|]. split; [exact Hart|].
  intros env s Hdir after.
  destruct (CleanupTempFiles_outcome w env s) as (res & s' & HE & _ & Hfs & _).
  unfold after. rewrite HE. simpl. rewrite Hdir in Hfs. split.
  - intros Hr. rewrite Hfs, Htp, bool_decide_eq_true_2 by exact Hr. reflexivity.
  - intros Hn Hr. destruct (Hart Hn) as [Hta _].
    rewrite Hfs, Hta, bool_decide_eq_true_2 by exact Hr. reflexivity.
Qed.

Lemma leftovers_are_selected_by_the_cleanup_witness :
  ext_of_language "c" = Some ".c"%string
  /\ is_temp_entry WORK_DIR "/tmp/smollm-sandbox/tmp_1700000000000000000.c" = true
  /\ is_temp_entry WORK_DIR "/tmp/smollm-sandbox/tmp_1700000000000000000.out" = true.
Proof.
  split; [reflexivity|].
  destruct (leftovers_are_selected_by_the_cleanup W_echo "c" ".c" eq_refl)
    as (H1 & H2 & _).
  split; [exact H1 | exact (proj1 (H2 eq_refl))].
Defined.

(** ** Reports of the environment *)

(** X19. For a snippet in a compiled language, [Environment.ExecuteCode]
    has two reports only. A success is reported with the run time, the
    compile time and the output. Every failure, whichever phase it comes
    from, is reported as a compile error followed by the error text of
    the result: for a program that was built and then failed, timed out
    or wrote too much, the report says "Ошибка компиляции:" and drops the
    exit code and the output. *)
Theorem report_of_a_compiled_snippet
    (w : World) (code language ext : string) (s s' : State) (out : string) :
  ext_of_language language = Some ext ->
  needs_compile ext = true ->
  Environment_ExecuteCode w NewEnvironment code language s = Ret (Ok out) s' ->
  exists r,
    ExecuteCode w (NewExecutor WORK_DIR) code language s = Ret (Ok r) s'
    /\ Compiled r = true
    /\ out = if Success r
             then "Выполнение успешно завершено за "
                  +:+ show_duration w (ExecuteTime r) +:+ LF +:+ LF
                  +:+ "Время компиляции: "
                  +:+ show_duration w (CompileTime r) +:+ LF +:+ Output r
             else "Ошибка компиляции:" +:+ LF +:+ Error r.
Proof.
  intros Hext Hn H.
  unfold Environment_ExecuteCode, bind in H. simpl executor in H.
  destruct (ExecuteCode w (NewExecutor WORK_DIR) code language s)
    as [[r|err] s1|s1] eqn:HE; try discriminate.
  pose proof (ExecuteCode_ret_inv w code language s s1 (Ok r) HE)
    as (ext' & Hext' & _ & HC).
  rewrite Hext in Hext'. injection Hext' as <-. rewrite Hn in HC.
  rewrite HC in H. exists r.
  destruct (Success r); unfold ret in H; injection H as <- <-.
  - split; [reflexivity|]. split; [exact HC|].
    rewrite <- !append_assoc. reflexivity.
  - auto.
Qed.

Lemma report_of_a_compiled_snippet_witness :
  exists s',
    Environment_ExecuteCode W_crash NewEnvironment "int main(){}" "c" empty_state
    = Ret (Ok ("Ошибка компиляции:" +:+ LF +:+ "assertion failed")) s'
    /\ exists r,
         ExecuteCode W_crash (NewExecutor WORK_DIR) "int main(){}" "c" empty_state
         = Ret (Ok r) s'
         /\ Compiled r = true.
Proof.
  assert (H : exists s',
             Environment_ExecuteCode W_crash NewEnvironment "int main(){}" "c"
               empty_state
             = Ret (Ok ("Ошибка компиляции:" +:+ LF +:+ "assertion failed")) s')
    by (eexists; vm_compute; reflexivity).
  destruct H as [s' H]. exists s'. split; [exact H|].
  destruct (report_of_a_compiled_snippet W_crash "int main(){}" "c" ".c"
              empty_state _ _ eq_refl eq_refl H) as (r & HE & HC & _).
  exists r. split; [exact HE | exact HC].
Defined.

(** ** The command-line client *)

Lemma Split_nonempty (s : string) (sep : ascii) : Split s sep <> [].
Proof.
  destruct s as [|c s]; simpl; [discriminate|].
  destruct (Ascii.eqb c sep); [discriminate|].
  destruct (Split s sep); discriminate.
Qed.

Lemma Split_no_sep (a : string) (sep : ascii) :
  sep ∉ chars a -> Split a sep = [a].
Proof.
  induction a as [|c a IH]; intros H; [reflexivity|].
  unfold chars in H. simpl in H. apply not_elem_of_cons in H as [Hc Ha].
  simpl. destruct (Ascii.eqb_spec c sep) as [->|_]; [contradiction|].
  rewrite (IH Ha). reflexivity.
Qed.

Lemma Split_first (a b : string) (sep : ascii) :
  sep ∉ chars a -> Split (a +:+ String sep b) sep = a :: Split b sep.
Proof.
  induction a as [|c a IH]; intros H.
  - change (EmptyString +:+ String sep b) with (String sep b).
    simpl. rewrite Ascii.eqb_refl. reflexivity.
  - unfold chars in H. simpl in H. apply not_elem_of_cons in H as [Hc Ha].
    rewrite append_cons. simpl.
    destruct (Ascii.eqb_spec c sep) as [->|_]; [contradiction|].
    rewrite (IH Ha). reflexivity.
Qed.

Lemma Join_Split (s : string) (sep : ascii) :
  Join (Split s sep) (String sep EmptyString) = s.
Proof.
  induction s as [|c s IH]; [reflexivity|].
  simpl Split. destruct (Ascii.eqb_spec c sep) as [->|Hne].
  - pose proof (Split_nonempty s sep) as Hn.
    destruct (Split s sep) as [|x xs] eqn:Hs; [contradiction|].
    change (Join (EmptyString :: x :: xs) (String sep EmptyString))
      with (EmptyString +:+ String sep EmptyString +:+ Join (x :: xs) (String sep EmptyString)).
    rewrite IH. reflexivity.
  - pose proof (Split_nonempty s sep) as Hn.
    destruct (Split s sep) as [|x xs] eqn:Hs; [contradiction|].
    destruct xs as [|y ys].
    + simpl in IH. simpl. rewrite IH. reflexivity.
    + change (Join (String c x :: y :: ys) (String sep EmptyString))
        with (String c x +:+ String sep EmptyString +:+ Join (y :: ys) (String sep EmptyString)).
      change (Join (x :: y :: ys) (String sep EmptyString))
        with (x +:+ String sep EmptyString +:+ Join (y :: ys) (String sep EmptyString)) in IH.
      rewrite append_cons. rewrite IH. reflexivity.
Qed.

(** X20. The two sandbox commands of the command-line client, for a first
    argument without a space. "/code" takes the first word as the
    language and hands everything after the following space to
    [Environment.ExecuteCode] as it was typed, inner and repeated spaces
    included; with the language alone it prints its usage and runs
    nothing. "/run" passes the first word to [Environment.Execute] and
    ignores what follows it, so that a file name with a space cannot be
    run. What is printed is the report followed by a line feed, or the
    text of the error after the prefix of the command. *)
Theorem sandbox_commands_of_the_client
    (w : World) (model : Model) (env : Environment) (word : string) (s : State) :
  " "%char ∉ chars word ->
  (forall code,
     handleCommand w model env ("/code " +:+ word +:+ " " +:+ code) s
     = (let* r := Environment_ExecuteCode w env code word in
        ret (printed "Ошибка выполнения кода: " r)) s)
  /\ (exists usage, handleCommand w model env ("/code " +:+ word) s = Ret (Some usage) s)
  /\ (forall rest,
        handleCommand w model env ("/run " +:+ word +:+ " " +:+ rest) s
        = handleCommand w model env ("/run " +:+ word) s)
  /\ handleCommand w model env ("/run " +:+ word) s
     = (let* r := Execute w env word in ret (printed "Ошибка выполнения: " r)) s.
Proof.
  intros Hw.
  assert (Hrun : " "%char ∉ chars "run").
  { unfold chars. simpl. repeat (apply not_elem_of_cons; split; [discriminate|]).
    apply not_elem_of_nil. }
  assert (Hcode' : " "%char ∉ chars "code").
  { unfold chars. simpl. repeat (apply not_elem_of_cons; split; [discriminate|]).
    apply not_elem_of_nil. }
  split; [|split; [|split]].
  - intros code.
    change ("/code " +:+ word +:+ " " +:+ code)
      with (String "/" ("code" +:+ String " " (word +:+ String " " code))).
    unfold handleCommand.
    rewrite (Split_first "code" _ " " Hcode'), (Split_first word code " " Hw).
    pose proof (Split_nonempty code " ") as Hn.
    pose proof (Join_Split code " ") as HJ.
    destruct (Split code " ") as [|x xs] eqn:Hs; [contradiction|].
    change (str_eqb "code" "save") with false.
    change (str_eqb "code" "load") with false.
    change (str_eqb "code" "run") with false.
    change (str_eqb "code" "code") with true. cbv iota.
    change (String " " EmptyString) with " "%string in HJ. rewrite HJ.
    unfold bind, ret, printed.
    destruct (Environment_ExecuteCode w env code word s) as [[o|e] s1|s1]; reflexivity.
  - change ("/code " +:+ word) with (String "/" ("code" +:+ String " " word)).
    unfold handleCommand.
    rewrite (Split_first "code" _ " " Hcode'), (Split_no_sep word " " Hw).
    eexists. reflexivity.
  - intros rest.
    change ("/run " +:+ word +:+ " " +:+ rest)
      with (String "/" ("run" +:+ String " " (word +:+ String " " rest))).
    change ("/run " +:+ word) with (String "/" ("run" +:+ String " " word)).
    unfold handleCommand.
    rewrite !(Split_first "run" _ " " Hrun), (Split_first word rest " " Hw),
      (Split_no_sep word " " Hw).
    reflexivity.
  - change ("/run " +:+ word) with (String "/" ("run" +:+ String " " word)).
    unfold handleCommand.
    rewrite (Split_first "run" _ " " Hrun), (Split_no_sep word " " Hw).
    change (str_eqb "run" "save") with false.
    change (str_eqb "run" "load") with false.
    change (str_eqb "run" "run") with true. cbv iota.
    unfold bind, ret, printed.
    destruct (Execute w env word s) as [[o|e] s1|s1]; reflexivity.
Qed.

Lemma sandbox_commands_of_the_client_witness :
  handleCommand W_echo silent_model NewEnvironment "/code python print('a  b')"
    empty_state
  = (let* r := Environment_ExecuteCode W_echo NewEnvironment "print('a  b')" "python" in
     ret (printed "Ошибка выполнения кода: " r)) empty_state.
Proof.
  assert (H : " "%char ∉ chars "python").
  { unfold chars. simpl. repeat (apply not_elem_of_cons; split; [discriminate|]).
    apply not_elem_of_nil. }
  exact (proj1 (sandbox_commands_of_the_client W_echo silent_model NewEnvironment
                  "python" empty_state H) "print('a  b')").
Defined.

(** ** [CheckSyntax] *)

(** X21. For a path whose extension has a profile, [CheckSyntax] launches
    exactly one command, without a process group and without a working
    directory of its own, whose last argument is the path; for an
    interpreted profile it is the command line [Compile] uses. It never
    returns an error. The check passes exactly when the checker started
    and exited with status 0, and the call blocks exactly when the
    checker started and never exits: there is no deadline. A failed check
    carries the stderr of the checker, and a checker that could not be
    started is a failed check with an empty message. *)
Theorem CheckSyntax_passes_exactly_when
    (w : World) (c : Compiler) (sourcePath : string) (s : State)
    (config : CompilerConfig) :
  configs c !! ToLower (Ext sourcePath) = Some config ->
  exists cmd,
    cmd_setpgid cmd = false
    /\ cmd_dir cmd = EmptyString
    /\ last (cmd_args cmd) = Some sourcePath
    /\ (NeedsCompiled config = false ->
        forall outputFile,
          cmd_path cmd = cmd_path (compile_cmd c config sourcePath outputFile)
          /\ cmd_args cmd = cmd_args (compile_cmd c config sourcePath outputFile))
    /\ let p := spawn w cmd (fs s) in
       let run := CheckSyntax w c sourcePath s in
       trace (state_of run)
       = trace s ++ [match p_start_err p with
                     | Some _ => EvLaunchFailed cmd
                     | None => EvLaunch cmd (p_pid p)
                     end]
       /\ (forall e s', run <> Ret (Err e) s')
       /\ ((exists s', run = Ret (Ok (true, EmptyString)) s')
           <-> p_start_err p = None /\ exists t, p_end p = Exits t 0)
       /\ ((exists s', run = Hang s') <-> p_start_err p = None /\ p_end p = Runs)
       /\ (forall msg s', run = Ret (Ok (false, msg)) s' ->
             msg = match p_start_err p with
                   | Some _ => EmptyString
                   | None => p_stderr p
                   end).
Proof.
  intros Hcfg. unfold CheckSyntax. rewrite Hcfg.
  match goal with
  | |- context [cmd_Run w ?k] => set (cmd := k)
  end.
  exists cmd.
  assert (Hpg : cmd_setpgid cmd = false).
  { unfold cmd. destruct (NeedsCompiled config); [|reflexivity].
    destruct (str_eqb _ ".go"); [reflexivity|].
    destruct (_ || _)%bool; reflexivity. }
  assert (Hdir : cmd_dir cmd = EmptyString).
  { unfold cmd. destruct (NeedsCompiled config); [|reflexivity].
    destruct (str_eqb _ ".go"); [reflexivity|].
    destruct (_ || _)%bool; reflexivity. }
  assert (Hlast : last (cmd_args cmd) = Some sourcePath).
  { unfold cmd. destruct (NeedsCompiled config).
    - destruct (str_eqb _ ".go"); [reflexivity|].
      destruct (_ || _)%bool; [reflexivity|]. simpl.
      change ["-fsyntax-only"%string; sourcePath]
        with (["-fsyntax-only"%string] ++ [sourcePath]).
      rewrite app_assoc. apply last_snoc.
    - simpl. apply last_snoc. }
  assert (Hint : NeedsCompiled config = false ->
                 forall outputFile,
                   cmd_path cmd = cmd_path (compile_cmd c config sourcePath outputFile)
                   /\ cmd_args cmd
                      = cmd_args (compile_cmd c config sourcePath outputFile)).
  { intros Hn outputFile. unfold cmd, compile_cmd. rewrite Hn. split; reflexivity. }
  split; [exact Hpg|]. split; [exact Hdir|]. split; [exact Hlast|].
  split; [exact Hint|].
  clearbody cmd. unfold bind, cmd_Run, ret.
  destruct (p_start_err (spawn w cmd (fs s))) as [cause|] eqn:Hs; simpl.
  - split; [reflexivity|]. split; [discriminate|].
    split; [split; [intros [s' H]; discriminate | intros [H _]; discriminate]|].
    split; [split; [intros [s' H]; discriminate | intros [H _]; discriminate]|].
    intros msg s' H. injection H as <- _. reflexivity.
  - destruct (p_end (spawn w cmd (fs s))) as [t code|] eqn:He; simpl.
    + destruct code as [|code|code]; simpl.
      * split; [reflexivity|]. split; [discriminate|].
        split; [split; [eauto | eauto]|].
        split; [split; [intros [s' H]; discriminate | intros [_ H]; discriminate]|].
        intros msg s' H. discriminate.
      * split; [reflexivity|]. split; [discriminate|].
        split; [split; [intros [s' H]; discriminate
                       | intros [_ [t' H]]; discriminate]|].
        split; [split; [intros [s' H]; discriminate | intros [_ H]; discriminate]|].
        intros msg s' H. injection H as <- _. reflexivity.
      * split; [reflexivity|]. split; [discriminate|].
        split; [split; [intros [s' H]; discriminate
                       | intros [_ [t' H]]; discriminate]|].
        split; [split; [intros [s' H]; discriminate | intros [_ H]; discriminate]|].
        intros msg s' H. injection H as <- _. reflexivity.
    + split; [reflexivity|]. split; [discriminate|].
      split; [split; [intros [s' H]; discriminate | intros [_ [t H]]; discriminate]|].
      split; [split; [auto | eauto]|].
      intros msg s' H. discriminate.
Qed.

Lemma CheckSyntax_passes_exactly_when_witness :
  configs (NewCompiler WORK_DIR) !! ToLower (Ext staged_c) = Some gcc_config
  /\ ~ (exists s', CheckSyntax W_absent (NewCompiler WORK_DIR) staged_c empty_state
                   = Ret (Ok (true, EmptyString)) s').
Proof.
  split; [reflexivity|].
  destruct (CheckSyntax_passes_exactly_when W_absent (NewCompiler WORK_DIR) staged_c
              empty_state gcc_config eq_refl)
    as (cmd & _ & _ & _ & _ & _ & _ & Hiff & _).
  intros H. apply Hiff in H as [Hs _]. discriminate Hs.
Defined.

(** ** The unused compile and run of the environment *)

Lemma Environment_compile_ok w env filename config s out s' :
  Environment_compile w env filename config s = Ret (Ok out) s' ->
  out = if (HasSuffix filename ".c" || HasSuffix filename ".cpp")%bool
        then TrimSuffix filename (Ext filename) +:+ ".out"
        else TrimSuffix filename (Ext filename).
Proof.
  unfold Environment_compile, bind, get_fs, emit, put_fs, ret.
  destruct (p_start_err _); [discriminate|].
  destruct (race _ _) as [code t|]; [|discriminate].
  destruct (code =? 0).
  - intros H. injection H as <- _. reflexivity.
  - destruct (ErrorCodes config !! code); discriminate.
Qed.

Lemma compiled_cases (ext : string) :
  needs_compile ext = true ->
  ext = ".c"%string \/ ext = ".cpp"%string \/ ext = ".go"%string.
Proof.
  intros H. unfold needs_compile, str_eqb in H.
  repeat case_bool_decide; auto; discriminate.
Qed.

(** X22. The artifact name of the unused [Environment.compile] against
    the one of [Compiler.Compile], for a source with a compiled
    extension: whenever [Environment.compile] returns a name, it is the
    name [Compile] would use exactly when the extension is written in
    lower case. For an upper-case spelling the older function strips the
    extension and adds no ".out", where [Compile] strips nothing. *)
Theorem legacy_compile_names_the_artifact
    (w : World) (env : Environment) (filename : string) (config : CompilerConfig)
    (s s' : State) (out : string) :
  Environment_compile w env filename config s = Ret (Ok out) s' ->
  needs_compile (ToLower (Ext filename)) = true ->
  (out = compile_output filename (ToLower (Ext filename))
   <-> Ext filename = ToLower (Ext filename)).
Proof.
  intros H Hn. apply Environment_compile_ok in H.
  destruct (Ext_is_a_suffix filename) as [stem Hf].
  assert (Htrim : TrimSuffix filename (Ext filename) = stem).
  { pose proof (TrimSuffix_append stem (Ext filename)) as Ht.
    rewrite <- Hf in Ht. exact Ht. }
  assert (Hc : HasSuffix filename ".c" = true <-> Ext filename = ".c"%string).
  { split.
    - intros Hs. apply HasSuffix_iff in Hs as [x ->].
      apply Ext_of_compiled_suffix. reflexivity.
    - intros He. apply HasSuffix_iff. exists stem. rewrite <- He. exact Hf. }
  assert (Hcpp : HasSuffix filename ".cpp" = true <-> Ext filename = ".cpp"%string).
  { split.
    - intros Hs. apply HasSuffix_iff in Hs as [x ->].
      apply Ext_of_compiled_suffix. reflexivity.
    - intros He. apply HasSuffix_iff. exists stem. rewrite <- He. exact Hf. }
  rewrite Htrim in H.
  destruct (decide (Ext filename = ToLower (Ext filename))) as [Heq|Hne].
  - split; [intros _; exact Heq|]. intros _.
    rewrite <- Heq in Hn |- *.
    unfold compile_output. rewrite Htrim. rewrite H.
    destruct (compiled_cases _ Hn) as [He | [He | He]].
    + rewrite (proj2 Hc He), He. reflexivity.
    + rewrite (proj2 Hcpp He), He. rewrite orb_true_r. reflexivity.
    + assert (H1 : HasSuffix filename ".c" = false).
      { apply not_true_is_false. intros E.
        rewrite (proj1 Hc E) in He. discriminate. }
      assert (H2 : HasSuffix filename ".cpp" = false).
      { apply not_true_is_false. intros E.
        rewrite (proj1 Hcpp E) in He. discriminate. }
      rewrite H1, H2, He. reflexivity.
  - split; [|intros Heq; contradiction]. intros Habs. exfalso.
    assert (H1 : HasSuffix filename ".c" = false).
    { apply not_true_is_false. intros E.
      apply Hne. rewrite (proj1 Hc E). reflexivity. }
    assert (H2 : HasSuffix filename ".cpp" = false).
    { apply not_true_is_false. intros E.
      apply Hne. rewrite (proj1 Hcpp E). reflexivity. }
    rewrite H1, H2 in H. simpl in H.
    assert (Hother : TrimSuffix filename (ToLower (Ext filename)) = filename).
    { apply TrimSuffix_other. intros stem' Hs. apply Hne.
      rewrite Hs at 1. apply Ext_of_compiled_suffix. exact Hn. }
    unfold compile_output in Habs. rewrite Hother, H in Habs.
    assert (Hlen : (String.length stem < String.length filename)%nat).
    { pose proof (append_length stem (Ext filename)) as Hl. rewrite <- Hf in Hl.
      destruct (Ext filename) as [|a e] eqn:He.
      - exfalso. apply Hne. reflexivity.
      - simpl in Hl. lia. }
    apply (f_equal String.length) in Habs.
    destruct (_ || _)%bool in Habs; [rewrite append_length in Habs|]; lia.
Qed.

Lemma legacy_compile_names_the_artifact_witness :
  exists s',
    Environment_compile W_build NewEnvironment "/w/Main.C" gcc_config empty_state
    = Ret (Ok "/w/Main"%string) s'
    /\ compile_output "/w/Main.C" (ToLower (Ext "/w/Main.C")) = "/w/Main.C.out"%string
    /\ "/w/Main"%string <> compile_output "/w/Main.C" (ToLower (Ext "/w/Main.C")).
Proof.
  assert (H : exists s',
             Environment_compile W_build NewEnvironment "/w/Main.C" gcc_config
               empty_state = Ret (Ok "/w/Main"%string) s')
    by (eexists; vm_compute; reflexivity).
  destruct H as [s' H]. exists s'. split; [exact H|]. split; [reflexivity|].
  intros Heq.
  pose proof (proj1 (legacy_compile_names_the_artifact W_build NewEnvironment
                       "/w/Main.C" gcc_config empty_state s' _ H eq_refl) Heq) as Habs.
  discriminate Habs.
Defined.

Lemma runFile_routed w env filename config s prog args x s' :
  runFile_command (Ext filename) filename config = Some (prog, args) ->
  runFile w env filename config s <> Ret (Err (ErrUnsupportedFileType x)) s'.
Proof.
  intros Hr. unfold runFile. rewrite Hr.
  unfold bind, get_fs, emit, put_fs, ret.
  destruct (p_start_err _); [discriminate|].
  destruct (race _ _) as [code t|]; [|discriminate].
  destruct (_ >? _); discriminate.
Qed.

Lemma runFile_not_routed w env filename config s :
  runFile_command (Ext filename) filename config = None ->
  runFile w env filename config s
  = Ret (Err (ErrUnsupportedFileType (Ext filename))) s.
Proof. intros Hr. unfold runFile. rewrite Hr. reflexivity. Qed.

Lemma str_eqb_eq (a b : string) : str_eqb a b = true <-> a = b.
Proof. unfold str_eqb. apply bool_decide_eq_true. Qed.

(** X23. The unused pair [getCompilerConfig] and [Environment.runFile]
    on letter case: with the profile [getCompilerConfig] returns for the
    extension of a file, [runFile] refuses the file as unsupported,
    launching nothing, exactly when the language is an interpreted one
    and the extension is not written in lower case. [ExecuteFile], which
    lower-cases the extension first, has a run command for such a file. *)
Theorem legacy_run_is_case_sensitive
    (w : World) (env : Environment) (filename : string) (config : CompilerConfig)
    (s : State) :
  getCompilerConfig (Ext filename) = Ok config ->
  (runFile w env filename config s
   = Ret (Err (ErrUnsupportedFileType (Ext filename))) s
   <-> NeedsCompiled config = false /\ Ext filename <> ToLower (Ext filename))
  /\ is_Some (run_command (ToLower (Ext filename)) filename).
Proof.
  intros Hcfg. split.
  2:{ unfold getCompilerConfig in Hcfg.
      destruct (str_eqb (ToLower (Ext filename)) ".py") eqn:E1;
        [apply str_eqb_eq in E1; rewrite E1; eexists; reflexivity|].
      destruct (str_eqb (ToLower (Ext filename)) ".js") eqn:E2;
        [apply str_eqb_eq in E2; rewrite E2; eexists; reflexivity|].
      destruct (str_eqb (ToLower (Ext filename)) ".go") eqn:E3;
        [apply str_eqb_eq in E3; rewrite E3; eexists; reflexivity|].
      destruct (str_eqb (ToLower (Ext filename)) ".c") eqn:E4;
        [apply str_eqb_eq in E4; rewrite E4; eexists; reflexivity|].
      destruct (str_eqb (ToLower (Ext filename)) ".cpp") eqn:E5;
        [apply str_eqb_eq in E5; rewrite E5; eexists; reflexivity|].
      destruct (str_eqb (ToLower (Ext filename)) ".sh") eqn:E6;
        [apply str_eqb_eq in E6; rewrite E6; eexists; reflexivity|].
      discriminate. }
  destruct (runFile_command (Ext filename) filename config) as [[prog args]|] eqn:Hr.
  - split.
    + intros H. exfalso. exact (runFile_routed _ _ _ _ _ _ _ _ _ Hr H).
    + intros [Hn Hne]. exfalso. unfold runFile_command in Hr. rewrite Hn in Hr.
      unfold getCompilerConfig in Hcfg.
      destruct (str_eqb (Ext filename) ".py") eqn:E1.
      { apply str_eqb_eq in E1. apply Hne. rewrite E1. reflexivity. }
      destruct (str_eqb (Ext filename) ".js") eqn:E2.
      { apply str_eqb_eq in E2. apply Hne. rewrite E2. reflexivity. }
      destruct (str_eqb (Ext filename) ".sh") eqn:E3.
      { apply str_eqb_eq in E3. apply Hne. rewrite E3. reflexivity. }
      discriminate.
  - rewrite (runFile_not_routed _ _ _ _ _ Hr).
    split; [intros _|intros _; reflexivity].
    unfold runFile_command in Hr.
    destruct (str_eqb (Ext filename) ".py") eqn:E1; [discriminate|].
    destruct (str_eqb (Ext filename) ".js") eqn:E2; [discriminate|].
    destruct (str_eqb (Ext filename) ".sh") eqn:E3; [discriminate|].
    destruct (NeedsCompiled config) eqn:Hn; [discriminate|].
    split; [reflexivity|]. intros Heq.
    unfold getCompilerConfig in Hcfg. rewrite <- Heq in Hcfg.
    rewrite E1, E2, E3 in Hcfg.
    destruct (str_eqb (Ext filename) ".go");
      [injection Hcfg as <-; discriminate|].
    destruct (str_eqb (Ext filename) ".c");
      [injection Hcfg as <-; discriminate|].
    destruct (str_eqb (Ext filename) ".cpp");
      [injection Hcfg as <-; discriminate|].
    discriminate.
Qed.

Lemma legacy_run_is_case_sensitive_witness :
  getCompilerConfig (Ext "/w/hello.PY") = Ok python_config
  /\ runFile W_echo NewEnvironment "/w/hello.PY" python_config empty_state
     = Ret (Err (ErrUnsupportedFileType ".PY")) empty_state
  /\ is_Some (run_command (ToLower (Ext "/w/hello.PY")) "/w/hello.PY").
Proof.
  split; [reflexivity|]. split.
  - apply (proj2 (proj1 (legacy_run_is_case_sensitive W_echo NewEnvironment
                           "/w/hello.PY" python_config empty_state eq_refl))).
    split; [reflexivity | discriminate].
  - exact (proj2 (legacy_run_is_case_sensitive W_echo NewEnvironment
                    "/w/hello.PY" python_config empty_state eq_refl)).
Defined.

(** ** Files a request leaves behind *)

Lemma run_phase_keeps_the_files w e ext path cr s :
  leaves_files_alone w ->
  fs (state_of (run_phase w e ext path cr s)) = fs s.
Proof.
  intros Hq. unfold run_phase.
  destruct (run_command ext path) as [[prog args]|]; [|reflexivity].
  unfold bind, get_fs, emit, put_fs, ret.
  destruct (p_start_err _); [reflexivity|].
  destruct (race _ _); simpl; apply Hq.
Qed.

Lemma Compile_keeps_the_contents w c sourcePath s k :
  leaves_files_alone w ->
  content <$> fs (state_of (Compile w c sourcePath s)) !! k = content <$> fs s !! k
  /\ (forall g, fs s !! k = Some g -> perm g = perm_0755 ->
        fs (state_of (Compile w c sourcePath s)) !! k = Some g).
Proof.
  intros Hq. unfold Compile.
  destruct (configs c !! ToLower (Ext sourcePath)) as [config|]; [|simpl; auto].
  unfold bind, cmd_Run.
  destruct (p_start_err _); [simpl; auto|].
  destruct (p_end _) as [t code|]; simpl; rewrite Hq; [|auto].
  destruct (code =? 0); simpl; [|auto].
  destruct (NeedsCompiled config); simpl; [|auto].
  unfold Stat, os_Chmod, ret. simpl.
  set (out := compile_output sourcePath (ToLower (Ext sourcePath))).
  destruct (fs s !! out) as [f|] eqn:Hout.
  - rewrite bool_decide_eq_true_2 by eauto. simpl. rewrite Hout. simpl.
    destruct (decide (k = out)) as [->|Hne].
    + rewrite lookup_insert_eq, Hout. split; [reflexivity|].
      intros g Hg Hp. injection Hg as <-. rewrite <- Hp. destruct f; reflexivity.
    + rewrite lookup_insert_ne by congruence. auto.
  - rewrite bool_decide_eq_false_2 by (intros [? ?]; discriminate). simpl. auto.
Qed.

(** X24. [ExecuteFile] never removes what it staged. In a world whose
    processes leave the files alone, a request for an existing file that
    is staged under another path ends, whatever its outcome (a result, a
    program that cannot be started, a compiler that never exits), with
    the copy in the working directory, holding the bytes of the source
    with mode 0755; and no other file has changed its content. *)
Theorem staged_copy_is_left_behind
    (w : World) (e : Executor) (filePath : string) (s : State) (f : File) :
  let tempFile := Join2 (workDir e) (Base filePath) in
  let final := state_of (ExecuteFile w e filePath s) in
  leaves_files_alone w ->
  fs s !! filePath = Some f ->
  create_err w tempFile = None ->
  filePath <> tempFile ->
  fs final !! tempFile = Some {| content := content f; perm := perm_0755 |}
  /\ (forall k, k <> tempFile -> content <$> fs final !! k = content <$> fs s !! k).
Proof.
  intros tempFile final Hq Hf Hc Hne.
  assert (Hp : is_Some (fs s !! filePath)) by (rewrite Hf; eauto).
  set (st := staged s filePath tempFile).
  assert (Hst : fs st !! tempFile = Some {| content := content f; perm := perm_0755 |}).
  { unfold st, staged, staged_file. simpl. rewrite lookup_insert_eq.
    rewrite bool_decide_eq_false_2 by exact Hne. rewrite Hf. reflexivity. }
  assert (Hother : forall k, k <> tempFile -> fs st !! k = fs s !! k).
  { intros k Hk. unfold st, staged. simpl. apply lookup_insert_ne. congruence. }
  destruct (needs_compile (ToLower (Ext filePath))) eqn:Hn.
  - assert (HE := ExecuteFile_compiled w e filePath s Hp Hc Hn).
    fold tempFile in HE. fold st in HE.
    pose proof (fun k => Compile_keeps_the_contents w (compiler e) tempFile st k Hq)
      as HC.
    assert (Hfinal : fs final = fs (state_of (Compile w (compiler e) tempFile st))).
    { unfold final. rewrite HE.
      destruct (Compile w (compiler e) tempFile st) as [[cr|err] s2|s2];
        [|reflexivity|reflexivity].
      destruct (cr_Success cr); [|reflexivity].
      simpl. apply run_phase_keeps_the_files. exact Hq. }
    rewrite Hfinal. split.
    + apply (proj2 (HC tempFile)); [exact Hst | reflexivity].
    + intros k Hk. rewrite (proj1 (HC k)), (Hother k Hk). reflexivity.
  - assert (HE := ExecuteFile_interpreted w e filePath s Hp Hc Hn).
    fold tempFile in HE. fold st in HE.
    assert (Hfinal : fs final = fs st).
    { unfold final. rewrite HE. apply run_phase_keeps_the_files. exact Hq. }
    rewrite Hfinal. split; [exact Hst|].
    intros k Hk. rewrite (Hother k Hk). reflexivity.
Qed.

Lemma staged_copy_is_left_behind_witness :
  fs (state_of (ExecuteFile W_echo (NewExecutor WORK_DIR) "/home/u/hello.py"
                  (one_file "/home/u/hello.py" "print('hello')")))
    !! "/tmp/smollm-sandbox/hello.py"
  = Some {| content := "print('hello')"; perm := perm_0755 |}.
Proof.
  assert (H1 : fs (one_file "/home/u/hello.py" "print('hello')") !! "/home/u/hello.py"
               = Some {| content := "print('hello')"; perm := 420 |})
    by (vm_compute; reflexivity).
  assert (H2 : "/home/u/hello.py"%string
               <> Join2 (workDir (NewExecutor WORK_DIR)) (Base "/home/u/hello.py"))
    by (vm_compute; discriminate).
  exact (proj1 (staged_copy_is_left_behind W_echo (NewExecutor WORK_DIR)
                  "/home/u/hello.py" (one_file "/home/u/hello.py" "print('hello')")
                  _ (fun _ _ _ => eq_refl) H1 eq_refl H2)).
Defined.
